(** * Discovery engine (scripts/discover.py): model and verified properties

    The development embeds the discovery script in Gallina:
    - Python [str] values are [string]s whose characters are the code
      points below 256; the character tables ([isspace], [lower], [\d]) are
      those of Python 3 restricted to that range;
    - Python [float]s are IEEE binary64 values ([PrimFloat.float]);
    - Python [int]s are [Z];
    - Python [set]s of strings are [gset string], [sorted] is a merge sort
      for the code point order on strings;
    - the regular expressions of the script are terms of a small regular
      expression type, matched by derivatives;
    - the network, the environment variables, the random generator and the
      file system are an explicit environment [Env]; the effects of a run
      (requests issued, sleeps, log records) are collected in a [World];
    - [while True] loops take fuel, and report [OutOfFuel] with the state
      they reached when it is used up;
    - an exception that nothing catches ends the run as [Raised], with the
      state it reached; the interpreter then exits with status 1. *)

From Stdlib Require Import ZArith Ascii String PrimFloat QArith Qminmax Lia Lqa.
From stdpp Require Import base tactics option list sorting gmap strings.

Local Open Scope Z_scope.

(* ================================================================== *)
(** * Part I: definitions *)
(* ================================================================== *)

(** ** Characters and strings *)

Module Chars.

Definition code (c : ascii) : N := N_of_ascii c.

Definition between (lo hi : N) (c : ascii) : bool :=
  ((lo <=? code c) && (code c <=? hi))%N.

(** [str.isspace] on code points below 256: TAB..CR, FS..US, space,
    NEL and NBSP. *)
Definition isspace (c : ascii) : bool :=
  between 9 13 c || between 28 32 c || (code c =? 133)%N || (code c =? 160)%N.

Definition isupper_ascii (c : ascii) : bool := between 65 90 c.

(** Upper case letters of the Latin-1 block (all of 192..222 but the
    multiplication sign 215). *)
Definition isupper_latin1 (c : ascii) : bool :=
  between 192 222 c && negb (code c =? 215)%N.

(** [str.lower] on one character below 256. *)
Definition lower (c : ascii) : ascii :=
  if isupper_ascii c || isupper_latin1 c
  then ascii_of_N (code c + 32) else c.

(** [\d]: the decimal digits (below 256 these are 0..9 only). *)
Definition isdigit (c : ascii) : bool := between 48 57 c.

(** [[a-z]] *)
Definition islower_az (c : ascii) : bool := between 97 122 c.

(** [[a-z0-9.-]] *)
Definition ishost (c : ascii) : bool :=
  islower_az c || isdigit c || (code c =? 46)%N || (code c =? 45)%N.

Definition eqc (x c : ascii) : bool := (code c =? code x)%N.

End Chars.

Module Str.

Fixpoint all (p : ascii -> bool) (s : string) : bool :=
  match s with
  | EmptyString => true
  | String c r => p c && all p r
  end.

Fixpoint any (p : ascii -> bool) (s : string) : bool :=
  match s with
  | EmptyString => false
  | String c r => p c || any p r
  end.

Fixpoint map (f : ascii -> ascii) (s : string) : string :=
  match s with
  | EmptyString => EmptyString
  | String c r => String (f c) (map f r)
  end.

(** [s.startswith(p)], returning the rest of [s] after [p]. *)
Fixpoint strip_prefix (p s : string) : option string :=
  match p, s with
  | EmptyString, _ => Some s
  | String a p', String b s' =>
      if Ascii.eqb a b then strip_prefix p' s' else None
  | String _ _, EmptyString => None
  end.

Definition startswith (s p : string) : bool :=
  match strip_prefix p s with Some _ => true | None => false end.

(** [s[n:]] *)
Fixpoint drop (n : nat) (s : string) : string :=
  match n, s with
  | O, _ => s
  | S n', String _ r => drop n' r
  | S _, EmptyString => EmptyString
  end.

(** [s.lstrip()], [s.rstrip()], [s.strip()] *)
Fixpoint lstrip (s : string) : string :=
  match s with
  | String c r => if Chars.isspace c then lstrip r else s
  | EmptyString => EmptyString
  end.

Fixpoint rstrip (s : string) : string :=
  match s with
  | EmptyString => EmptyString
  | String c r =>
      match rstrip r with
      | EmptyString => if Chars.isspace c then EmptyString else String c EmptyString
      | r' => String c r'
      end
  end.

Definition strip (s : string) : string := rstrip (lstrip s).

Definition lower (s : string) : string := map Chars.lower s.

(** The leftmost occurrence of a non-empty separator: the text before
    it and the text after it. *)
Fixpoint partition (sep s : string) : option (string * string) :=
  match strip_prefix sep s with
  | Some r => Some (EmptyString, r)
  | None =>
      match s with
      | EmptyString => None
      | String c r =>
          match partition sep r with
          | Some (a, b) => Some (String c a, b)
          | None => None
          end
      end
  end.

(** [s.split(sep, 1)]: one or two pieces. *)
Definition split1 (sep s : string) : list string :=
  match partition sep s with
  | Some (a, b) => [a; b]
  | None => [s]
  end.

(** [l[0]] and [l[-1]] on the non-empty lists [split1] returns. *)
Definition item0 (l : list string) : string := default EmptyString (head l).
Definition item_last (l : list string) : string := default EmptyString (last l).

(** The last character, when there is one, and the text before it. *)
Fixpoint unsnoc (s : string) : option (string * ascii) :=
  match s with
  | EmptyString => None
  | String c r =>
      match unsnoc r with
      | None => Some (EmptyString, c)
      | Some (r', z) => Some (String c r', z)
      end
  end.

End Str.

(** ** Regular expressions *)

Module Re.

Inductive regex : Type :=
| Void
| Eps
| Class (p : ascii -> bool)
| Cat (r1 r2 : regex)
| Alt (r1 r2 : regex)
| Star (r : regex).

Fixpoint nullable (r : regex) : bool :=
  match r with
  | Void => false
  | Eps => true
  | Class _ => false
  | Cat r1 r2 => nullable r1 && nullable r2
  | Alt r1 r2 => nullable r1 || nullable r2
  | Star _ => true
  end.

Fixpoint deriv (c : ascii) (r : regex) : regex :=
  match r with
  | Void => Void
  | Eps => Void
  | Class p => if p c then Eps else Void
  | Cat r1 r2 =>
      if nullable r1
      then Alt (Cat (deriv c r1) r2) (deriv c r2)
      else Cat (deriv c r1) r2
  | Alt r1 r2 => Alt (deriv c r1) (deriv c r2)
  | Star r1 => Cat (deriv c r1) (Star r1)
  end.

(** The whole of [s] is a word of [r]. *)
Fixpoint matches (r : regex) (s : string) : bool :=
  match s with
  | EmptyString => nullable r
  | String c s' => matches (deriv c r) s'
  end.

(** Some prefix of [s] is a word of [r]: [re.match(r, s)] for a pattern
    without anchors. *)
Fixpoint matches_prefix (r : regex) (s : string) : bool :=
  nullable r ||
  match s with
  | EmptyString => false
  | String c s' => matches_prefix (deriv c r) s'
  end.

(** [re.match('^r$', s)]: without the MULTILINE flag [$] holds at the end
    of the string and just before a line feed that ends the string. *)
Definition match_anchored (r : regex) (s : string) : bool :=
  matches r s ||
  match Str.unsnoc s with
  | Some (s', c) => Chars.eqc "010" c && matches r s'
  | None => false
  end.

(** Derived forms: [r?], [r+], [r{n}], [r{lo,hi}], [r{n,}] *)
Definition Opt (r : regex) : regex := Alt Eps r.
Definition Plus (r : regex) : regex := Cat r (Star r).
Fixpoint Times (n : nat) (r : regex) : regex :=
  match n with
  | O => Eps
  | S n' => Cat r (Times n' r)
  end.
Fixpoint UpTo (n : nat) (r : regex) : regex :=
  match n with
  | O => Eps
  | S n' => Opt (Cat r (UpTo n' r))
  end.
Definition Range (lo hi : nat) (r : regex) : regex :=
  Cat (Times lo r) (UpTo (hi - lo) r).
Definition AtLeast (n : nat) (r : regex) : regex :=
  Cat (Times n r) (Star r).
Definition Lit (c : ascii) : regex := Class (Chars.eqc c).

(** The language of a regular expression. *)
Inductive lang : regex -> string -> Prop :=
| lang_eps : lang Eps EmptyString
| lang_class p c : p c = true -> lang (Class p) (String c EmptyString)
| lang_cat r1 r2 s1 s2 : lang r1 s1 -> lang r2 s2 -> lang (Cat r1 r2) (s1 +:+ s2)
| lang_alt_l r1 r2 s : lang r1 s -> lang (Alt r1 r2) s
| lang_alt_r r1 r2 s : lang r2 s -> lang (Alt r1 r2) s
| lang_star_nil r : lang (Star r) EmptyString
| lang_star_cons r s1 s2 :
    lang r s1 -> lang (Star r) s2 -> lang (Star r) (s1 +:+ s2).

End Re.

(** ** Domain helpers (discover.py, lines 79-107) *)

(** [normalize_domain]: strip, drop the scheme, keep the host, drop the
    port, lower-case, drop one leading [www.]. *)
Definition normalize_domain (raw : string) : string :=
  let d := Str.strip raw in
  let d := Str.item_last (Str.split1 "//" d) in
  let d := Str.item0 (Str.split1 "/" d) in
  let d := Str.item0 (Str.split1 ":" d) in
  let d := Str.lower d in
  if Str.startswith d "www." then Str.drop 4 d else d.

(** [\d{1,3}\.\d{1,3}\.\d{1,3}\.\d{1,3}] *)
Definition ipv4_re : Re.regex :=
  let d13 := Re.Range 1 3 (Re.Class Chars.isdigit) in
  let dot := Re.Lit "." in
  Re.Cat d13 (Re.Cat dot (Re.Cat d13 (Re.Cat dot (Re.Cat d13 (Re.Cat dot d13))))).

(** [[a-z0-9.-]+\.[a-z]{2,}] *)
Definition domain_re : Re.regex :=
  Re.Cat (Re.Plus (Re.Class Chars.ishost))
         (Re.Cat (Re.Lit ".") (Re.AtLeast 2 (Re.Class Chars.islower_az))).

Definition blocked_hosts : list string :=
  ["localhost"; "127.0.0.1"; "0.0.0.0"; "::1"].

Definition is_valid_domain (domain : string) : bool :=
  if String.eqb domain "" || (253 <? Z.of_nat (String.length domain)) then false
  else if bool_decide (domain ∈ blocked_hosts) then false
  else if Re.match_anchored ipv4_re domain then false
  else if negb (Re.match_anchored domain_re domain) then false
  else true.

(** [sorted(s)] for a set of strings. *)
Definition py_sorted (s : gset string) : list string :=
  merge_sort String.le (elements s).

(** [unique_sorted]: the two set comprehensions, then [sorted]. *)
Definition unique_sorted (domains : list string) : list string :=
  let normalized : gset string :=
    list_to_set
      (normalize_domain <$>
         filter (fun d => normalize_domain d ≠ "") domains) in
  let valid : gset string :=
    filter (fun d => is_valid_domain d = true) normalized in
  py_sorted valid.

(** ** Numbers of the backoff schedule *)

(** The arithmetic [backoff_delays] needs: a comparison and a doubling.
    The script runs it on floats; the closed form of the schedule is
    stated on the rationals, where doubling is exact. *)
Class Number (F : Type) := {
  num_ltb : F -> F -> bool;
  num_mul : F -> F -> F;
  num_two : F;
}.

#[export] Instance float_number : Number float :=
  {| num_ltb := PrimFloat.ltb; num_mul := PrimFloat.mul; num_two := 2%float |}.

Definition Qltb (a b : Q) : bool := negb (Qle_bool b a).

#[export] Instance Q_number : Number Q :=
  {| num_ltb := Qltb; num_mul := Qmult; num_two := 2%Q |}.

Section Backoff.
Context {F : Type} `{Number F}.

(** Python's [min(a, b)]: the first argument unless the second is
    strictly smaller. *)
Definition py_min (a b : F) : F := if num_ltb b a then b else a.

(** One turn of the loop of [backoff_delays] on [(delays, cur)]. *)
Definition backoff_step (max_s : F) (st : list F * F) : list F * F :=
  let '(delays, cur) := st in
  (delays ++ [cur], py_min max_s (num_mul cur num_two)).

(** [backoff_delays] (discover.py, lines 132-138). *)
Definition backoff_delays (base max_s : F) (attempts : Z) : list F :=
  fst (Nat.iter (Z.to_nat (Z.max 0 (attempts - 1)))
                (backoff_step max_s) ([], base)).

(** The schedule read off the specification: the value at each index. *)
Fixpoint delay_at (base max_s : F) (i : nat) : F :=
  match i with
  | O => base
  | S j => py_min max_s (num_mul (delay_at base max_s j) num_two)
  end.
End Backoff.

(** ** The environment and the effects of a run *)

Inductive Level : Type := DEBUG | INFO | WARNING | ERROR.

(** A log record: level and message text (the interpolated values and
    the [extra] fields are left out). *)
Record LogRecord : Type := { level : Level; message : string }.

(** One entry of the [items] array of a Custom Search reply; a missing or
    empty field is the empty string. *)
Record SearchItem : Type := { link : string; formattedUrl : string }.

(** One row of [DDGS.text]. *)
Record DdgRow : Type := { row_href : string; row_link : string; row_url : string }.

(** The query parameters of one Custom Search request. *)
Record Params : Type := {
  param_key : string; param_cx : string; param_q : string;
  param_num : Z; param_safe : string; param_start : Z;
}.

(** What [requests.get] does on the search API: a reply with a status and
    a body ([None] when [resp.json()] raises), or an exception. *)
Inductive HttpOutcome : Type :=
| Response (status_code : Z) (body : option (list SearchItem))
| Timeout
| ConnectionError
| OtherError.

(** What [requests.get] does on a robots.txt URL. *)
Inductive RobotsOutcome : Type :=
| RobotsResponse (status_code : Z) (text : string)
| RobotsError.

(** One call of [DDGS().text]: the rows it yields, and whether it then
    raises. *)
Record DdgOutcome : Type := { rows : list DdgRow; raised : bool }.

(** A value of a provider's mapping as the constructors read it: absent;
    taken, with what [int] or [float] makes of it (for the name of an
    environment variable: the string itself); or rejected, when [int],
    [float] or [os.getenv] raises on it (a null, a list, a word where a
    number is due). *)
Inductive Setting (A : Type) : Type :=
| Unset
| Given (a : A)
| Rejected.
Arguments Unset {A}.
Arguments Given {A} a.
Arguments Rejected {A}.

(** [conv(cfg.get(key, dflt))]; [None] when the conversion raises. *)
Definition setting {A} (dflt : A) (s : Setting A) : option A :=
  match s with
  | Unset => Some dflt
  | Given a => Some a
  | Rejected => None
  end.

(** The per-provider mapping of the configuration document. [cfg_enabled]
    is the truth value of the entry, [None] for an absent key. *)
Record ProviderCfg : Type := {
  cfg_enabled : option bool;
  cfg_daily_quota_threshold : Setting Z;
  cfg_rate_limit_rps : Setting float;
  cfg_jitter_percent : Setting float;
  cfg_retry_attempts : Setting Z;
  cfg_backoff_base_seconds : Setting float;
  cfg_backoff_max_seconds : Setting float;
  cfg_api_key_env : Setting string;
  cfg_cx_env : Setting string;
}.

Definition empty_cfg : ProviderCfg :=
  {| cfg_enabled := None; cfg_daily_quota_threshold := Unset;
     cfg_rate_limit_rps := Unset; cfg_jitter_percent := Unset;
     cfg_retry_attempts := Unset; cfg_backoff_base_seconds := Unset;
     cfg_backoff_max_seconds := Unset; cfg_api_key_env := Unset;
     cfg_cx_env := Unset |}.

(** An entry of the [providers] mapping: absent, a mapping, or another
    value (a null, a list, a string, a number), which has no [get]. *)
Inductive Entry : Type :=
| NoEntry
| NotAMapping
| Mapping (cfg : ProviderCfg).

(** [cfg.get("providers") or {}]: a mapping with its two entries (the
    empty mapping for an absent or false value), or a true value that is
    no mapping. *)
Inductive ProvidersField : Type :=
| Providers (google_cse duckduckgo : Entry)
| NoMapping.

(** The [keywords] field of the document as [load_config] tells the cases
    apart. *)
Inductive KeywordsField : Type :=
| KwMissing
| KwNotList
| KwList (l : list string).

Record ConfigDoc : Type := {
  doc_keywords : KeywordsField;
  doc_providers : ProvidersField;
}.

(** [mkdir(parents=True, exist_ok=True)] on the parent of a path: done,
    [PermissionError], or another error (the parent or one of its
    ancestors is a regular file, ...). *)
Inductive Mkdir : Type := Made | MkdirDenied | MkdirFailed.

Inductive ConfigFile : Type :=
| NoSuchFile
| Unreadable
| Document (d : ConfigDoc).

(** What a run meets outside the program. The answers of the network
    depend on the number of calls made before; [crawl_delay_value] is what
    [float] makes of the value of a crawl-delay line; [mkdir_parent],
    [touch_unlink] and [opens] tell how the file system takes the
    [mkdir] of the parent of a path, the [touch] and [unlink] of the test
    file next to it and the [open] of the path for writing;
    [stdout_takes] tells whether the standard output takes the line that
    [main] prints at its end; [too_long] holds of the delays beyond what
    the clock of the platform takes. *)
Record Env : Type := {
  getenv : string -> option string;
  ddgs_available : bool;
  google_get : nat -> Params -> HttpOutcome;
  robots_get : nat -> string -> RobotsOutcome;
  ddgs_text : nat -> string -> Z -> DdgOutcome;
  random_random : nat -> float;
  crawl_delay_value : string -> option float;
  config_file : string -> ConfigFile;
  mkdir_parent : string -> Mkdir;
  touch_unlink : string -> bool;
  opens : string -> bool;
  stdout_takes : bool;
  too_long : float -> bool;
}.

(** The effects of a run so far, newest first. *)
Record World : Type := {
  gets : list Params;
  robots_fetches : list string;
  searches : list (string * Z);
  draws : nat;
  sleeps : list float;
  log : list LogRecord;
  files : list (string * string);
}.

Definition empty_world : World :=
  {| gets := []; robots_fetches := []; searches := []; draws := 0%nat;
     sleeps := []; log := []; files := [] |}.

(** The number of network calls of any kind issued so far. *)
Definition network_calls (w : World) : nat :=
  (length (gets w) + length (robots_fetches w) + length (searches w))%nat.

(** Why a run did not return: the fuel of a [while True] loop ran out,
    or an exception left the call. *)
Inductive Stop : Type := Fuel | Exception.

Inductive Run (A : Type) : Type :=
| Done (a : A) (w : World)
| Stopped (why : Stop) (w : World).
Arguments Done {A} a w.
Arguments Stopped {A} why w.

Abbreviation OutOfFuel w := (Stopped Fuel w).
Abbreviation Raised w := (Stopped Exception w).

Definition M (A : Type) : Type := World -> Run A.

Definition ret {A} (a : A) : M A := fun w => Done a w.

Definition bind {A B} (m : M A) (k : A -> M B) : M B :=
  fun w => match m w with
           | Done a w' => k a w'
           | Stopped why w' => Stopped why w'
           end.

Definition out_of_fuel {A} : M A := fun w => OutOfFuel w.

(** An exception that nothing catches. *)
Definition raise {A} : M A := fun w => Raised w.

(** A pure step that may raise. *)
Definition lift {A} (o : option A) : M A :=
  fun w => match o with Some a => Done a w | None => Raised w end.

#[export] Instance M_ret : MRet M := @ret.
#[export] Instance M_bind : MBind M := fun A B k m => bind m k.

Definition log_record (l : Level) (msg : string) : M unit :=
  fun w => Done tt
    {| gets := gets w; robots_fetches := robots_fetches w;
       searches := searches w; draws := draws w; sleeps := sleeps w;
       log := {| level := l; message := msg |} :: log w; files := files w |}.

(** Whether [time.sleep(d)] takes [d]: it raises [ValueError] for a
    negative delay and for NaN, and [OverflowError] for an infinite delay
    or one too long for the clock of the platform ([too_long], from about
    9.2e9 seconds on). *)
Definition sleep_accepts (env : Env) (d : float) : bool :=
  PrimFloat.leb 0%float d && PrimFloat.ltb d infinity && negb (too_long env d).

(** [time.sleep] *)
Definition sleep (env : Env) (d : float) : M unit :=
  fun w =>
    if sleep_accepts env d
    then Done tt
           {| gets := gets w; robots_fetches := robots_fetches w;
              searches := searches w; draws := draws w; sleeps := d :: sleeps w;
              log := log w; files := files w |}
    else Raised w.

(** [random.uniform(a, b)] is [a + (b - a) * random.random()]. *)
Definition random_uniform (env : Env) (a b : float) : M float :=
  fun w => Done (PrimFloat.add a (PrimFloat.mul (PrimFloat.sub b a)
                                   (random_random env (draws w))))
    {| gets := gets w; robots_fetches := robots_fetches w;
       searches := searches w; draws := S (draws w); sleeps := sleeps w;
       log := log w; files := files w |}.

Definition http_get (env : Env) (p : Params) : M HttpOutcome :=
  fun w => Done (google_get env (length (gets w)) p)
    {| gets := p :: gets w; robots_fetches := robots_fetches w;
       searches := searches w; draws := draws w; sleeps := sleeps w;
       log := log w; files := files w |}.

Definition robots_fetch (env : Env) (url : string) : M RobotsOutcome :=
  fun w => Done (robots_get env (length (robots_fetches w)) url)
    {| gets := gets w; robots_fetches := url :: robots_fetches w;
       searches := searches w; draws := draws w; sleeps := sleeps w;
       log := log w; files := files w |}.

Definition ddg_search (env : Env) (keyword : string) (max_results : Z) : M DdgOutcome :=
  fun w => Done (ddgs_text env (length (searches w)) keyword max_results)
    {| gets := gets w; robots_fetches := robots_fetches w;
       searches := (keyword, max_results) :: searches w; draws := draws w;
       sleeps := sleeps w; log := log w; files := files w |}.

Definition write_file (path content : string) : M unit :=
  fun w => Done tt
    {| gets := gets w; robots_fetches := robots_fetches w;
       searches := searches w; draws := draws w; sleeps := sleeps w;
       log := log w; files := (path, content) :: files w |}.

(** ** Small Python idioms *)

Definition len {A} (l : list A) : Z := Z.of_nat (length l).

(** Truth value of a string. *)
Definition truthy (s : string) : bool := negb (String.eqb s "").

(** [a or b] on strings. *)
Definition str_or (a b : string) : string := if truthy a then a else b.

(** [l[:n]], also for a negative [n]. *)
Definition py_take {A} (n : Z) (l : list A) : list A :=
  if n <? 0 then take (length l - Z.to_nat (- n)) l else take (Z.to_nat n) l.

(** [delays[idx]] where the guard before it keeps [idx] within range. *)
Definition delay_index (delays : list float) (idx : Z) : float :=
  default 0%float (delays !! Z.to_nat idx).

(** ** robots.txt (discover.py, lines 109-130) *)

(** Line boundaries of [str.splitlines] below 256. *)
Definition is_linebreak (c : ascii) : bool :=
  Chars.between 10 13 c || Chars.between 28 30 c || (Chars.code c =? 133)%N.

Fixpoint splitlines_go (cur : string) (s : string) : list string :=
  match s with
  | EmptyString => if String.eqb cur "" then [] else [String.rev cur]
  | String c r =>
      if is_linebreak c then
        String.rev cur ::
          match r with
          | String c' r' =>
              if Chars.eqc "013" c && Chars.eqc "010" c'
              then splitlines_go EmptyString r'
              else splitlines_go EmptyString r
          | EmptyString => []
          end
      else splitlines_go (String c cur) r
  end.

Definition splitlines (s : string) : list string := splitlines_go EmptyString s.

(** A letter matched without regard to case. *)
Definition LitI (c : ascii) : Re.regex :=
  Re.Class (fun x => Chars.eqc (Chars.lower c) (Chars.lower x)).

Fixpoint WordI (s : string) : Re.regex :=
  match s with
  | EmptyString => Re.Eps
  | String c r => Re.Cat (LitI c) (WordI r)
  end.

(** [(?i)\s*crawl-?delay\s*:\s*[0-9.]+] *)
Definition crawl_delay_re : Re.regex :=
  let ws := Re.Star (Re.Class Chars.isspace) in
  Re.Cat ws (Re.Cat (WordI "crawl") (Re.Cat (Re.Opt (Re.Lit "-"))
    (Re.Cat (WordI "delay") (Re.Cat ws (Re.Cat (Re.Lit ":") (Re.Cat ws
      (Re.Plus (Re.Class (fun c => Chars.isdigit c || Chars.eqc "." c))))))))).

(** [parse_crawl_delay]: the first line that matches decides. The value of
    [float(re.sub(...).strip())] on that line, [None] when it raises, is
    [crawl_delay_value] of the environment. *)
Fixpoint parse_crawl_delay_lines (env : Env) (lines : list string) : option float :=
  match lines with
  | [] => None
  | line :: rest =>
      if Re.matches_prefix crawl_delay_re line
      then crawl_delay_value env line
      else parse_crawl_delay_lines env rest
  end.

Definition parse_crawl_delay (env : Env) (robots_txt : string) : option float :=
  parse_crawl_delay_lines env (splitlines robots_txt).

Definition fetch_robots_and_delay (env : Env) (host ua : string)
  : M (bool * option float) :=
  r ← robots_fetch env ("https://" +:+ host +:+ "/robots.txt");
  match r with
  | RobotsResponse code txt =>
      if negb (code =? 200) then ret (true, None)
      else ret (true, parse_crawl_delay env txt)
  | RobotsError => ret (true, None)
  end.

(** ** RateLimiter (discover.py, lines 140-152) *)

Definition RateLimiter_wait (env : Env) (rps jitter_pct : float) : M unit :=
  if PrimFloat.leb rps 0%float then ret tt
  else
    let interval := PrimFloat.div 1%float rps in
    let jitter := PrimFloat.mul interval (PrimFloat.div jitter_pct 100%float) in
    u ← random_uniform env (PrimFloat.opp jitter) jitter;
    let delay := PrimFloat.add interval u in
    if PrimFloat.ltb 0%float delay then sleep env delay else ret tt.

(** ** Providers (discover.py, lines 155-359) *)

Record BaseProvider : Type := {
  name : string;
  queries_made : Z;
  daily_quota_threshold : Z;
  rate_limit_rps : float;
  jitter_percent : float;
  retry_attempts : Z;
  backoff_base_seconds : float;
  backoff_max_seconds : float;
}.

(** [BaseProvider.__init__]; [None] when [int] or [float] raises on a
    value of the mapping. Nothing has happened by then. *)
Definition BaseProvider_init (nm : string) (cfg : ProviderCfg) : option BaseProvider :=
  quota ← setting (10 ^ 9) (cfg_daily_quota_threshold cfg);
  rps ← setting 0.5%float (cfg_rate_limit_rps cfg);
  jitter ← setting 20%float (cfg_jitter_percent cfg);
  attempts ← setting 3 (cfg_retry_attempts cfg);
  base ← setting 0.5%float (cfg_backoff_base_seconds cfg);
  max_s ← setting 8%float (cfg_backoff_max_seconds cfg);
  Some {| name := nm;
          queries_made := 0;
          daily_quota_threshold := quota;
          rate_limit_rps := rps;
          jitter_percent := jitter;
          retry_attempts := attempts;
          backoff_base_seconds := base;
          backoff_max_seconds := max_s |}.

Definition can_continue (b : BaseProvider) : bool :=
  queries_made b <? daily_quota_threshold b.

Definition _sleep_limiter (env : Env) (b : BaseProvider) : M unit :=
  RateLimiter_wait env (rate_limit_rps b) (jitter_percent b).

Definition _delays (b : BaseProvider) : list float :=
  backoff_delays (backoff_base_seconds b) (backoff_max_seconds b) (retry_attempts b).

(** [self.queries_made += 1] *)
Definition count_query (b : BaseProvider) : BaseProvider :=
  {| name := name b;
     queries_made := queries_made b + 1;
     daily_quota_threshold := daily_quota_threshold b;
     rate_limit_rps := rate_limit_rps b;
     jitter_percent := jitter_percent b;
     retry_attempts := retry_attempts b;
     backoff_base_seconds := backoff_base_seconds b;
     backoff_max_seconds := backoff_max_seconds b |}.

Inductive Provider : Type :=
| GoogleCSEProvider (base : BaseProvider) (api_key cx : string)
| DuckDuckGoProvider (base : BaseProvider) (ddg_allowed : bool)
                     (ddg_crawl_delay : option float).

Definition base_of (p : Provider) : BaseProvider :=
  match p with
  | GoogleCSEProvider b _ _ => b
  | DuckDuckGoProvider b _ _ => b
  end.

Definition missing_credentials_warning : string :=
  "GoogleCSEProvider missing API key or CX; provider will return empty results.".

Definition GoogleCSEProvider_init (env : Env) (cfg : ProviderCfg) : M Provider :=
  b ← lift (BaseProvider_init "google_cse" cfg);
  api_key_env ← lift (setting "GOOGLE_API_KEY" (cfg_api_key_env cfg));
  let api_key := default "" (getenv env api_key_env) in
  cx_env ← lift (setting "GOOGLE_CSE_ID" (cfg_cx_env cfg));
  let cx := default "" (getenv env cx_env) in
  if negb (truthy api_key) || negb (truthy cx)
  then log_record WARNING missing_credentials_warning;;
       ret (GoogleCSEProvider b api_key cx)
  else ret (GoogleCSEProvider b api_key cx).

(** The links of one page: [link], else [formattedUrl], else skipped. *)
Definition page_links (items : list SearchItem) : list string :=
  filter (fun l => truthy l = true)
         ((fun it => str_or (link it) (formattedUrl it)) <$> items).

(** The inner [while True] of [GoogleCSEProvider.query] (lines 217-281),
    entered with the value of [attempt] before its increment. It returns
    the grown [results]. The sleep after a 429 or 503 stands inside the
    [try]: when [time.sleep] rejects the delay, [except Exception] takes
    the error and the page ends. The sleep after a timeout or a connection
    error stands inside the handler: there the error leaves the query. *)
Fixpoint google_attempts (fuel : nat) (env : Env) (params : Params)
    (delays : list float) (attempt : Z) (results : list string)
  : M (list string) :=
  match fuel with
  | O => out_of_fuel
  | S fuel' =>
      let attempt := attempt + 1 in
      r ← http_get env params;
      match r with
      | Response code body =>
          if code =? 200 then
            match body with
            | Some items =>
                log_record INFO "google results";;
                ret (results ++ page_links items)
            | None =>
                log_record WARNING "google unknown error";;
                ret results
            end
          else if (code =? 429) || (code =? 503) then
            let idx := Z.min (attempt - 1) (len delays - 1) in
            if (0 <=? idx) && (idx <? len delays) then
              if sleep_accepts env (delay_index delays idx) then
                sleep env (delay_index delays idx);;
                google_attempts fuel' env params delays attempt results
              else
                log_record WARNING "google unknown error";;
                ret results
            else
              log_record WARNING "google backoff exhausted";;
              ret results
          else
            log_record WARNING "google non-200";;
            ret results
      | Timeout | ConnectionError =>
          let idx := Z.min (attempt - 1) (len delays - 1) in
          if (0 <=? idx) && (idx <? len delays) then
            sleep env (delay_index delays idx);;
            google_attempts fuel' env params delays attempt results
          else
            log_record WARNING "google network error";;
            ret results
      | OtherError =>
          log_record WARNING "google unknown error";;
          ret results
      end
  end.

(** The pagination loop of [GoogleCSEProvider.query] (lines 206-285). *)
Fixpoint google_pages (pages fuel : nat) (env : Env) (b : BaseProvider)
    (api_key cx keyword : string) (max_results : Z) (delays : list float)
    (start_index : Z) (results : list string) : M (list string) :=
  if (len results <? max_results) && (start_index <=? 91) then
    match pages with
    | O => out_of_fuel
    | S pages' =>
        _sleep_limiter env b;;
        let params :=
          {| param_key := api_key; param_cx := cx; param_q := keyword;
             param_num := Z.min 10 (max_results - len results);
             param_safe := "active"; param_start := start_index |} in
        results' ← google_attempts fuel env params delays 0 results;
        if max_results <=? len results' then ret results'
        else google_pages pages' fuel env b api_key cx keyword max_results
                          delays (start_index + 10) results'
    end
  else ret results.

Definition google_query (fuel : nat) (env : Env) (b : BaseProvider)
    (api_key cx keyword : string) (max_results : Z)
  : M (list string * Provider) :=
  if negb (can_continue b) then ret ([], GoogleCSEProvider b api_key cx)
  else if negb (truthy api_key && truthy cx) then
    ret ([], GoogleCSEProvider (count_query b) api_key cx)
  else
    let delays := _delays b in
    results ← google_pages fuel fuel env b api_key cx keyword max_results
                           delays 1 [];
    ret (py_take max_results results,
         GoogleCSEProvider (count_query b) api_key cx).

Definition DDG_HOST : string := "duckduckgo.com".
Definition DDG_UA : string :=
  "Agentik-LeadGen-Discover/1.0 (+https://github.com/Ch405-L9/BADGR-Private)".

Definition DuckDuckGoProvider_init (env : Env) (cfg : ProviderCfg) : M Provider :=
  b ← lift (BaseProvider_init "duckduckgo" cfg);
  '(allowed, delay) ← fetch_robots_and_delay env DDG_HOST DDG_UA;
  ret (DuckDuckGoProvider b allowed delay).

Definition _respect_ddg_delay (env : Env) (crawl_delay : option float) : M unit :=
  match crawl_delay with
  | Some d =>
      if negb (PrimFloat.eqb d 0%float) && PrimFloat.ltb 0%float d
      then sleep env d else ret tt
  | None => ret tt
  end.

(** The URLs of the rows: [href], else [link], else [url], else skipped. *)
Definition row_urls (rs : list DdgRow) : list string :=
  filter (fun u => truthy u = true)
         ((fun r => str_or (row_href r) (str_or (row_link r) (row_url r))) <$> rs).

(** The [while True] of [DuckDuckGoProvider.query] (lines 323-356). *)
Fixpoint ddg_attempts (fuel : nat) (env : Env) (keyword : string)
    (max_results : Z) (delays : list float) (attempt : Z)
    (results : list string) : M (list string) :=
  match fuel with
  | O => out_of_fuel
  | S fuel' =>
      let attempt := attempt + 1 in
      o ← ddg_search env keyword max_results;
      let results := results ++ row_urls (rows o) in
      if raised o then
        if attempt <=? len delays then
          sleep env (delay_index delays (attempt - 1));;
          ddg_attempts fuel' env keyword max_results delays attempt results
        else
          log_record WARNING "ddg error";;
          ret results
      else
        log_record INFO "ddg results";;
        ret results
  end.

Definition ddg_query (fuel : nat) (env : Env) (b : BaseProvider)
    (ddg_allowed : bool) (ddg_crawl_delay : option float)
    (keyword : string) (max_results : Z) : M (list string * Provider) :=
  if negb (can_continue b) then
    ret ([], DuckDuckGoProvider b ddg_allowed ddg_crawl_delay)
  else if negb (ddgs_available env) then
    log_record WARNING "duckduckgo_search not available; returning empty.";;
    ret ([], DuckDuckGoProvider (count_query b) ddg_allowed ddg_crawl_delay)
  else
    _sleep_limiter env b;;
    _respect_ddg_delay env ddg_crawl_delay;;
    let delays := _delays b in
    results ← ddg_attempts fuel env keyword max_results delays 0 [];
    ret (py_take max_results results,
         DuckDuckGoProvider (count_query b) ddg_allowed ddg_crawl_delay).

(** [prov.query(keyword, max_results)], dispatched on the class. *)
Definition query (fuel : nat) (env : Env) (p : Provider)
    (keyword : string) (max_results : Z) : M (list string * Provider) :=
  match p with
  | GoogleCSEProvider b api_key cx =>
      google_query fuel env b api_key cx keyword max_results
  | DuckDuckGoProvider b allowed delay =>
      ddg_query fuel env b allowed delay keyword max_results
  end.

(** ** Configuration (discover.py, lines 362-388) *)

(** [load_config]: the keywords and the document, or the exception. *)
Definition load_config (env : Env) (path : string)
  : string + (list string * ConfigDoc) :=
  match config_file env path with
  | NoSuchFile => inl "Config file not found"
  | Unreadable => inl "Config file unreadable"
  | Document d =>
      match doc_keywords d with
      | KwMissing => inl "Config missing 'keywords' field"
      | KwNotList => inl "'keywords' must be a list"
      | KwList [] => inl "'keywords' list is empty"
      | KwList kws => inr (kws, d)
      end
  end.

(** What [ensure_writable] comes to: it returns; it raises
    [PermissionError] (that of [mkdir], or the one it makes of any
    exception of [touch] and [unlink]); or [mkdir], which stands before
    the [try], raises another exception. *)
Inductive Probe : Type := Writable | Denied | Broken.

Definition ensure_writable (env : Env) (path : string) : Probe :=
  match mkdir_parent env path with
  | Made => if touch_unlink env path then Writable else Denied
  | MkdirDenied => Denied
  | MkdirFailed => Broken
  end.

(** ** The orchestrator (discover.py, lines 391-480) *)

Inductive ProviderChoice : Type := ChooseGoogle | ChooseDuckDuckGo | ChooseAll.

Record Args : Type := {
  args_config : string;
  args_output : string;
  args_provider : ProviderChoice;
  args_max_results : Z;
  args_dry_run : bool;
  args_verbose : bool;
}.

Record UsageEntry : Type := { usage_queries_made : Z; usage_domains : Z }.

Definition selects_google (c : ProviderChoice) : bool :=
  match c with ChooseGoogle | ChooseAll => true | ChooseDuckDuckGo => false end.

Definition selects_duckduckgo (c : ProviderChoice) : bool :=
  match c with ChooseDuckDuckGo | ChooseAll => true | ChooseGoogle => false end.

(** [providers_cfg.get("google_cse", {})] and its sibling; [None] when
    [providers_cfg] has no [get]. *)
Definition google_cse_entry (doc : ConfigDoc) : option Entry :=
  match doc_providers doc with
  | Providers g _ => Some g
  | NoMapping => None
  end.

Definition duckduckgo_entry (doc : ConfigDoc) : option Entry :=
  match doc_providers doc with
  | Providers _ d => Some d
  | NoMapping => None
  end.

(** [providers_cfg.get(name, {}).get("enabled", True)] as a truth value;
    [None] when one of the two [get]s raises [AttributeError]. *)
Definition enabled (e : option Entry) : option bool :=
  match e with
  | None | Some NotAMapping => None
  | Some NoEntry => Some true
  | Some (Mapping cfg) => Some (default true (cfg_enabled cfg))
  end.

(** The mapping the constructor is given once the entry is enabled. *)
Definition entry_cfg (e : option Entry) : ProviderCfg :=
  match e with
  | Some (Mapping cfg) => cfg
  | _ => empty_cfg
  end.

(** One of the two [if]s of lines 415-418. *)
Definition build_provider (selected : bool) (e : option Entry)
    (init : ProviderCfg -> M Provider) : M (list Provider) :=
  if selected then
    on ← lift (enabled e);
    if on : bool then p ← init (entry_cfg e); ret [p] else ret []
  else ret [].

(** Lines 414-418: the providers are constructed, in this order. *)
Definition build_providers (env : Env) (choice : ProviderChoice) (doc : ConfigDoc)
  : M (list Provider) :=
  ps1 ← build_provider (selects_google choice) (google_cse_entry doc)
          (GoogleCSEProvider_init env);
  ps2 ← build_provider (selects_duckduckgo choice) (duckduckgo_entry doc)
          (DuckDuckGoProvider_init env);
  ret (ps1 ++ ps2).

(** Lines 427-437: one log record per provider. *)
Fixpoint dry_run_report (env : Env) (providers : list Provider) : M unit :=
  match providers with
  | [] => ret tt
  | GoogleCSEProvider _ api_key cx :: rest =>
      (if negb (truthy api_key && truthy cx)
       then log_record ERROR
              "Google CSE: missing credentials (GOOGLE_API_KEY or GOOGLE_CSE_ID)"
       else log_record INFO "Google CSE: credentials present");;
      dry_run_report env rest
  | DuckDuckGoProvider _ _ _ :: rest =>
      (if negb (ddgs_available env)
       then log_record WARNING "DuckDuckGo: duckduckgo_search library not installed"
       else log_record INFO "DuckDuckGo: library available");;
      dry_run_report env rest
  end.

(** The state the two loops of lines 451-462 carry besides the
    providers: [all_domains] and [provider_usage]. *)
Record Tally : Type := {
  all_domains : gset string;
  provider_usage : gmap string UsageEntry;
}.

Definition record_usage (p : Provider) (found : Z) (u : UsageEntry) : UsageEntry :=
  {| usage_queries_made := queries_made (base_of p);
     usage_domains := usage_domains u + found |}.

(** The inner loop, over the providers, for one keyword. *)
Fixpoint query_providers (fuel : nat) (env : Env) (kw : string)
    (max_results : Z) (providers : list Provider) (t : Tally)
  : M (list Provider * Tally) :=
  match providers with
  | [] => ret ([], t)
  | prov :: rest =>
      if negb (can_continue (base_of prov)) then
        log_record INFO "quota reached; skipping";;
        '(rest', t') ← query_providers fuel env kw max_results rest t;
        ret (prov :: rest', t')
      else
        '(res, prov') ← query fuel env prov kw max_results;
        let nd := unique_sorted res in
        let t1 :=
          {| all_domains := all_domains t ∪ list_to_set nd;
             provider_usage :=
               alter (record_usage prov' (len nd)) (name (base_of prov'))
                     (provider_usage t) |} in
        '(rest', t') ← query_providers fuel env kw max_results rest t1;
        ret (prov' :: rest', t')
  end.

(** The outer loop, over the keywords. *)
Fixpoint orchestrate (fuel : nat) (env : Env) (keywords : list string)
    (max_results : Z) (providers : list Provider) (t : Tally)
  : M (list Provider * Tally) :=
  match keywords with
  | [] => ret (providers, t)
  | kw :: rest =>
      '(providers', t') ← query_providers fuel env kw max_results providers t;
      orchestrate fuel env rest max_results providers' t'
  end.

Definition NL : string := String "010" EmptyString.

(** The text written to the output file: each domain and a line feed. *)
Definition output_text (out_list : list string) : string :=
  String.concat "" ((fun d => d +:+ NL) <$> out_list).

Definition initial_tally (providers : list Provider) : Tally :=
  {| all_domains := ∅;
     provider_usage :=
       list_to_map ((fun p => (name (base_of p),
                               {| usage_queries_made := 0; usage_domains := 0 |}))
                      <$> providers) |}.

(** Lines 464-467: [mkdir], [open] and the writes, none of them
    guarded. *)
Definition write_output (env : Env) (path content : string) : M unit :=
  match mkdir_parent env path with
  | Made => if opens env path then write_file path content else raise
  | MkdirDenied | MkdirFailed => raise
  end.

(** Line 480: the [print] that ends [main]; it raises when the standard
    output does not take the line (a closed pipe, an encoding without the
    arrow of the message). *)
Definition print_summary (env : Env) : M unit :=
  if stdout_takes env then ret tt else raise.

(** [main]: the status it gives to [sys.exit], 0 at its end. *)
Definition main (fuel : nat) (env : Env) (args : Args) : M Z :=
  match load_config env (args_config args) with
  | inl _ =>
      log_record ERROR "Config load failed";;
      ret 2
  | inr (keywords, doc) =>
      providers ← build_providers env (args_provider args) doc;
      match providers with
      | [] =>
          log_record ERROR "No providers enabled/selected";;
          ret 3
      | _ :: _ =>
          if args_dry_run args then
            log_record INFO "Dry-run: validating providers...";;
            dry_run_report env providers;;
            log_record INFO "Config valid";;
            ret 0
          else
            match ensure_writable env (args_output args) with
            | Denied =>
                log_record ERROR "Output not writable";;
                ret 4
            | Broken => raise
            | Writable =>
                '(providers', t) ← orchestrate fuel env keywords
                                     (args_max_results args) providers
                                     (initial_tally providers);
                let out_list := py_sorted (all_domains t) in
                write_output env (args_output args) (output_text out_list);;
                log_record INFO "discovery summary";;
                print_summary env;;
                ret 0
            end
      end
  end.

(** The run of [main] that ends with exit status [code] in the world
    [w]: by an exception that nothing catches when [code] is 1 (the
    interpreter then exits with that status), by [sys.exit(code)] or at the
    end of [main] otherwise. *)
Definition exits (code : Z) (w : World) : Run Z :=
  if code =? 1 then Raised w else Done code w.

(** ** Vocabulary of the statements *)

(** Every character class of [r] lies within [p]. *)
Fixpoint classes_within (p : ascii -> bool) (r : Re.regex) : Prop :=
  match r with
  | Re.Void | Re.Eps => True
  | Re.Class q => forall c, q c = true -> p c = true
  | Re.Cat r1 r2 | Re.Alt r1 r2 => classes_within p r1 /\ classes_within p r2
  | Re.Star r1 => classes_within p r1
  end.

(** One to three decimal digits. *)
Definition digits13 (s : string) : Prop :=
  Str.all Chars.isdigit s = true /\ (1 <= String.length s <= 3)%nat.

(** A dotted quad: four groups of one to three digits. *)
Definition dotted_quad (s : string) : Prop :=
  exists a b c d,
    digits13 a /\ digits13 b /\ digits13 c /\ digits13 d /\
    s = a +:+ "." +:+ b +:+ "." +:+ c +:+ "." +:+ d.

(** A host that cannot be a domain name: empty, without a dot, or with a
    character outside [[a-z0-9.-]]. *)
Definition malformed (h : string) : Prop :=
  h = "" \/
  Str.any (Chars.eqc ".") h = false \/
  Str.any (fun c => negb (Chars.ishost c)) h = true.

Definition ends_with_newline (s : string) : bool :=
  match Str.unsnoc s with
  | Some (_, c) => Chars.eqc "010" c
  | None => false
  end.

(** The last step of [normalize_domain] on its own. *)
Definition strip_www (d : string) : string :=
  if Str.startswith d "www." then Str.drop 4 d else d.

(** [s.split(c, 1)[0]] for a one-character separator. *)
Fixpoint take_until (c : ascii) (s : string) : string :=
  match s with
  | EmptyString => EmptyString
  | String x r => if Ascii.eqb c x then EmptyString else String x (take_until c r)
  end.

(** Only the log, the random draws and the sleeps moved: no request of
    any kind, no file. *)
Definition offline (w w' : World) : Prop :=
  gets w' = gets w /\ robots_fetches w' = robots_fetches w /\
  searches w' = searches w /\ files w' = files w.

(** What one keyword, or [k] of them, may do to a provider. *)
Definition advanced (k : Z) (p p' : Provider) : Prop :=
  name (base_of p') = name (base_of p) /\
  daily_quota_threshold (base_of p') = daily_quota_threshold (base_of p) /\
  queries_made (base_of p) <= queries_made (base_of p') /\
  queries_made (base_of p') <= queries_made (base_of p) + k /\
  queries_made (base_of p') <=
    Z.max (queries_made (base_of p)) (daily_quota_threshold (base_of p)).

(** The failures the retry loops are meant for: HTTP 429 and 503, a
    timeout, a connection error. *)
Definition retryable (o : HttpOutcome) : bool :=
  match o with
  | Response code _ => (code =? 429) || (code =? 503)
  | Timeout | ConnectionError => true
  | OtherError => false
  end.

(** The provider after [queries_made += 1]. *)
Definition counted (p : Provider) : Provider :=
  match p with
  | GoogleCSEProvider b k c => GoogleCSEProvider (count_query b) k c
  | DuckDuckGoProvider b a d => DuckDuckGoProvider (count_query b) a d
  end.

(** [m] leaves the component [f] of the world as it was, whether it
    returns, runs out of fuel or raises. *)
Definition keeps {A B} (f : World -> B) (m : M A) : Prop :=
  forall w, match m w with
            | Done _ w' => f w' = f w
            | Stopped _ w' => f w' = f w
            end.

(** Every domain collected so far is valid. *)
Definition tally_valid (t : Tally) : Prop :=
  forall d, d ∈ all_domains t -> is_valid_domain d = true.

(** The provider with its [ddg_allowed] field set. *)
Definition with_allowed (a : bool) (p : Provider) : Provider :=
  match p with
  | DuckDuckGoProvider b _ d => DuckDuckGoProvider b a d
  | GoogleCSEProvider _ _ _ => p
  end.

Definition run_map {A B} (f : A -> B) (r : Run A) : Run B :=
  match r with
  | Done a w => Done (f a) w
  | Stopped why w => Stopped why w
  end.

Definition credentials_present (api_key cx : string) : bool :=
  truthy api_key && truthy cx.

(** What lines 415-418 do about a provider: leave it out, construct it,
    or raise (an entry without [get], a value the constructor
    rejects). *)
Inductive Plan : Type := LeftOut | Constructed | Raises.

Definition plan (selected : bool) (e : option Entry)
    (converts : ProviderCfg -> bool) : Plan :=
  if selected then
    match enabled e with
    | None => Raises
    | Some false => LeftOut
    | Some true => if converts (entry_cfg e) then Constructed else Raises
    end
  else LeftOut.

Definition is_some {A} (o : option A) : bool :=
  match o with Some _ => true | None => false end.

(** The values the constructors convert are all accepted. *)
Definition google_converts (cfg : ProviderCfg) : bool :=
  is_some (BaseProvider_init "google_cse" cfg)
  && is_some (setting "GOOGLE_API_KEY" (cfg_api_key_env cfg))
  && is_some (setting "GOOGLE_CSE_ID" (cfg_cx_env cfg)).

Definition duckduckgo_converts (cfg : ProviderCfg) : bool :=
  is_some (BaseProvider_init "duckduckgo" cfg).

Definition google_plan (choice : ProviderChoice) (doc : ConfigDoc) : Plan :=
  plan (selects_google choice) (google_cse_entry doc) google_converts.

Definition duckduckgo_plan (choice : ProviderChoice) (doc : ConfigDoc) : Plan :=
  plan (selects_duckduckgo choice) (duckduckgo_entry doc) duckduckgo_converts.

(** The key and the engine id the Google constructor finds in the
    environment. *)
Definition google_credentials (env : Env) (cfg : ProviderCfg) : string * string :=
  (default "" (setting "GOOGLE_API_KEY" (cfg_api_key_env cfg) ≫= getenv env),
   default "" (setting "GOOGLE_CSE_ID" (cfg_cx_env cfg) ≫= getenv env)).

(** The exit status of a dry run, read off [main]: 2 when the
    configuration does not load, 1 when the construction of a provider
    raises, 3 when no provider is left, else 0. *)
Definition dry_run_status (env : Env) (args : Args) : Z :=
  match load_config env (args_config args) with
  | inl _ => 2
  | inr (_, doc) =>
      match google_plan (args_provider args) doc,
            duckduckgo_plan (args_provider args) doc with
      | Raises, _ | _, Raises => 1
      | LeftOut, LeftOut => 3
      | _, _ => 0
      end
  end.

(** The robots.txt requests of a dry run: the one of the DuckDuckGo
    constructor, when that provider is built. *)
Definition dry_run_fetches (env : Env) (args : Args) : list string :=
  match load_config env (args_config args) with
  | inl _ => []
  | inr (_, doc) =>
      match google_plan (args_provider args) doc,
            duckduckgo_plan (args_provider args) doc with
      | Raises, _ => []
      | _, Constructed => ["https://duckduckgo.com/robots.txt"]
      | _, _ => []
      end
  end.

(** The warning of the Google constructor, when it is built without its
    credentials. *)
Definition construction_log (env : Env) (choice : ProviderChoice) (doc : ConfigDoc)
  : list LogRecord :=
  match google_plan choice doc with
  | Constructed =>
      let '(api_key, cx) := google_credentials env (entry_cfg (google_cse_entry doc)) in
      if credentials_present api_key cx then []
      else [ {| level := WARNING; message := missing_credentials_warning |} ]
  | _ => []
  end.

(** The report of the dry-run branch, newest record first: one record per
    provider built, on its credentials or its library. *)
Definition presence_report (env : Env) (choice : ProviderChoice) (doc : ConfigDoc)
  : list LogRecord :=
  match duckduckgo_plan choice doc with
  | Constructed =>
      [ if ddgs_available env
        then {| level := INFO; message := "DuckDuckGo: library available" |}
        else {| level := WARNING;
                message := "DuckDuckGo: duckduckgo_search library not installed" |} ]
  | _ => []
  end
  ++
  match google_plan choice doc with
  | Constructed =>
      let '(api_key, cx) := google_credentials env (entry_cfg (google_cse_entry doc)) in
      [ if credentials_present api_key cx
        then {| level := INFO; message := "Google CSE: credentials present" |}
        else {| level := ERROR;
                message :=
                  "Google CSE: missing credentials (GOOGLE_API_KEY or GOOGLE_CSE_ID)" |} ]
  | _ => []
  end.

(** The log records of a dry run, newest first. *)
Definition dry_run_log (env : Env) (args : Args) : list LogRecord :=
  match load_config env (args_config args) with
  | inl _ => [ {| level := ERROR; message := "Config load failed" |} ]
  | inr (_, doc) =>
      let choice := args_provider args in
      match google_plan choice doc, duckduckgo_plan choice doc with
      | Raises, _ => []
      | _, Raises => construction_log env choice doc
      | LeftOut, LeftOut =>
          [ {| level := ERROR; message := "No providers enabled/selected" |} ]
      | _, _ =>
          {| level := INFO; message := "Config valid" |}
          :: presence_report env choice doc
          ++ {| level := INFO; message := "Dry-run: validating providers..." |}
          :: construction_log env choice doc
      end
  end.

(** ** Sample environments *)

(** An environment without credentials, search library or network: every
    request fails to connect. *)
Definition bare_env (cfgs : string -> ConfigFile) : Env :=
  {| getenv := fun _ => None;
     ddgs_available := false;
     google_get := fun _ _ => ConnectionError;
     robots_get := fun _ _ => RobotsError;
     ddgs_text := fun _ _ _ => {| rows := []; raised := true |};
     random_random := fun _ => 0.5%float;
     crawl_delay_value := fun _ => None;
     config_file := cfgs;
     mkdir_parent := fun _ => Made;
     touch_unlink := fun _ => true;
     opens := fun _ => true;
     stdout_takes := true;
     too_long := fun _ => false |}.

Definition one_keyword_doc : ConfigDoc :=
  {| doc_keywords := KwList ["plumber austin"];
     doc_providers := Providers NoEntry NoEntry |}.

(** A document whose [google_cse] entry is null. *)
Definition null_entry_doc : ConfigDoc :=
  {| doc_keywords := KwList ["plumber austin"];
     doc_providers := Providers NotAMapping NoEntry |}.

(** A document whose [duckduckgo] mapping gives [retry_attempts] a value
    that [int] rejects. *)
Definition bad_value_doc : ConfigDoc :=
  {| doc_keywords := KwList ["plumber austin"];
     doc_providers :=
       Providers NoEntry
         (Mapping {| cfg_enabled := None; cfg_daily_quota_threshold := Unset;
                     cfg_rate_limit_rps := Unset; cfg_jitter_percent := Unset;
                     cfg_retry_attempts := Rejected;
                     cfg_backoff_base_seconds := Unset;
                     cfg_backoff_max_seconds := Unset; cfg_api_key_env := Unset;
                     cfg_cx_env := Unset |}) |}.

(** The provider [BaseProvider.__init__] makes of an empty mapping. *)
Definition default_provider (nm : string) : BaseProvider :=
  {| name := nm;
     queries_made := 0;
     daily_quota_threshold := 10 ^ 9;
     rate_limit_rps := 0.5%float;
     jitter_percent := 20%float;
     retry_attempts := 3;
     backoff_base_seconds := 0.5%float;
     backoff_max_seconds := 8%float |}.

(** The mapping that sets [daily_quota_threshold] and nothing else. *)
Definition quota_cfg (quota : Z) : ProviderCfg :=
  {| cfg_enabled := None; cfg_daily_quota_threshold := Given quota;
     cfg_rate_limit_rps := Unset; cfg_jitter_percent := Unset;
     cfg_retry_attempts := Unset; cfg_backoff_base_seconds := Unset;
     cfg_backoff_max_seconds := Unset; cfg_api_key_env := Unset;
     cfg_cx_env := Unset |}.

(** The provider [BaseProvider.__init__] makes of [quota_cfg quota]. *)
Definition quota_provider (nm : string) (quota : Z) : BaseProvider :=
  {| name := nm;
     queries_made := 0;
     daily_quota_threshold := quota;
     rate_limit_rps := 0.5%float;
     jitter_percent := 20%float;
     retry_attempts := 3;
     backoff_base_seconds := 0.5%float;
     backoff_max_seconds := 8%float |}.

(** Credentials present; the search API answers 429 to every request. *)
Definition throttled_env : Env :=
  {| getenv := fun _ => Some "secret";
     ddgs_available := true;
     google_get := fun _ _ => Response 429 None;
     robots_get := fun _ _ => RobotsError;
     ddgs_text := fun _ _ _ => {| rows := []; raised := true |};
     random_random := fun _ => 0.5%float;
     crawl_delay_value := fun _ => None;
     config_file := fun _ => Document one_keyword_doc;
     mkdir_parent := fun _ => Made;
     touch_unlink := fun _ => true;
     opens := fun _ => true;
     stdout_takes := true;
     too_long := fun _ => false |}.

Definition row (u : string) : DdgRow :=
  {| row_href := u; row_link := ""; row_url := "" |}.

(** The search library answers three rows, one of them [localhost]. *)
Definition stub_env : Env :=
  {| getenv := fun _ => None;
     ddgs_available := true;
     google_get := fun _ _ => ConnectionError;
     robots_get := fun _ _ => RobotsError;
     ddgs_text := fun _ _ _ =>
       {| rows := [row "https://www.zeta-plumbing.com/contact";
                   row "http://localhost:8080/admin";
                   row "http://austin-pipes.org"];
          raised := false |};
     random_random := fun _ => 0.5%float;
     crawl_delay_value := fun _ => None;
     config_file := fun _ => Document one_keyword_doc;
     mkdir_parent := fun _ => Made;
     touch_unlink := fun _ => true;
     opens := fun _ => true;
     stdout_takes := true;
     too_long := fun _ => false |}.

Definition sample_args (choice : ProviderChoice) (dry : bool) : Args :=
  {| args_config := "config.yaml"; args_output := "out/domains.txt";
     args_provider := choice; args_max_results := 100;
     args_dry_run := dry; args_verbose := false |}.

(** The provider [BaseProvider.__init__] makes of a mapping that sets
    [backoff_base_seconds] to -1. *)
Definition negative_backoff_provider (nm : string) : BaseProvider :=
  {| name := nm;
     queries_made := 0;
     daily_quota_threshold := 10 ^ 9;
     rate_limit_rps := 0.5%float;
     jitter_percent := 20%float;
     retry_attempts := 3;
     backoff_base_seconds := (-1)%float;
     backoff_max_seconds := 8%float |}.

(** Credentials present; every request of the search API times out. *)
Definition timeout_env : Env :=
  {| getenv := fun _ => Some "secret";
     ddgs_available := true;
     google_get := fun _ _ => Timeout;
     robots_get := fun _ _ => RobotsError;
     ddgs_text := fun _ _ _ => {| rows := []; raised := true |};
     random_random := fun _ => 0.5%float;
     crawl_delay_value := fun _ => None;
     config_file := fun _ => Document one_keyword_doc;
     mkdir_parent := fun _ => Made;
     touch_unlink := fun _ => true;
     opens := fun _ => true;
     stdout_takes := true;
     too_long := fun _ => false |}.

(** A provider whose configuration allows one query only. *)
Definition one_query_ddg : Provider :=
  DuckDuckGoProvider (quota_provider "duckduckgo" 1) true None.

(** ** Vocabulary of the further properties *)

(** The set behind [unique_sorted]: the valid normal forms of a list of
    URLs. *)
Definition valid_forms (urls : list string) : gset string :=
  filter (fun d => is_valid_domain d = true)
    (list_to_set (normalize_domain <$>
                    filter (fun d => normalize_domain d <> "") urls) : gset string).

(** [all_domains] after the results [rs] of the queries of a run have
    been merged into it, one [update] per query. *)
Definition merge_results (rs : list (list string)) : gset string :=
  foldl (fun s r => s ∪ list_to_set (unique_sorted r)) ∅ rs.

(** What every request of a Google query looks like: the credentials,
    the keyword, safe search, between 1 and 10 results asked for, from an
    offset among 1, 11, ..., 91. *)
Definition google_request_ok (api_key cx kw : string) (p : Params) : Prop :=
  param_key p = api_key /\ param_cx p = cx /\ param_q p = kw /\
  param_safe p = "active" /\
  1 <= param_num p <= 10 /\
  1 <= param_start p <= 91 /\ param_start p mod 10 = 1.

(** [m] only adds requests that satisfy [P] to the search API requests of
    the world, whether it returns, runs out of fuel or raises. *)
Definition issues {A} (P : Params -> Prop) (m : M A) : Prop :=
  forall w, match m w with
            | Done _ w' | Stopped _ w' =>
                exists new, gets w' = new ++ gets w /\ Forall P new
            end.

(** A reply that ends the retry loop of a page without a new link: a
    status that is neither 200 nor retryable, an unreadable body, a page
    without a usable item, or an exception that is not a network one. *)
Definition adds_nothing (o : HttpOutcome) : bool :=
  match o with
  | Response code body =>
      if code =? 200 then
        match body with
        | Some items => bool_decide (page_links items = [])
        | None => true
        end
      else negb ((code =? 429) || (code =? 503))
  | Timeout | ConnectionError => false
  | OtherError => true
  end.

(** The page offsets of a full pagination, newest first. *)
Definition all_page_starts : list Z := [91; 81; 71; 61; 51; 41; 31; 21; 11; 1].

(** Credentials present; the search API answers 403 to every request. *)
Definition forbidden_env : Env :=
  {| getenv := fun _ => Some "secret";
     ddgs_available := true;
     google_get := fun _ _ => Response 403 None;
     robots_get := fun _ _ => RobotsError;
     ddgs_text := fun _ _ _ => {| rows := []; raised := true |};
     random_random := fun _ => 0.5%float;
     crawl_delay_value := fun _ => None;
     config_file := fun _ => Document one_keyword_doc;
     mkdir_parent := fun _ => Made;
     touch_unlink := fun _ => true;
     opens := fun _ => true;
     stdout_takes := true;
     too_long := fun _ => false |}.

(** Three result items: the first has only a [formattedUrl], the second
    a [link], the third both. *)
Definition sample_items : list SearchItem :=
  [ {| link := ""; formattedUrl := "https://first.example.com/" |};
    {| link := "https://second.example.org/page"; formattedUrl := "" |};
    {| link := "https://third.example.net/"; formattedUrl := "third.example.net" |} ].

(** Credentials present; every page of the search API answers 200 with
    [sample_items]. *)
Definition page_env : Env :=
  {| getenv := fun _ => Some "secret";
     ddgs_available := true;
     google_get := fun _ _ => Response 200 (Some sample_items);
     robots_get := fun _ _ => RobotsError;
     ddgs_text := fun _ _ _ => {| rows := []; raised := true |};
     random_random := fun _ => 0.5%float;
     crawl_delay_value := fun _ => None;
     config_file := fun _ => Document one_keyword_doc;
     mkdir_parent := fun _ => Made;
     touch_unlink := fun _ => true;
     opens := fun _ => true;
     stdout_takes := true;
     too_long := fun _ => false |}.

(** What [k] keywords do to a provider: its counter grows by [k] or by
    the quota it had left, whichever is smaller. *)
Definition consumed (k : Z) (p p' : Provider) : Prop :=
  name (base_of p') = name (base_of p) /\
  daily_quota_threshold (base_of p') = daily_quota_threshold (base_of p) /\
  queries_made (base_of p')
  = queries_made (base_of p)
    + Z.min k (Z.max 0 (daily_quota_threshold (base_of p) - queries_made (base_of p))).

(** The exit status the setup of a run decides, read off the branches of
    [main]: 2 when the configuration does not load, 1 when the
    construction of a provider raises, 3 when no provider is left; then,
    dry runs apart, 4 when [ensure_writable] raises [PermissionError] and 1
    when it raises another exception; else 0. *)
Definition main_status (env : Env) (args : Args) : Z :=
  match load_config env (args_config args) with
  | inl _ => 2
  | inr (_, doc) =>
      match google_plan (args_provider args) doc,
            duckduckgo_plan (args_provider args) doc with
      | Raises, _ | _, Raises => 1
      | LeftOut, LeftOut => 3
      | _, _ =>
          if args_dry_run args then 0
          else match ensure_writable env (args_output args) with
               | Writable => 0
               | Denied => 4
               | Broken => 1
               end
      end
  end.

(** The search library answers two hits on one host, the second with a
    line feed before its path. *)
Definition newline_env : Env :=
  {| getenv := fun _ => None;
     ddgs_available := true;
     google_get := fun _ _ => ConnectionError;
     robots_get := fun _ _ => RobotsError;
     ddgs_text := fun _ _ _ =>
       {| rows := [row "http://example.com/";
                   row ("http://example.com" +:+ NL +:+ "/x")];
          raised := false |};
     random_random := fun _ => 0.5%float;
     crawl_delay_value := fun _ => None;
     config_file := fun _ => Document one_keyword_doc;
     mkdir_parent := fun _ => Made;
     touch_unlink := fun _ => true;
     opens := fun _ => true;
     stdout_takes := true;
     too_long := fun _ => false |}.

(** An environment whose output file cannot be opened (a directory stands
    at its path), though its directory takes the probe. *)
Definition closed_env : Env :=
  {| getenv := fun _ => None;
     ddgs_available := true;
     google_get := fun _ _ => ConnectionError;
     robots_get := fun _ _ => RobotsError;
     ddgs_text := fun _ _ _ => {| rows := [row "http://example.com/"]; raised := false |};
     random_random := fun _ => 0.5%float;
     crawl_delay_value := fun _ => None;
     config_file := fun _ => Document one_keyword_doc;
     mkdir_parent := fun _ => Made;
     touch_unlink := fun _ => true;
     opens := fun _ => false;
     stdout_takes := true;
     too_long := fun _ => false |}.

(** An environment whose standard output does not take the last line of
    [main]. *)
Definition mute_env : Env :=
  {| getenv := fun _ => None;
     ddgs_available := true;
     google_get := fun _ _ => ConnectionError;
     robots_get := fun _ _ => RobotsError;
     ddgs_text := fun _ _ _ => {| rows := [row "http://example.com/"]; raised := false |};
     random_random := fun _ => 0.5%float;
     crawl_delay_value := fun _ => None;
     config_file := fun _ => Document one_keyword_doc;
     mkdir_parent := fun _ => Made;
     touch_unlink := fun _ => true;
     opens := fun _ => true;
     stdout_takes := false;
     too_long := fun _ => false |}.

(** An environment in which the parent of the output path is a regular
    file: [mkdir] raises [FileExistsError]. *)
Definition broken_env : Env :=
  {| getenv := fun _ => None;
     ddgs_available := true;
     google_get := fun _ _ => ConnectionError;
     robots_get := fun _ _ => RobotsError;
     ddgs_text := fun _ _ _ => {| rows := [row "http://example.com/"]; raised := false |};
     random_random := fun _ => 0.5%float;
     crawl_delay_value := fun _ => None;
     config_file := fun _ => Document one_keyword_doc;
     mkdir_parent := fun _ => MkdirFailed;
     touch_unlink := fun _ => true;
     opens := fun _ => true;
     stdout_takes := true;
     too_long := fun _ => false |}.

(** An environment whose output directory is not writable. *)
Definition read_only_env : Env :=
  {| getenv := fun _ => Some "secret";
     ddgs_available := true;
     google_get := fun _ _ => Response 200 (Some sample_items);
     robots_get := fun _ _ => RobotsError;
     ddgs_text := fun _ _ _ => {| rows := []; raised := false |};
     random_random := fun _ => 0.5%float;
     crawl_delay_value := fun _ => None;
     config_file := fun _ => Document one_keyword_doc;
     mkdir_parent := fun _ => Made;
     touch_unlink := fun _ => false;
     opens := fun _ => true;
     stdout_takes := true;
     too_long := fun _ => false |}.

(** A line that starts with a crawl-delay directive: optional blanks, the
    word crawl, an optional hyphen, the word delay (both in any case),
    a colon between optional blanks, then at least one digit or dot. *)
Definition crawl_delay_directive (line : string) : Prop :=
  exists ws1 w1 hy w2 ws2 ws3 v rest,
    line = ws1 +:+ w1 +:+ hy +:+ w2 +:+ ws2 +:+ ":" +:+ ws3 +:+ v +:+ rest /\
    Str.all Chars.isspace ws1 = true /\ Str.lower w1 = "crawl" /\
    (hy = "" \/ hy = "-") /\ Str.lower w2 = "delay" /\
    Str.all Chars.isspace ws2 = true /\ Str.all Chars.isspace ws3 = true /\
    v <> "" /\ Str.all (fun c => Chars.isdigit c || Chars.eqc "." c) v = true.

(** The names under which the providers are tallied. *)
Definition provider_names (ps : list Provider) : list string :=
  (fun p => name (base_of p)) <$> ps.



(** The sum of the [domains] counters of the usage table. *)
Definition total_found (t : Tally) : Z :=
  map_fold (fun (_ : string) u acc => usage_domains u + acc) 0 (provider_usage t).

(** The usage table has an entry for [p] and its [queries_made] is the
    counter of [p]. *)
Definition usage_in_step (t : Tally) (p : Provider) : Prop :=
  exists u, provider_usage t !! name (base_of p) = Some u /\
            usage_queries_made u = queries_made (base_of p).

(** A search library whose first call raises after two rows and whose
    later calls answer three rows. *)
Definition flaky_env : Env :=
  {| getenv := fun _ => None;
     ddgs_available := true;
     google_get := fun _ _ => ConnectionError;
     robots_get := fun _ _ => RobotsError;
     ddgs_text := fun n _ _ =>
       match n with
       | O => {| rows := [row "https://alpha-roofing.com/"; row "https://beta-roofing.com/"];
                 raised := true |}
       | S _ => {| rows := [row "https://alpha-roofing.com/"; row "https://beta-roofing.com/";
                            row "https://gamma-roofing.com/"];
                   raised := false |}
       end;
     random_random := fun _ => 0.5%float;
     crawl_delay_value := fun _ => None;
     config_file := fun _ => Document one_keyword_doc;
     mkdir_parent := fun _ => Made;
     touch_unlink := fun _ => true;
     opens := fun _ => true;
     stdout_takes := true;
     too_long := fun _ => false |}.

(** ** Error sanitising (discover.py, lines 67-77) *)

(** [\w] on code points below 256: letters, digits (with the superscripts
    and fractions of Latin-1, which are numeric) and the underscore. *)
Definition isword (c : ascii) : bool :=
  Chars.isdigit c || Chars.between 65 90 c || Chars.eqc "_" c ||
  Chars.between 97 122 c ||
  (Chars.code c =? 170)%N || Chars.between 178 179 c || (Chars.code c =? 181)%N ||
  Chars.between 185 186 c || Chars.between 188 190 c ||
  Chars.between 192 214 c || Chars.between 216 246 c || Chars.between 248 255 c.

(** [[=:]] and [[\w-]] *)
Definition is_sep (c : ascii) : bool := Chars.eqc "=" c || Chars.eqc ":" c.
Definition is_secret_char (c : ascii) : bool := isword c || Chars.eqc "-" c.

(** The length of the longest prefix of [s] that is a word of [r]. The
    patterns of [sanitize_error] leave the backtracking matcher no choice
    (every repeated class is disjoint from what may follow it), so that
    its greedy match is this one. *)
Fixpoint longest_match (r : Re.regex) (s : string) : option nat :=
  match s with
  | EmptyString => if Re.nullable r then Some O else None
  | String c s' =>
      match longest_match (Re.deriv c r) s' with
      | Some n => Some (S n)
      | None => if Re.nullable r then Some O else None
      end
  end.

(** [re.sub(r, repl, s)] for a pattern without empty match and a
    replacement without group reference: the text is scanned from the
    left; where a match starts it is replaced and the scan resumes behind
    it ([skip] characters further). *)
Fixpoint sub_go (r : Re.regex) (repl : string) (skip : nat) (s : string) : string :=
  match s with
  | EmptyString => EmptyString
  | String c s' =>
      match skip with
      | S k => sub_go r repl k s'
      | O =>
          match longest_match r s with
          | Some (S n) => repl +:+ sub_go r repl n s'
          | _ => String c (sub_go r repl O s')
          end
      end
  end.

Definition re_sub (r : Re.regex) (repl : string) (s : string) : string :=
  sub_go r repl O s.

(** [[=:]\s*[\w-]+] *)
Definition secret_re : Re.regex :=
  Re.Cat (Re.Class is_sep)
    (Re.Cat (Re.Star (Re.Class Chars.isspace)) (Re.Plus (Re.Class is_secret_char))).

(** The four patterns, all with [re.I]. *)
Definition key_re : Re.regex := Re.Cat (WordI "key") secret_re.
Definition token_re : Re.regex := Re.Cat (WordI "token") secret_re.
Definition cx_re : Re.regex := Re.Cat (WordI "cx") secret_re.
Definition api_key_re : Re.regex :=
  Re.Cat (WordI "api")
    (Re.Cat (Re.Opt (Re.Class (fun c => Chars.eqc "_" c || Chars.eqc "-" c)))
       (Re.Cat (WordI "key") secret_re)).

(** [sanitize_error]: the four substitutions, in the order of the list. *)
Definition sanitize_error (msg : string) : string :=
  let msg := re_sub key_re "key=***" msg in
  let msg := re_sub token_re "token=***" msg in
  let msg := re_sub cx_re "cx=***" msg in
  re_sub api_key_re "api_key=***" msg.

(** No [=] or [:] of [s] is followed by a blank or by a character of a
    secret: nothing in [s] looks like a labelled value. *)
Fixpoint guarded (s : string) : bool :=
  match s with
  | EmptyString => true
  | String c s' =>
      (if is_sep c
       then match s' with
            | EmptyString => true
            | String d _ => negb (Chars.isspace d || is_secret_char d)
            end
       else true) && guarded s'
  end.

(** [s] does not start with a character of a secret. *)
Definition clear_head (s : string) : bool :=
  match s with
  | EmptyString => true
  | String d _ => negb (is_secret_char d)
  end.

(** The words of the patterns of [sanitize_error] all show a separator
    followed by a blank or a character of a secret. *)
Definition exposed (x : string) : Prop :=
  exists L c d t,
    x = L +:+ String c (String d t) /\ is_sep c = true /\
    Chars.isspace d || is_secret_char d = true.

(** ** Preflight (phase1_preflight.py) *)

Module Preflight.

(** The messages of the version checks, as the data they are formatted
    from. *)
Inductive Issue : Type :=
| PythonBelow (current : Z * Z * Z) (min_version : string)
| NotInstalled (package_name : string)
| DepBelow (package_name installed_version version_str : string).

(** One entry of [matrix["deps"]]. *)
Record Constraints : Type := {
  critical : option string;
  optional : option string;
}.

(** A version matrix of the documented shape: [python.min] (after
    [str]) and the entries of [deps] in their order. *)
Record Matrix : Type := {
  python_min : option string;
  deps : list (string * Constraints);
}.

(** A directory below the working directory, by its components. *)
Definition Path : Type := list string.

Record PreflightResult : Type := {
  passed : bool;
  errors : list string;
  missing_env : list string;
  version_issues : list Issue;
  created_dirs : list Path;
}.

(** What the checks read: the matrix file ([None]: [RuntimeError]),
    [sys.version_info[:3]], [int] ([None]: [ValueError]),
    [importlib.metadata.version] ([None]: [PackageNotFoundError]), whether
    [packaging] imports, [Version(a) < Version(b)] ([None]:
    [InvalidVersion]), [os.getenv], and whether [mkdir] succeeds. *)
Record Env : Type := {
  load_matrix : option Matrix;
  version_info : Z * Z * Z;
  py_int : string -> option Z;
  metadata_version : string -> option string;
  packaging_present : bool;
  version_lt : string -> string -> option bool;
  getenv : string -> option string;
  mkdir_ok : Path -> bool;
}.

(** The detail text of a log line. *)
Inductive Detail : Type :=
| NoIssues
| IssuesJoined (issues : list Issue)
| AllPresent
| MissingJoined (keys : list string)
| DirsJoined (ds : list Path)
| AlreadyExists.

Inductive Line : Type :=
| Setup (action status : string) (detail : Detail)
| Status (status : string)
| Standby.

(** The directories that exist below the working directory and the lines
    printed, newest first. *)
Record Site : Type := {
  dirs : gset Path;
  printed : list Line;
}.

(** A call returns or raises; what it did before stays done. *)
Inductive Outcome (A : Type) : Type :=
| Returned (a : A) (s : Site)
| Raised (s : Site).
Arguments Returned {A} a s.
Arguments Raised {A} s.

Definition PM (A : Type) : Type := Site -> Outcome A.

#[export] Instance PM_ret : MRet PM := fun A a s => Returned a s.
#[export] Instance PM_bind : MBind PM := fun A B f m s =>
  match m s with
  | Returned a s' => f a s'
  | Raised s' => Raised s'
  end.

(** A pure step that may raise. *)
Definition lift {A} (o : option A) : PM A :=
  fun s => match o with Some a => Returned a s | None => Raised s end.

Definition print (l : Line) : PM unit :=
  fun s => Returned tt {| dirs := dirs s; printed := l :: printed s |}.

(** [s.split(".")] *)
Fixpoint split_dot_go (cur : string) (s : string) : list string :=
  match s with
  | EmptyString => [String.rev cur]
  | String c r =>
      if Chars.eqc "." c then String.rev cur :: split_dot_go EmptyString r
      else split_dot_go (String c cur) r
  end.

Definition split_dot (s : string) : list string := split_dot_go EmptyString s.

(** [sys.version_info < parts]: the first three components are numbers;
    with these equal, a fourth part meets the release level, a string,
    and the comparison raises. *)
Definition version_info_lt (current : Z * Z * Z) (parts : list Z) : option bool :=
  let '(major, minor, micro) := current in
  match parts with
  | [] => Some false
  | p0 :: r0 =>
      if major <? p0 then Some true else if p0 <? major then Some false else
      match r0 with
      | [] => Some false
      | p1 :: r1 =>
          if minor <? p1 then Some true else if p1 <? minor then Some false else
          match r1 with
          | [] => Some false
          | p2 :: r2 =>
              if micro <? p2 then Some true else if p2 <? micro then Some false else
              match r2 with
              | [] => Some false
              | _ :: _ => None
              end
          end
      end
  end.

(** [not issues] *)
Definition no_issue {A} (l : list A) : bool :=
  match l with [] => true | _ :: _ => false end.

Definition _check_python_version (env : Env) (matrix : Matrix)
  : option (bool * list Issue) :=
  match python_min matrix with
  | None => Some (true, [])
  | Some min_version =>
      parts ← mapM (py_int env) (split_dot min_version);
      match version_info_lt (version_info env) parts with
      | Some below =>
          let issues :=
            if below then [PythonBelow (version_info env) min_version] else [] in
          Some (no_issue issues, issues)
      | None => None
      end
  end.

(** [a or b] on values that are strings or [None]. *)
Definition py_or (a b : option string) : option string :=
  match a with
  | Some s => if truthy s then a else b
  | None => b
  end.

(** [s.lstrip("<>=!")] *)
Fixpoint lstrip_operators (s : string) : string :=
  match s with
  | String c r =>
      if Chars.eqc "<" c || Chars.eqc ">" c || Chars.eqc "=" c || Chars.eqc "!" c
      then lstrip_operators r else s
  | EmptyString => EmptyString
  end.

(** The loop of [_check_dependencies] over [deps.items()]. *)
Fixpoint check_deps (env : Env) (ds : list (string * Constraints))
    (issues : list Issue) : option (list Issue) :=
  match ds with
  | [] => Some issues
  | (package_name, constraints) :: rest =>
      match py_or (critical constraints) (optional constraints) with
      | None => check_deps env rest issues
      | Some min_req =>
          let version_str := lstrip_operators min_req in
          match metadata_version env package_name with
          | None => check_deps env rest (issues ++ [NotInstalled package_name])
          | Some installed =>
              if negb (packaging_present env) then None
              else
                match version_lt env installed version_str with
                | Some below =>
                    check_deps env rest
                      (if below
                       then issues ++ [DepBelow package_name installed version_str]
                       else issues)
                | None => None
                end
          end
      end
  end.

Definition _check_dependencies (env : Env) (matrix : Matrix)
  : option (bool * list Issue) :=
  issues ← check_deps env (deps matrix) [];
  Some (no_issue issues, issues).

(** [not os.getenv(key)] *)
Definition unset (env : Env) (key : string) : bool :=
  match getenv env key with
  | Some v => negb (truthy v)
  | None => true
  end.

Definition _check_environment_vars (env : Env) (required_keys : list string)
  : bool * list string :=
  let missing := List.filter (unset env) required_keys in
  (no_issue missing, missing).

(** [d.exists()]; the working directory itself exists. *)
Definition path_exists (s : Site) (d : Path) : bool :=
  no_issue d || bool_decide (d ∈ dirs s).

(** The path and its ancestors below the working directory. *)
Definition with_parents (d : Path) : list Path :=
  (fun n => take (S n) d) <$> seq 0 (length d).

(** [d.mkdir(parents=True, exist_ok=True)] *)
Definition mkdir (env : Env) (d : Path) : PM unit :=
  fun s =>
    if mkdir_ok env d
    then Returned tt {| dirs := dirs s ∪ list_to_set (with_parents d);
                        printed := printed s |}
    else Raised s.

Fixpoint ensure_loop (env : Env) (directories : list Path) (created : list Path)
  : PM (list Path) :=
  match directories with
  | [] => mret created
  | d :: rest =>
      s ← (fun s => Returned s s);
      if negb (path_exists s d) then
        mkdir env d;;
        ensure_loop env rest (created ++ [d])
      else ensure_loop env rest created
  end.

Definition _ensure_directories (env : Env) (directories : list Path)
  : PM (list Path) :=
  ensure_loop env directories [].

Definition required_env : list string := ["GOOGLE_API_KEY"; "GOOGLE_CSE_ID"].

Definition dirs_to_create : list Path :=
  [["outputs"; "csv"]; ["outputs"; "sqlite"]; ["configs"]].

Definition emit (ok_py ok_deps ok_env passed : bool)
    (py_issues deps_issues : list Issue) (missing_env : list string)
    (created_dirs : list Path) : PM unit :=
  print (Setup "version_check" (if ok_py then "pass" else "fail")
           (if ok_py then NoIssues else IssuesJoined py_issues));;
  print (Setup "dependency_check" (if ok_deps then "pass" else "fail")
           (if ok_deps then NoIssues else IssuesJoined deps_issues));;
  print (Setup "env_check" (if ok_env then "pass" else "fail")
           (if ok_env then AllPresent else MissingJoined missing_env));;
  (if negb (no_issue created_dirs)
   then print (Setup "directory_setup" "created" (DirsJoined created_dirs))
   else print (Setup "directory_setup" "skip" AlreadyExists));;
  print (Status (if passed then "passed" else "failed"));;
  print Standby.

Definition run_preflight (env : Env) (emit_logs : bool) : PM PreflightResult :=
  matrix ← lift (load_matrix env);
  '(ok_py, py_issues) ← lift (_check_python_version env matrix);
  '(ok_deps, deps_issues) ← lift (_check_dependencies env matrix);
  let '(ok_env, missing) := _check_environment_vars env required_env in
  created ← _ensure_directories env dirs_to_create;
  let ok := ok_py && ok_deps && ok_env in
  let result :=
    {| passed := ok; errors := []; missing_env := missing;
       version_issues := py_issues ++ deps_issues; created_dirs := created |} in
  (if emit_logs
   then emit ok_py ok_deps ok_env ok py_issues deps_issues missing created
   else mret tt);;
  mret result.

(** The script: exit status 1 when the checks fail. *)
Definition main (env : Env) : PM Z :=
  res ← run_preflight env true;
  mret (if negb (passed res) then 1 else 0).

End Preflight.

(** ** The state machine (state_machine.py) *)

Module StateMachine.
Import Preflight.

(** The values of a state: JSON scalars, other JSON values by their
    text, and the dictionary of a preflight result. *)
Inductive Value : Type :=
| VNull
| VBool (b : bool)
| VInt (z : Z)
| VFloat (f : float)
| VStr (s : string)
| VOther (text : string)
| VResult (r : PreflightResult).

Abbreviation State := (gmap string Value).

(** What [json.load] finds in the state file. *)
Inductive StateFile : Type :=
| NoFile
| Corrupt
| Stored (state : State)
| StoredOther (v : Value).

(** The preflight environment, the state file as it is found, and
    whether it can be written. *)
Record Env : Type := {
  preflight : Preflight.Env;
  state_file : StateFile;
  state_writable : bool;
}.

(** The site of the preflight and the states written, newest first. *)
Record World : Type := {
  site : Site;
  saved : list State;
}.

Inductive Outcome (A : Type) : Type :=
| Returned (a : A) (w : World)
| Raised (w : World).
Arguments Returned {A} a w.
Arguments Raised {A} w.

Definition SM (A : Type) : Type := World -> Outcome A.

#[export] Instance SM_ret : MRet SM := fun A a w => Returned a w.
#[export] Instance SM_bind : MBind SM := fun A B f m w =>
  match m w with
  | Returned a w' => f a w'
  | Raised w' => Raised w'
  end.

Definition default_state : State :=
  <["current_phase" := VInt 1]> (<["status" := VStr "not_started"]> ∅).

(** [_load_state]: a dictionary, or whatever else the file holds. *)
Definition _load_state (env : Env) : State + Value :=
  match state_file env with
  | NoFile | Corrupt => inl default_state
  | Stored s => inl s
  | StoredOther v => inr v
  end.

Definition _save_state (env : Env) (state : State) : SM unit :=
  fun w =>
    if state_writable env
    then Returned tt {| site := site w; saved := state :: saved w |}
    else Raised w.

(** [run_preflight()] within the world of the state machine. *)
Definition preflight_step (env : Env) : SM PreflightResult :=
  fun w =>
    match run_preflight (preflight env) true (site w) with
    | Preflight.Returned r s => Returned r {| site := s; saved := saved w |}
    | Preflight.Raised s => Raised {| site := s; saved := saved w |}
    end.

Definition _handle_phase1 (env : Env) (state : State) : SM State :=
  result ← preflight_step env;
  let state := <["status" := VStr (if passed result then "passed" else "failed")]> state in
  let state := <["phase1" := VResult result]> state in
  _save_state env state;;
  mret state.

(** [phase == 1] *)
Definition is_one (v : Value) : bool :=
  match v with
  | VInt z => z =? 1
  | VFloat f => PrimFloat.eqb f 1%float
  | VBool b => b
  | _ => false
  end.

Definition current_phase (state : State) : Value :=
  default (VInt 1) (state !! "current_phase").

(** [run_next_phase(state)]; without a state, or with [None], the state
    is loaded, and what is not a dictionary has no [get]. *)
Definition run_next_phase (env : Env) (state : option State) : SM State :=
  let loaded :=
    match state with
    | Some state => inl state
    | None => _load_state env
    end in
  match loaded with
  | inr _ => fun w => Raised w
  | inl state =>
      state ← (if is_one (current_phase state)
               then state ← _handle_phase1 env state;
                    mret (<["current_phase" := VInt 2]> state)
               else mret state);
      _save_state env state;;
      mret state
  end.

(** [main]: the state is loaded, then passed on. *)
Definition main (env : Env) : SM unit :=
  match _load_state env with
  | inl state => run_next_phase env (Some state);; mret tt
  | inr VNull => run_next_phase env None;; mret tt
  | inr _ => fun w => Raised w
  end.

End StateMachine.

(** ** Sample preflight environments *)

Definition sample_matrix : Preflight.Matrix :=
  {| Preflight.python_min := Some "3.10";
     Preflight.deps :=
       [("requests", {| Preflight.critical := Some ">=2.0";
                        Preflight.optional := None |});
        ("orjson", {| Preflight.critical := None; Preflight.optional := None |})] |}.

(** Python 3.11.4 with [requests] installed, one of the two variables
    set, and every directory creatable. *)
Definition sample_preflight_env : Preflight.Env :=
  {| Preflight.load_matrix := Some sample_matrix;
     Preflight.version_info := (3, 11, 4);
     Preflight.py_int := fun s =>
       if String.eqb s "3" then Some 3
       else if String.eqb s "10" then Some 10 else None;
     Preflight.metadata_version := fun p =>
       if String.eqb p "requests" then Some "2.31.0" else None;
     Preflight.packaging_present := true;
     Preflight.version_lt := fun _ _ => Some false;
     Preflight.getenv := fun k =>
       if String.eqb k "GOOGLE_API_KEY" then Some "secret" else None;
     Preflight.mkdir_ok := fun _ => true |}.

(** Only [configs] exists. *)
Definition sample_site : Preflight.Site :=
  {| Preflight.dirs := {[ ["configs"] ]}; Preflight.printed := [] |}.

Definition sample_machine_env : StateMachine.Env :=
  {| StateMachine.preflight := sample_preflight_env;
     StateMachine.state_file := StateMachine.NoFile;
     StateMachine.state_writable := true |}.

Definition sample_world : StateMachine.World :=
  {| StateMachine.site := sample_site; StateMachine.saved := [] |}.

(** ** Sleeps that [time.sleep] takes *)

(** The delay the rate limiter computes from the random number [u]:
    [interval + uniform(-jitter, jitter)]. *)
Definition limiter_delay (rps jitter_pct u : float) : float :=
  let interval := PrimFloat.div 1%float rps in
  let jitter := PrimFloat.mul interval (PrimFloat.div jitter_pct 100%float) in
  PrimFloat.add interval
    (PrimFloat.add (PrimFloat.opp jitter)
       (PrimFloat.mul (PrimFloat.sub jitter (PrimFloat.opp jitter)) u)).

(** [time.sleep] takes every delay the limiter of [b] may ask for. *)
Definition limiter_accepted (env : Env) (b : BaseProvider) : Prop :=
  forall n,
    PrimFloat.leb (rate_limit_rps b) 0%float = false ->
    PrimFloat.ltb 0%float
      (limiter_delay (rate_limit_rps b) (jitter_percent b) (random_random env n)) = true ->
    sleep_accepts env
      (limiter_delay (rate_limit_rps b) (jitter_percent b) (random_random env n)) = true.

(** [time.sleep] takes the crawl delay, when there is one to respect. *)
Definition crawl_delay_accepted (env : Env) (crawl_delay : option float) : Prop :=
  match crawl_delay with
  | Some d =>
      negb (PrimFloat.eqb d 0%float) && PrimFloat.ltb 0%float d = true ->
      sleep_accepts env d = true
  | None => True
  end.

(** [time.sleep] takes every delay of the backoff schedule of [b]. *)
Definition delays_accepted (env : Env) (b : BaseProvider) : Prop :=
  Forall (fun d => sleep_accepts env d = true) (_delays b).

(* ================================================================== *)
(** * Part II: properties *)
(* ================================================================== *)

(** ** Strings *)

Module StrFacts.

Lemma app_nil_r (s : string) : s +:+ "" = s.
Proof. induction s as [|c s IH]; [done|]. change (String c (s +:+ "") = String c s). by rewrite IH. Qed.

Lemma app_cons (c : ascii) (s t : string) : String c s +:+ t = String c (s +:+ t).
Proof. reflexivity. Qed.

Lemma app_assoc (s t u : string) : (s +:+ t) +:+ u = s +:+ (t +:+ u).
Proof.
  induction s as [|c s IH]; [done|].
  rewrite !app_cons. by rewrite IH.
Qed.

Lemma app_eq_nil (s t : string) : s +:+ t = "" -> s = "" /\ t = "".
Proof. destruct s; [done|]. rewrite app_cons. discriminate. Qed.

Lemma app_eq_cons (s t : string) (c : ascii) (u : string) :
  s +:+ t = String c u ->
  (s = "" /\ t = String c u) \/ (exists s', s = String c s' /\ u = s' +:+ t).
Proof.
  destruct s as [|x s]; [by left|].
  rewrite app_cons. intros [= -> <-]. right. by eexists.
Qed.

Lemma all_app p (s t : string) : Str.all p (s +:+ t) = Str.all p s && Str.all p t.
Proof.
  induction s as [|c s IH]; [done|].
  rewrite app_cons. simpl. rewrite IH. by rewrite andb_assoc.
Qed.

Lemma any_app p (s t : string) : Str.any p (s +:+ t) = Str.any p s || Str.any p t.
Proof.
  induction s as [|c s IH]; [done|].
  rewrite app_cons. simpl. rewrite IH. by rewrite orb_assoc.
Qed.

Lemma all_impl (p q : ascii -> bool) (s : string) :
  (forall c, p c = true -> q c = true) -> Str.all p s = true -> Str.all q s = true.
Proof.
  intros Hpq. induction s as [|c s IH]; [done|]. simpl.
  intros [Hc Hs]%andb_prop. rewrite (Hpq _ Hc). simpl. auto.
Qed.

Lemma all_not_any (p q : ascii -> bool) (s : string) :
  (forall c, p c = true -> q c = false) -> Str.all p s = true -> Str.any q s = false.
Proof.
  intros Hpq. induction s as [|c s IH]; [done|]. simpl.
  intros [Hc Hs]%andb_prop. rewrite (Hpq _ Hc). simpl. auto.
Qed.

Lemma unsnoc_app (s : string) (c : ascii) : Str.unsnoc (s +:+ String c "") = Some (s, c).
Proof.
  induction s as [|x s IH]; [done|].
  rewrite app_cons. simpl. by rewrite IH.
Qed.

Lemma unsnoc_Some (s s' : string) (c : ascii) :
  Str.unsnoc s = Some (s', c) -> s = s' +:+ String c "".
Proof.
  revert s'. induction s as [|x s IH]; intros s'; [done|]. simpl.
  destruct (Str.unsnoc s) as [[r z]|] eqn:E.
  - intros [= <- <-]. rewrite app_cons. f_equal. by apply IH.
  - intros [= <- <-]. destruct s as [|y s]; [done|].
    simpl in E. by destruct (Str.unsnoc s) as [[??]|].
Qed.

Lemma length_app (s t : string) :
  String.length (s +:+ t) = (String.length s + String.length t)%nat.
Proof. induction s as [|c s IH]; [done|]. rewrite app_cons. simpl. by rewrite IH. Qed.

End StrFacts.

(** ** The matcher decides the language *)

Module ReFacts.
Import Re StrFacts.

Lemma lang_nil_nullable r : lang r "" -> nullable r = true.
Proof.
  intros H. remember EmptyString as s eqn:Hs.
  induction H as [| | r1 r2 s1 s2 _ IH1 _ IH2 | r1 r2 s _ IH | r1 r2 s _ IH
                 | | r s1 s2 _ _ _ _]; simpl; try done.
  - apply app_eq_nil in Hs as [-> ->]. by rewrite IH1, IH2.
  - by rewrite IH.
  - rewrite IH by done. apply orb_true_r.
Qed.

Lemma nullable_lang r : nullable r = true -> lang r "".
Proof.
  induction r as [| | p | r1 IH1 r2 IH2 | r1 IH1 r2 IH2 | r IH]; simpl; try done.
  - intros _. constructor.
  - intros [H1 H2]%andb_prop. change EmptyString with ("" +:+ "").
    constructor; auto.
  - intros [H1|H2]%orb_prop; [apply lang_alt_l | apply lang_alt_r]; auto.
  - intros _. constructor.
Qed.

Lemma lang_deriv r c s : lang r (String c s) -> lang (deriv c r) s.
Proof.
  intros H. remember (String c s) as s0 eqn:Hs0. revert c s Hs0.
  induction H as [| p x Hp | r1 r2 s1 s2 H1 IH1 H2 IH2 | r1 r2 s0 _ IH
                 | r1 r2 s0 _ IH | | r s1 s2 H1 IH1 H2 IH2];
    intros c s Hs0; simpl; try done.
  - injection Hs0 as -> <-. rewrite Hp. constructor.
  - apply app_eq_cons in Hs0 as [[-> ->]|(s1' & -> & ->)].
    + rewrite (lang_nil_nullable _ H1). apply lang_alt_r. by apply IH2.
    + assert (lang (Cat (deriv c r1) r2) (s1' +:+ s2)) as HC
        by (constructor; [by apply IH1 | done]).
      destruct (nullable r1); [by apply lang_alt_l | done].
  - apply lang_alt_l. by apply IH.
  - apply lang_alt_r. by apply IH.
  - apply app_eq_cons in Hs0 as [[-> ->]|(s1' & -> & ->)].
    + by apply IH2.
    + constructor; [by apply IH1 | done].
Qed.

Lemma deriv_lang r c s : lang (deriv c r) s -> lang r (String c s).
Proof.
  revert s.
  induction r as [| | p | r1 IH1 r2 IH2 | r1 IH1 r2 IH2 | r IH];
    intros s H; simpl in H.
  - inversion H.
  - inversion H.
  - destruct (p c) eqn:Hp; inversion H; subst. by constructor.
  - assert (forall t, lang (Cat (deriv c r1) r2) t -> lang (Cat r1 r2) (String c t)) as HC.
    { intros t Ht. inversion Ht as [| |? ? s1 s2 Hd H2| | | |]; subst.
      rewrite <- app_cons. constructor; [by apply IH1 | done]. }
    destruct (nullable r1) eqn:Hn; [|by apply HC].
    inversion H as [| | |? ? ? HL|? ? ? HR| |]; subst; [by apply HC|].
    change (String c s) with ("" +:+ String c s).
    constructor; [by apply nullable_lang | by apply IH2].
  - inversion H; subst; [apply lang_alt_l | apply lang_alt_r]; auto.
  - inversion H as [| |? ? s1 s2 Hd H2| | | |]; subst.
    rewrite <- app_cons. constructor; [by apply IH | done].
Qed.

Lemma matches_lang r s : matches r s = true <-> lang r s.
Proof.
  revert r. induction s as [|c s IH]; intros r; simpl.
  - split; [apply nullable_lang | apply lang_nil_nullable].
  - rewrite IH. split; [apply deriv_lang | apply lang_deriv].
Qed.

(** A word of [r] is made of characters of its classes. *)
Lemma lang_classes_within p r s :
  classes_within p r -> lang r s -> Str.all p s = true.
Proof.
  intros Hp H.
  induction H as [| q c Hq | r1 r2 s1 s2 _ IH1 _ IH2 | r1 r2 s _ IH
                 | r1 r2 s _ IH | | r s1 s2 _ IH1 _ IH2]; simpl in *; try done.
  - rewrite (Hp _ Hq). done.
  - destruct Hp. rewrite all_app, IH1, IH2; done.
  - destruct Hp. auto.
  - destruct Hp. auto.
  - rewrite all_app, IH1, IH2; done.
Qed.

Lemma lang_lit c : lang (Lit c) (String c "").
Proof. constructor. unfold Chars.eqc. apply N.eqb_refl. Qed.

End ReFacts.

(** ** Domains: characters, validity, normal forms *)

Module DomainFacts.
Import StrFacts ReFacts.

Ltac by_char c :=
  destruct c as [[] [] [] [] [] [] [] []]; vm_compute; congruence.

Lemma ishost_not_space c : Chars.ishost c = true -> Chars.isspace c = false.
Proof. by_char c. Qed.

Lemma ishost_lower c : Chars.ishost c = true -> Chars.lower c = c.
Proof. by_char c. Qed.

Lemma ishost_not_slash c : Chars.ishost c = true -> Chars.eqc "/" c = false.
Proof. by_char c. Qed.

Lemma ishost_not_colon c : Chars.ishost c = true -> Chars.eqc ":" c = false.
Proof. by_char c. Qed.

Lemma ishost_not_bad c :
  Chars.ishost c = true ->
  negb (Chars.ishost c) && negb (Chars.eqc "010" c) = false.
Proof. intros ->. done. Qed.

Lemma az_ishost c : Chars.islower_az c = true -> Chars.ishost c = true.
Proof. by_char c. Qed.

Lemma dot_ishost c : Chars.eqc "." c = true -> Chars.ishost c = true.
Proof. by_char c. Qed.

Lemma eqc_eqb a b : Chars.eqc a b = Ascii.eqb a b.
Proof.
  unfold Chars.eqc, Chars.code.
  destruct (Ascii.eqb_spec a b) as [->|Hne].
  - apply N.eqb_refl.
  - apply N.eqb_neq. intros Heq. apply Hne.
    rewrite <- (ascii_N_embedding a), <- (ascii_N_embedding b). by rewrite Heq.
Qed.

Lemma domain_re_classes : classes_within Chars.ishost domain_re.
Proof.
  unfold domain_re, Re.Plus, Re.AtLeast, Re.Lit. simpl.
  repeat split; auto using az_ishost, dot_ishost.
Qed.

(** A word of [domain_re] has a dot. *)
Lemma domain_re_dot s : Re.lang domain_re s -> Str.any (Chars.eqc ".") s = true.
Proof.
  unfold domain_re. intros H.
  inversion H as [| |? ? s1 s2 _ H2| | | |]; subst.
  inversion H2 as [| |? ? s3 s4 H3 _| | | |]; subst.
  inversion H3 as [|? c Hc| | | | |]; subst.
  rewrite any_app, app_cons. simpl. rewrite Hc. simpl. apply orb_true_r.
Qed.

Lemma valid_inv d :
  is_valid_domain d = true ->
  d <> "" /\ Re.match_anchored domain_re d = true.
Proof.
  unfold is_valid_domain.
  destruct (String.eqb_spec d "") as [->|Hne]; [done|]. simpl.
  destruct (253 <? _); [done|].
  destruct (bool_decide _); [done|].
  destruct (Re.match_anchored ipv4_re d); [done|].
  destruct (Re.match_anchored domain_re d); done.
Qed.

(** What [match_anchored] accepts: a word, or a word and a line feed. *)
Lemma match_anchored_inv r s :
  Re.match_anchored r s = true ->
  Re.lang r s \/ exists s', s = s' +:+ NL /\ Re.lang r s'.
Proof.
  unfold Re.match_anchored. intros [H|H]%orb_prop.
  - left. by apply matches_lang.
  - right. destruct (Str.unsnoc s) as [[s' c]|] eqn:E; [|done].
    apply andb_prop in H as [Hc Hm]. exists s'. split; [|by apply matches_lang].
    apply unsnoc_Some in E. rewrite eqc_eqb in Hc.
    apply Ascii.eqb_eq in Hc. by subst.
Qed.

Lemma valid_chars d :
  is_valid_domain d = true -> ends_with_newline d = false ->
  Str.all Chars.ishost d = true.
Proof.
  intros [_ Hm]%valid_inv Hnl.
  apply match_anchored_inv in Hm as [H|(s' & -> & _)].
  - eapply lang_classes_within; [apply domain_re_classes | done].
  - unfold ends_with_newline, NL in Hnl. by rewrite unsnoc_app in Hnl.
Qed.

Lemma lstrip_clean s : Str.all Chars.ishost s = true -> Str.lstrip s = s.
Proof.
  destruct s as [|c s]; [done|]. simpl.
  intros [Hc _]%andb_prop. by rewrite (ishost_not_space _ Hc).
Qed.

Lemma rstrip_clean s : Str.all Chars.ishost s = true -> Str.rstrip s = s.
Proof.
  induction s as [|c s IH]; [done|]. simpl.
  intros [Hc Hs]%andb_prop. rewrite (IH Hs).
  destruct s; [|done]. by rewrite (ishost_not_space _ Hc).
Qed.

Lemma partition_absent a p s :
  Str.any (Chars.eqc a) s = false -> Str.partition (String a p) s = None.
Proof.
  induction s as [|c s IH]; [done|].
  cbn [Str.any]. intros [Hc Hs]%orb_false_elim.
  rewrite eqc_eqb in Hc.
  cbn [Str.partition Str.strip_prefix]. rewrite Hc.
  by rewrite (IH Hs).
Qed.

Lemma split1_absent a p s :
  Str.any (Chars.eqc a) s = false -> Str.split1 (String a p) s = [s].
Proof. intros H. unfold Str.split1. by rewrite partition_absent. Qed.

Lemma lower_clean s : Str.all Chars.ishost s = true -> Str.lower s = s.
Proof.
  induction s as [|c s IH]; [done|]. simpl.
  intros [Hc Hs]%andb_prop.
  unfold Str.lower in *. simpl. by rewrite (ishost_lower _ Hc), (IH Hs).
Qed.

(** A host made of [[a-z0-9.-]] that does not start with [www.] is
    left as it is. *)
Lemma normalize_clean d :
  Str.all Chars.ishost d = true -> Str.startswith d "www." = false ->
  normalize_domain d = d.
Proof.
  intros Hd Hw. unfold normalize_domain, Str.strip.
  rewrite (lstrip_clean _ Hd), (rstrip_clean _ Hd).
  assert (Str.any (Chars.eqc "/") d = false) as Hs
    by (eapply all_not_any; [apply ishost_not_slash | done]).
  assert (Str.any (Chars.eqc ":") d = false) as Hc
    by (eapply all_not_any; [apply ishost_not_colon | done]).
  rewrite (split1_absent _ _ _ Hs). cbn [Str.item_last last default].
  rewrite (split1_absent _ _ _ Hs). cbn [Str.item0 head default].
  rewrite (split1_absent _ _ _ Hc). cbn [Str.item0 head default].
  unfold id. rewrite (lower_clean _ Hd). by rewrite Hw.
Qed.

(** *** [unique_sorted] *)

Lemma elem_of_py_sorted d (s : gset string) : d ∈ py_sorted s <-> d ∈ s.
Proof. unfold py_sorted. rewrite merge_sort_Permutation. apply elem_of_elements. Qed.

Lemma py_sorted_Sorted (s : gset string) : Sorted String.le (py_sorted s).
Proof. apply (Sorted_merge_sort String.le). Qed.

Lemma py_sorted_NoDup (s : gset string) : NoDup (py_sorted s).
Proof. unfold py_sorted. rewrite merge_sort_Permutation. apply NoDup_elements. Qed.

Lemma py_sorted_list_to_set (l : list string) :
  Sorted String.le l -> NoDup l -> py_sorted (list_to_set l) = l.
Proof.
  intros Hs Hn. apply (Sorted_unique String.le); [apply py_sorted_Sorted | done |].
  unfold py_sorted. rewrite merge_sort_Permutation. by apply elements_list_to_set.
Qed.

Lemma elem_of_unique_sorted d urls :
  d ∈ unique_sorted urls <->
  is_valid_domain d = true /\ exists u, u ∈ urls /\ normalize_domain u = d.
Proof.
  unfold unique_sorted. rewrite elem_of_py_sorted, elem_of_filter.
  rewrite elem_of_list_to_set, list_elem_of_fmap.
  split.
  - intros [Hv (u & -> & Hu)]. apply list_elem_of_filter in Hu as [_ Hu]. eauto.
  - intros [Hv (u & Hu & <-)]. split; [done|]. exists u. split; [done|].
    apply list_elem_of_filter. split; [|done].
    apply valid_inv in Hv as [Hne _]. done.
Qed.

Lemma unique_sorted_valid urls :
  Forall (fun d => is_valid_domain d = true) (unique_sorted urls).
Proof. apply Forall_forall. intros d Hd. by apply elem_of_unique_sorted in Hd as [? _]. Qed.

Lemma filter_all {A} (P : A -> Prop) `{!forall x, Decision (P x)} (l : list A) :
  Forall P l -> filter P l = l.
Proof.
  induction 1 as [|x l Hx _ IH]; [done|].
  rewrite filter_cons. destruct (decide (P x)); [by rewrite IH | done].
Qed.

Lemma fmap_fixed {A} (f : A -> A) (l : list A) :
  Forall (fun x => f x = x) l -> f <$> l = l.
Proof. induction 1 as [|x l Hx _ IH]; [done|]. rewrite fmap_cons. by rewrite Hx, IH. Qed.

(** On a sorted list of distinct valid normal forms, [unique_sorted]
    changes nothing. *)
Lemma unique_sorted_fixed (l : list string) :
  Sorted String.le l -> NoDup l ->
  Forall (fun d => is_valid_domain d = true) l ->
  Forall (fun d => normalize_domain d = d) l ->
  unique_sorted l = l.
Proof.
  intros Hs Hn Hv Hf. unfold unique_sorted.
  rewrite filter_all; cycle 1.
  { apply Forall_forall. intros d Hd.
    rewrite Forall_forall in Hv, Hf. rewrite (Hf _ Hd).
    by destruct (valid_inv _ (Hv _ Hd)). }
  rewrite (fmap_fixed _ _ Hf).
  assert (filter (fun d => is_valid_domain d = true) (list_to_set l : gset string)
          = list_to_set l) as ->.
  { apply set_eq. intros d. rewrite elem_of_filter, elem_of_list_to_set.
    rewrite Forall_forall in Hv. split; [by intros [_ ?] | intros; split; auto]. }
  by apply py_sorted_list_to_set.
Qed.

End DomainFacts.

(** ** [normalize_domain] on a URL with a scheme *)

Module UrlFacts.
Import StrFacts ReFacts DomainFacts.

Lemma partition_scheme pre x :
  Str.any (Chars.eqc "/") pre = false ->
  Str.partition "//" (pre +:+ "//" +:+ x) = Some (pre, x).
Proof.
  induction pre as [|c pre IH]; [done|].
  cbn [Str.any]. intros [Hc Hp]%orb_false_elim.
  rewrite eqc_eqb in Hc.
  rewrite app_cons. cbn [Str.partition Str.strip_prefix].
  rewrite Hc. by rewrite (IH Hp).
Qed.

Lemma item0_split1 c s : Str.item0 (Str.split1 (String c "") s) = take_until c s.
Proof.
  unfold Str.split1.
  induction s as [|x s IH]; [done|].
  cbn [Str.partition Str.strip_prefix take_until].
  destruct (Ascii.eqb c x); [done|].
  destruct (Str.partition (String c "") s) as [[a b]|]; simpl in *; by rewrite <- IH.
Qed.

Lemma take_until_app c a b :
  Str.any (Chars.eqc c) a = false ->
  take_until c (a +:+ b) = a +:+ take_until c b.
Proof.
  induction a as [|x a IH]; [done|].
  cbn [Str.any]. intros [Hx Ha]%orb_false_elim.
  rewrite eqc_eqb in Hx.
  rewrite !app_cons. cbn [take_until]. rewrite Hx. by rewrite (IH Ha).
Qed.

Lemma startswith_char c s :
  Str.startswith s (String c "") = true -> exists r, s = String c r.
Proof.
  unfold Str.startswith. destruct s as [|x s]; [done|]. simpl.
  destruct (Ascii.eqb_spec c x) as [->|]; [eauto | done].
Qed.

Lemma normalize_pipeline raw :
  normalize_domain raw =
  strip_www (Str.lower (take_until ":" (take_until "/"
    (Str.item_last (Str.split1 "//" (Str.strip raw)))))).
Proof. unfold normalize_domain, strip_www. by rewrite !item0_split1. Qed.

(** The text before [//] goes, then everything from the first [/] and
    from the first [:]; what is left is lower-cased and loses one
    leading [www.]. *)
Lemma normalize_url pre host rest :
  Str.any (Chars.eqc "/") pre = false ->
  Str.any (Chars.eqc "/") host = false ->
  Str.any (Chars.eqc ":") host = false ->
  rest = "" \/ Str.startswith rest "/" = true \/ Str.startswith rest ":" = true ->
  Str.strip (pre +:+ "//" +:+ host +:+ rest) = pre +:+ "//" +:+ host +:+ rest ->
  normalize_domain (pre +:+ "//" +:+ host +:+ rest) = strip_www (Str.lower host).
Proof.
  intros Hpre Hslash Hcolon Hrest Hstrip.
  rewrite normalize_pipeline, Hstrip.
  unfold Str.split1. rewrite (partition_scheme _ _ Hpre).
  cbn [Str.item_last last default]. unfold id.
  rewrite (take_until_app _ _ _ Hslash).
  assert (take_until ":" (host +:+ take_until "/" rest) = host) as ->; [|done].
  rewrite (take_until_app _ _ _ Hcolon).
  destruct Hrest as [->|[H|H]].
  - apply app_nil_r.
  - apply startswith_char in H as [r ->]. apply app_nil_r.
  - apply startswith_char in H as [r ->]. apply app_nil_r.
Qed.

Lemma lang_cat_eq r1 r2 s1 s2 s :
  Re.lang r1 s1 -> Re.lang r2 s2 -> s = s1 +:+ s2 -> Re.lang (Re.Cat r1 r2) s.
Proof. intros H1 H2 ->. by constructor. Qed.

Lemma lang_one p c :
  p c = true -> Re.lang (Re.Times 1 (Re.Class p)) (String c "").
Proof.
  intros Hp. apply (lang_cat_eq _ _ (String c "") ""); [by constructor | constructor | done].
Qed.

Lemma lang_digits13 a :
  digits13 a -> Re.lang (Re.Range 1 3 (Re.Class Chars.isdigit)) a.
Proof.
  intros [Hd Hl].
  destruct a as [|c1 [|c2 [|c3 [|c4 a]]]]; simpl in Hd, Hl; try lia;
    repeat match goal with
           | H : _ && _ = true |- _ => apply andb_prop in H as [? ?]
           end.
  - apply (lang_cat_eq _ _ (String c1 "") ""); [by apply lang_one | | done].
    apply Re.lang_alt_l, Re.lang_eps.
  - apply (lang_cat_eq _ _ (String c1 "") (String c2 "")); [by apply lang_one | | done].
    apply Re.lang_alt_r.
    apply (lang_cat_eq _ _ (String c2 "") ""); [by constructor | | done].
    apply Re.lang_alt_l, Re.lang_eps.
  - apply (lang_cat_eq _ _ (String c1 "") (String c2 (String c3 "")));
      [by apply lang_one | | done].
    apply Re.lang_alt_r.
    apply (lang_cat_eq _ _ (String c2 "") (String c3 "")); [by constructor | | done].
    apply Re.lang_alt_r.
    apply (lang_cat_eq _ _ (String c3 "") ""); [by constructor | | done].
    apply Re.lang_eps.
Qed.

Lemma dotted_quad_ipv4 s : dotted_quad s -> Re.matches ipv4_re s = true.
Proof.
  intros (a & b & c & d & Ha & Hb & Hc & Hd & ->).
  apply matches_lang. unfold ipv4_re.
  repeat (constructor; [by apply lang_digits13 | constructor; [apply lang_lit|]]).
  by apply lang_digits13.
Qed.

Lemma blocked_invalid h : h ∈ blocked_hosts -> is_valid_domain h = false.
Proof.
  intros Hb. unfold is_valid_domain.
  destruct (_ || _); [done|]. by rewrite bool_decide_eq_true_2.
Qed.

Lemma dotted_quad_invalid h : dotted_quad h -> is_valid_domain h = false.
Proof.
  intros Hq%dotted_quad_ipv4. unfold is_valid_domain, Re.match_anchored.
  destruct (_ || _); [done|]. destruct (bool_decide _); [done|].
  by rewrite Hq.
Qed.

Lemma no_dot_invalid h :
  Str.any (Chars.eqc ".") h = false -> is_valid_domain h = false.
Proof.
  intros Hm. destruct (is_valid_domain h) eqn:Hv; [exfalso|done].
  apply valid_inv in Hv as [Hne Hv].
  apply match_anchored_inv in Hv as [HL|(s' & -> & HL)].
  - apply domain_re_dot in HL. congruence.
  - apply domain_re_dot in HL. rewrite any_app, HL in Hm. done.
Qed.

(** Without a scheme the host is what stands before the first [/] or
    [:], as long as the input holds no [//]. *)
Lemma normalize_schemeless host rest :
  Str.any (Chars.eqc "/") host = false ->
  Str.any (Chars.eqc ":") host = false ->
  rest = "" \/ Str.startswith rest "/" = true \/ Str.startswith rest ":" = true ->
  Str.partition "//" (host +:+ rest) = None ->
  Str.strip (host +:+ rest) = host +:+ rest ->
  normalize_domain (host +:+ rest) = strip_www (Str.lower host).
Proof.
  intros Hslash Hcolon Hrest Hp Hstrip.
  rewrite normalize_pipeline, Hstrip.
  unfold Str.split1. rewrite Hp.
  cbn [Str.item_last last default]. unfold id.
  rewrite (take_until_app _ _ _ Hslash).
  assert (take_until ":" (host +:+ take_until "/" rest) = host) as ->; [|done].
  rewrite (take_until_app _ _ _ Hcolon).
  destruct Hrest as [->|[H|H]].
  - apply app_nil_r.
  - apply startswith_char in H as [r ->]. apply app_nil_r.
  - apply startswith_char in H as [r ->]. apply app_nil_r.
Qed.

(** Normalizing never brings in a character that was not there: every
    step takes a piece of its input, and lower-casing makes no dot. *)
Lemma lstrip_any p s : Str.any p s = false -> Str.any p (Str.lstrip s) = false.
Proof.
  induction s as [|c s IH]; [done|]. cbn [Str.lstrip].
  destruct (Chars.isspace c); [|done].
  cbn [Str.any]. intros [_ Hs]%orb_false_elim. auto.
Qed.

Lemma rstrip_any p s : Str.any p s = false -> Str.any p (Str.rstrip s) = false.
Proof.
  induction s as [|c s IH]; [done|].
  cbn [Str.any]. intros [Hc Hs]%orb_false_elim. specialize (IH Hs).
  cbn [Str.rstrip]. destruct (Str.rstrip s) as [|x r].
  - destruct (Chars.isspace c); [done|]. cbn [Str.any]. by rewrite Hc.
  - cbn [Str.any] in *. by rewrite Hc, IH.
Qed.

Lemma strip_prefix_any p sep s r :
  Str.strip_prefix sep s = Some r -> Str.any p s = false -> Str.any p r = false.
Proof.
  revert s. induction sep as [|a sep IH]; intros s.
  - cbn. by intros [= ->].
  - destruct s as [|b s]; [done|]. cbn [Str.strip_prefix Str.any].
    destruct (Ascii.eqb a b); [|done].
    intros H [_ Hs]%orb_false_elim. by eapply IH.
Qed.

Lemma partition_any p sep s a b :
  Str.partition sep s = Some (a, b) -> Str.any p s = false -> Str.any p b = false.
Proof.
  revert a. induction s as [|c s IH]; intros a.
  - cbn [Str.partition]. destruct (Str.strip_prefix sep "") as [r|] eqn:E; [|done].
    intros [= <- <-]. by eapply strip_prefix_any.
  - cbn [Str.partition]. destruct (Str.strip_prefix sep (String c s)) as [r|] eqn:E.
    + intros [= <- <-]. by eapply strip_prefix_any.
    + destruct (Str.partition sep s) as [[a' b']|]; [|done].
      intros [= <- <-]. cbn [Str.any]. intros [_ Hs]%orb_false_elim. by eapply IH.
Qed.

Lemma item_last_any p sep s :
  Str.any p s = false -> Str.any p (Str.item_last (Str.split1 sep s)) = false.
Proof.
  intros Hs. unfold Str.split1.
  destruct (Str.partition sep s) as [[a b]|] eqn:E; [|done].
  cbn. by eapply partition_any.
Qed.

Lemma take_until_any p c s :
  Str.any p s = false -> Str.any p (take_until c s) = false.
Proof.
  induction s as [|x s IH]; [done|].
  cbn [Str.any take_until]. intros [Hx Hs]%orb_false_elim.
  destruct (Ascii.eqb c x); [done|]. cbn [Str.any]. by rewrite Hx, IH.
Qed.

Lemma drop_any p n s : Str.any p s = false -> Str.any p (Str.drop n s) = false.
Proof.
  revert s. induction n as [|n IH]; intros s; [done|].
  destruct s as [|c s]; [done|].
  cbn [Str.any Str.drop]. intros [_ Hs]%orb_false_elim. auto.
Qed.

Lemma lower_not_dot c : Chars.eqc "." c = false -> Chars.eqc "." (Chars.lower c) = false.
Proof. by_char c. Qed.

Lemma lower_no_dot s :
  Str.any (Chars.eqc ".") s = false -> Str.any (Chars.eqc ".") (Str.lower s) = false.
Proof.
  induction s as [|c s IH]; [done|]. unfold Str.lower in *.
  cbn [Str.any Str.map]. intros [Hc Hs]%orb_false_elim.
  by rewrite (lower_not_dot _ Hc), IH.
Qed.

Lemma normalize_no_dot raw :
  Str.any (Chars.eqc ".") raw = false ->
  Str.any (Chars.eqc ".") (normalize_domain raw) = false.
Proof.
  intros H. rewrite normalize_pipeline. unfold strip_www, Str.strip.
  assert (Str.any (Chars.eqc ".")
            (Str.lower (take_until ":" (take_until "/"
               (Str.item_last (Str.split1 "//" (Str.rstrip (Str.lstrip raw)))))))
          = false) as Hl.
  { by apply lower_no_dot, take_until_any, take_until_any, item_last_any,
      rstrip_any, lstrip_any. }
  destruct (Str.startswith _ _); [by apply drop_any | done].
Qed.

Lemma digit_ishost c : Chars.isdigit c = true -> Chars.ishost c = true.
Proof. by_char c. Qed.

Lemma digit_not_w c : Chars.isdigit c = true -> Ascii.eqb "w" c = false.
Proof. by_char c. Qed.

(** A dotted quad is left as it is by [normalize_domain]. *)
Lemma normalize_dotted_quad s : dotted_quad s -> normalize_domain s = s.
Proof.
  intros (a & b & c & d & [Ha La] & [Hb _] & [Hc _] & [Hd _] & ->).
  apply normalize_clean.
  - rewrite !all_app.
    rewrite (all_impl _ _ _ digit_ishost Ha), (all_impl _ _ _ digit_ishost Hb),
      (all_impl _ _ _ digit_ishost Hc), (all_impl _ _ _ digit_ishost Hd). done.
  - destruct a as [|x a]; [simpl in La; lia|].
    cbn [Str.all] in Ha. apply andb_prop in Ha as [Hx _].
    rewrite app_cons. unfold Str.startswith. cbn [Str.strip_prefix].
    by rewrite (digit_not_w _ Hx).
Qed.

Lemma raw_invalid raw :
  raw ∈ blocked_hosts \/ dotted_quad raw \/ Str.any (Chars.eqc ".") raw = false ->
  is_valid_domain (normalize_domain raw) = false.
Proof.
  intros [H|[H|H]].
  - unfold blocked_hosts in H. rewrite !elem_of_cons, elem_of_nil in H.
    destruct H as [->|[->|[->|[->|[]]]]]; reflexivity.
  - rewrite (normalize_dotted_quad _ H). by apply dotted_quad_invalid.
  - by apply no_dot_invalid, normalize_no_dot.
Qed.

End UrlFacts.

(** ** The validator *)

Module ValidatorFacts.
Import StrFacts ReFacts DomainFacts.

Lemma app_nil_l (s : string) : "" +:+ s = s.
Proof. reflexivity. Qed.

Ltac norm_app := repeat (rewrite app_cons || rewrite app_nil_l).

Lemma strip_prefix_line_feed p d :
  Str.any (Chars.eqc "010") p = false ->
  Str.strip_prefix p d = None -> Str.strip_prefix p (d +:+ NL) = None.
Proof.
  revert d. induction p as [|a p IH]; intros d; [done|].
  cbn [Str.any]. intros [Ha Hp]%orb_false_elim.
  destruct d as [|b d].
  - intros _. change ("" +:+ NL) with NL. unfold NL. cbn [Str.strip_prefix].
    rewrite eqc_eqb in Ha. destruct (Ascii.eqb_spec a "010") as [->|]; [|done].
    by rewrite Ascii.eqb_refl in Ha.
  - rewrite app_cons. cbn [Str.strip_prefix].
    destruct (Ascii.eqb a b); [by apply IH | done].
Qed.

Lemma az_not_newline c : Chars.islower_az c = true -> Chars.eqc "010" c = false.
Proof. by_char c. Qed.

Lemma digit_dot_not_az c :
  Chars.isdigit c || Chars.eqc "." c = true -> Chars.islower_az c = false.
Proof. by_char c. Qed.

Lemma ipv4_re_classes :
  classes_within (fun c => Chars.isdigit c || Chars.eqc "." c) ipv4_re.
Proof.
  unfold ipv4_re, Re.Range, Re.Lit. simpl.
  repeat split; intros c Hc; rewrite Hc; by rewrite ?orb_true_r.
Qed.

Lemma star_class_all p s : Re.lang (Re.Star (Re.Class p)) s -> Str.all p s = true.
Proof. intros H. eapply lang_classes_within; [|exact H]. simpl. auto. Qed.

(** The words of [domain_re], taken apart. *)
Lemma domain_re_inv s :
  Re.lang domain_re s ->
  exists pre tld,
    s = pre +:+ "." +:+ tld /\ pre <> "" /\
    Str.all Chars.ishost pre = true /\
    Str.all Chars.islower_az tld = true /\ (2 <= String.length tld)%nat.
Proof.
  unfold domain_re, Re.Plus, Re.AtLeast, Re.Lit. cbn [Re.Times]. intros H.
  inversion H as [| |? ? s1 s23 Hpre H23| | | |]; subst.
  inversion H23 as [| |? ? s2 s3 Hdot Htld| | | |]; subst.
  inversion Hdot as [|? c Hc| | | | |]; subst.
  rewrite eqc_eqb in Hc. apply Ascii.eqb_eq in Hc. subst c.
  exists s1, s3. split; [done|].
  inversion Hpre as [| |? ? a b Ha Hb| | | |]; subst.
  inversion Ha as [|? c Hc| | | | |]; subst.
  split; [done|]. split.
  { rewrite app_cons. cbn [Str.all]. rewrite Hc. by apply star_class_all. }
  inversion Htld as [| |? ? t1 t2 Ht1 Ht2| | | |]; subst.
  inversion Ht1 as [| |? ? u1 u2 Hu1 Hu2| | | |]; subst.
  inversion Hu1 as [|? x Hx| | | | |]; subst.
  inversion Hu2 as [| |? ? v1 v2 Hv1 Hv2| | | |]; subst.
  inversion Hv1 as [|? y Hy| | | | |]; subst.
  inversion Hv2; subst.
  split.
  - norm_app. cbn [Str.all]. rewrite Hx, Hy. by apply star_class_all.
  - norm_app. cbn [String.length]. lia.
Qed.

Lemma domain_re_intro pre tld :
  pre <> "" -> Str.all Chars.ishost pre = true ->
  Str.all Chars.islower_az tld = true -> (2 <= String.length tld)%nat ->
  Re.lang domain_re (pre +:+ "." +:+ tld).
Proof.
  intros Hne Hpre Htld Hlen.
  assert (forall p s, Str.all p s = true -> Re.lang (Re.Star (Re.Class p)) s) as Hstar.
  { intros p s. induction s as [|c s IH]; [constructor|].
    cbn [Str.all]. intros [Hc Hs]%andb_prop.
    change (String c s) with (String c "" +:+ s).
    constructor; [by constructor | by apply IH]. }
  unfold domain_re, Re.Plus, Re.AtLeast. constructor; [|constructor; [apply lang_lit|]].
  - destruct pre as [|c pre]; [done|]. cbn [Str.all] in Hpre.
    apply andb_prop in Hpre as [Hc Hp].
    change (String c pre) with (String c "" +:+ pre).
    constructor; [by constructor | by apply Hstar].
  - destruct tld as [|x [|y tld]]; cbn [String.length] in Hlen; try lia.
    cbn [Str.all] in Htld.
    apply andb_prop in Htld as [Hx [Hy Ht]%andb_prop].
    change (String x (String y tld))
      with ((String x "" +:+ (String y "" +:+ "")) +:+ tld).
    constructor; [|by apply Hstar].
    cbn [Re.Times]. constructor; [by constructor|].
    constructor; [by constructor | constructor].
Qed.

Lemma domain_word_has_letter s :
  Re.lang domain_re s -> Str.any Chars.islower_az s = true.
Proof.
  intros (pre & tld & -> & _ & _ & Htld & Hlen)%domain_re_inv.
  rewrite !any_app. destruct tld as [|c tld]; [simpl in Hlen; lia|].
  cbn [Str.all] in Htld. apply andb_prop in Htld as [Hc _].
  cbn [Str.any]. rewrite Hc. by rewrite !orb_true_r.
Qed.

Lemma ipv4_word_has_no_letter s :
  Re.lang ipv4_re s -> Str.any Chars.islower_az s = false.
Proof.
  intros H. apply (lang_classes_within _ _ _ ipv4_re_classes) in H.
  eapply all_not_any; [|exact H]. apply digit_dot_not_az.
Qed.

Lemma any_az_newline s :
  Str.any Chars.islower_az (s +:+ NL) = Str.any Chars.islower_az s.
Proof. rewrite any_app. cbn. by rewrite orb_false_r. Qed.

(** What the domain pattern accepts, the IPv4 pattern does not. *)
Lemma domain_not_ipv4 d :
  Re.match_anchored domain_re d = true -> Re.match_anchored ipv4_re d = false.
Proof.
  intros Hd. destruct (Re.match_anchored ipv4_re d) eqn:Hi; [exfalso|done].
  apply match_anchored_inv in Hd, Hi.
  assert (Str.any Chars.islower_az d = true) as H1.
  { destruct Hd as [H|(s & -> & H)]; [|rewrite any_az_newline];
      by apply domain_word_has_letter. }
  assert (Str.any Chars.islower_az d = false) as H2.
  { destruct Hi as [H|(s & -> & H)]; [|rewrite any_az_newline];
      by apply ipv4_word_has_no_letter. }
  congruence.
Qed.

Lemma domain_not_blocked d :
  Re.match_anchored domain_re d = true -> d ∉ blocked_hosts.
Proof.
  intros Hd Hb. unfold blocked_hosts in Hb.
  rewrite !elem_of_cons, elem_of_nil in Hb.
  destruct Hb as [->|[->|[->|[->|[]]]]]; by vm_compute in Hd.
Qed.

Lemma is_valid_domain_eq d :
  is_valid_domain d
  = negb (String.eqb d "") && (Z.of_nat (String.length d) <=? 253)
    && Re.match_anchored domain_re d.
Proof.
  unfold is_valid_domain.
  destruct (String.eqb d ""); [done|]. cbn [negb orb andb].
  rewrite Z.ltb_antisym.
  destruct (Z.of_nat (String.length d) <=? 253); [|done]. cbn [negb andb].
  destruct (Re.match_anchored domain_re d) eqn:Hd.
  - rewrite (bool_decide_eq_false_2 _ (domain_not_blocked _ Hd)).
    by rewrite (domain_not_ipv4 _ Hd).
  - destruct (bool_decide _); [done|]. by destruct (Re.match_anchored ipv4_re d).
Qed.

Lemma valid_word d :
  is_valid_domain d = true -> ends_with_newline d = false -> Re.lang domain_re d.
Proof.
  intros [_ Hm]%valid_inv Hnl.
  apply match_anchored_inv in Hm as [H|(s' & -> & _)]; [done|].
  unfold ends_with_newline, NL in Hnl. by rewrite unsnoc_app in Hnl.
Qed.

(** A malformed host that does not end with a line feed is rejected. *)
Lemma malformed_invalid h :
  malformed h -> ends_with_newline h = false -> is_valid_domain h = false.
Proof.
  intros Hm Hnl. destruct (is_valid_domain h) eqn:Hv; [exfalso|done].
  pose proof (valid_word _ Hv Hnl) as HL.
  destruct Hm as [->|[Hm|Hm]]; [done| |].
  - apply domain_re_dot in HL. congruence.
  - apply (lang_classes_within _ _ _ domain_re_classes) in HL.
    assert (Str.any (fun c => negb (Chars.ishost c)) h = false) as Hn.
    { eapply all_not_any; [|exact HL]. intros c Hc. by rewrite Hc. }
    congruence.
Qed.

(** A valid host followed by a line feed is malformed, and valid. *)
Lemma fed_valid d :
  is_valid_domain d = true -> ends_with_newline d = false ->
  (String.length d < 253)%nat ->
  malformed (d +:+ NL) /\ is_valid_domain (d +:+ NL) = true.
Proof.
  intros Hv Hnl Hlen. pose proof (valid_word _ Hv Hnl) as Hw. split.
  - right. right. rewrite any_app. apply orb_true_intro. by right.
  - rewrite is_valid_domain_eq.
    apply andb_true_intro. split; [apply andb_true_intro; split|].
    + destruct d; done.
    + apply Z.leb_le. rewrite length_app. cbn. lia.
    + unfold Re.match_anchored, NL. rewrite unsnoc_app.
      apply matches_lang in Hw. rewrite Hw. by rewrite orb_true_r.
Qed.

(** [normalize_domain] keeps the line feed that stands between a host and
    its port. *)
Lemma normalize_fed d :
  is_valid_domain d = true -> ends_with_newline d = false ->
  Str.startswith d "www." = false ->
  normalize_domain (d +:+ NL +:+ ":80") = d +:+ NL.
Proof.
  intros Hv Hnl Hw4. pose proof (valid_chars _ Hv Hnl) as Hc.
  assert (Str.any (Chars.eqc "/") d = false) as Hs
    by (eapply all_not_any; [apply ishost_not_slash | done]).
  assert (Str.any (Chars.eqc ":") d = false) as Hcol
    by (eapply all_not_any; [apply ishost_not_colon | done]).
  rewrite <- app_assoc.
  rewrite UrlFacts.normalize_schemeless.
  - unfold strip_www, Str.lower.
    assert (Str.map Chars.lower (d +:+ NL) = d +:+ NL) as ->.
    { pose proof (lower_clean _ Hc) as Hl. unfold Str.lower in Hl.
      clear -Hl. induction d as [|c d IH]; [done|].
      rewrite app_cons. cbn [Str.map] in *.
      injection Hl as Hc Hd. by rewrite Hc, (IH Hd). }
    assert (Str.startswith (d +:+ NL) "www." = false) as ->; [|done].
    unfold Str.startswith in *.
    destruct (Str.strip_prefix "www." d) eqn:E; [done|].
    by rewrite (strip_prefix_line_feed "www." d eq_refl E).
  - rewrite any_app, Hs. done.
  - rewrite any_app, Hcol. done.
  - right. right. done.
  - rewrite app_assoc. clear -Hs. induction d as [|c d IH]; [done|].
    cbn [Str.any] in Hs. apply orb_false_elim in Hs as [Hc Hs].
    rewrite eqc_eqb in Hc.
    rewrite app_cons. cbn [Str.partition Str.strip_prefix].
    rewrite Hc. by rewrite (IH Hs).
  - rewrite app_assoc. unfold Str.strip.
    assert (Str.lstrip (d +:+ NL +:+ ":80") = d +:+ NL +:+ ":80") as ->.
    { destruct d as [|c d]; [done|]. cbn [Str.all] in Hc.
      apply andb_prop in Hc as [Hc _]. rewrite app_cons.
      cbn [Str.lstrip]. by rewrite (ishost_not_space _ Hc). }
    clear. induction d as [|c d IH]; [done|].
    rewrite app_cons. cbn [Str.rstrip]. rewrite IH. by destruct d.
Qed.

End ValidatorFacts.

(** C6, on the code: [normalize_domain] drops the scheme (the text up to
    and including the first [//]), the path (from the first [/]), the port
    (from the first [:]), lower-cases and drops one leading [www.], with or
    without a scheme; whatever the input, a normalized host that is a
    loopback literal or a dotted quad is not valid, nor is one that is
    malformed (empty, without a dot, or with a character outside
    [[a-z0-9.-]]) unless it ends with a line feed; an input that is itself
    a loopback literal, a dotted quad or a string without a dot normalizes
    to an invalid host; and ["https://WWW.Example.com/path"] normalizes to
    ["example.com"], which is valid. But a line feed at the end of the
    host gets through: for every valid host [d], the scheme-less, path-less
    input made of [d], a line feed and [:80] normalizes to [d] followed by
    the line feed, which is malformed and which [is_valid_domain]
    accepts. *)
Theorem normalize_then_validate :
  (forall pre host rest,
      Str.any (Chars.eqc "/") pre = false ->
      Str.any (Chars.eqc "/") host = false ->
      Str.any (Chars.eqc ":") host = false ->
      rest = "" \/ Str.startswith rest "/" = true \/ Str.startswith rest ":" = true ->
      Str.strip (pre +:+ "//" +:+ host +:+ rest) = pre +:+ "//" +:+ host +:+ rest ->
      normalize_domain (pre +:+ "//" +:+ host +:+ rest) = strip_www (Str.lower host)) /\
  (forall host rest,
      Str.any (Chars.eqc "/") host = false ->
      Str.any (Chars.eqc ":") host = false ->
      rest = "" \/ Str.startswith rest "/" = true \/ Str.startswith rest ":" = true ->
      Str.partition "//" (host +:+ rest) = None ->
      Str.strip (host +:+ rest) = host +:+ rest ->
      normalize_domain (host +:+ rest) = strip_www (Str.lower host)) /\
  (forall raw,
      normalize_domain raw ∈ blocked_hosts \/
      dotted_quad (normalize_domain raw) \/
      (malformed (normalize_domain raw) /\
       ends_with_newline (normalize_domain raw) = false) ->
      is_valid_domain (normalize_domain raw) = false) /\
  (forall raw,
      raw ∈ blocked_hosts \/ dotted_quad raw \/ Str.any (Chars.eqc ".") raw = false ->
      is_valid_domain (normalize_domain raw) = false) /\
  (forall d,
      is_valid_domain d = true -> ends_with_newline d = false ->
      (String.length d < 253)%nat -> Str.startswith d "www." = false ->
      normalize_domain (d +:+ NL +:+ ":80") = d +:+ NL /\
      malformed (d +:+ NL) /\
      is_valid_domain (d +:+ NL) = true) /\
  normalize_domain "https://WWW.Example.com/path" = "example.com" /\
  is_valid_domain "example.com" = true.
Proof.
  split; [exact UrlFacts.normalize_url|].
  split; [exact UrlFacts.normalize_schemeless|].
  split; [|split; [exact UrlFacts.raw_invalid|split; [|by vm_compute]]].
  - intros raw [H|[H|[H Hn]]].
    + by apply UrlFacts.blocked_invalid.
    + by apply UrlFacts.dotted_quad_invalid.
    + by apply ValidatorFacts.malformed_invalid.
  - intros d Hv Hnl Hlen Hw. split; [by apply ValidatorFacts.normalize_fed|].
    by apply ValidatorFacts.fed_valid.
Qed.

Lemma normalize_then_validate_witness :
  normalize_domain ("https:" +:+ "//" +:+ "WWW.Example.com" +:+ ":8443/a/b")
    = strip_www (Str.lower "WWW.Example.com") /\
  normalize_domain ("WWW.Example.com" +:+ ":8443/a/b")
    = strip_www (Str.lower "WWW.Example.com") /\
  is_valid_domain (normalize_domain "http://127.0.0.1:8080/admin") = false /\
  is_valid_domain (normalize_domain "HTTP://LocalHost/") = false /\
  is_valid_domain (normalize_domain "not a url") = false /\
  is_valid_domain (normalize_domain "intranet/wiki") = false /\
  (normalize_domain ("example.com" +:+ NL +:+ ":80") = "example.com" +:+ NL /\
   malformed ("example.com" +:+ NL) /\
   is_valid_domain ("example.com" +:+ NL) = true).
Proof.
  destruct normalize_then_validate as (Hurl & Hbare & Hbad & Hraw & Hfed & _).
  split; [|split; [|split; [|split; [|split; [|split]]]]].
  - apply Hurl; vm_compute; auto.
  - apply Hbare; vm_compute; auto.
  - apply Hbad. right. left.
    exists "127", "0", "0", "1". vm_compute. repeat split; repeat constructor.
  - apply Hbad. left. vm_compute. apply list_elem_of_here.
  - apply Hbad. right. right. split; [|by vm_compute]. right. right. by vm_compute.
  - apply Hraw. right. right. by vm_compute.
  - apply Hfed; [by vm_compute|by vm_compute|vm_compute; lia|by vm_compute].
Defined.

Example validator_cases :
  is_valid_domain "a.b.c.com" = true /\
  is_valid_domain "x.y" = false /\
  is_valid_domain "1.2.3.4.5" = false /\
  is_valid_domain "999.999.999.999" = false /\
  is_valid_domain "Example.com" = false /\
  is_valid_domain "example.com:80" = false /\
  is_valid_domain ("example.com" +:+ NL) = true /\
  normalize_domain "  HTTP://WWW.Example.COM:8080/a//b?c=d  " = "example.com" /\
  normalize_domain "example.com/a//b" = "b".
Proof. by vm_compute. Qed.

Example robots_lines :
  splitlines ("User-agent: *" +:+ NL +:+ "Crawl-delay: 3" +:+ String "013" NL +:+ "Disallow: /x")
  = ["User-agent: *"; "Crawl-delay: 3"; "Disallow: /x"] /\
  Re.matches_prefix crawl_delay_re "  CRAWL-Delay : 2.5 # polite" = true /\
  Re.matches_prefix crawl_delay_re "crawldelay:10" = true /\
  Re.matches_prefix crawl_delay_re "Crawl-delay: soon" = false /\
  Re.matches_prefix crawl_delay_re "# Crawl-delay: 3" = false.
Proof. by vm_compute. Qed.

Example rejected_hosts :
  is_valid_domain (normalize_domain "http://localhost:3000/x") = false /\
  is_valid_domain (normalize_domain "10.0.0.1") = false /\
  is_valid_domain (normalize_domain "https://192.168.1.10/login") = false /\
  is_valid_domain (normalize_domain "intranet") = false /\
  is_valid_domain (normalize_domain "") = false /\
  is_valid_domain (normalize_domain "http://exa mple.com") = false.
Proof. by vm_compute. Qed.

(** C7, as the code has it: every element of [unique_sorted urls] is
    valid; an element that neither starts with [www.] nor ends with a line
    feed is a fixed point of [normalize_domain]; and when no element of
    the output starts with [www.] or ends with a line feed,
    [unique_sorted] maps the output to itself. *)
Theorem unique_sorted_idempotent_on_clean_output (urls : list string) :
  Forall (fun d => is_valid_domain d = true) (unique_sorted urls) /\
  Forall (fun d => Str.startswith d "www." = false ->
                   ends_with_newline d = false ->
                   normalize_domain d = d) (unique_sorted urls) /\
  (Forall (fun d => Str.startswith d "www." = false /\
                    ends_with_newline d = false) (unique_sorted urls) ->
   unique_sorted (unique_sorted urls) = unique_sorted urls).
Proof.
  pose proof (DomainFacts.unique_sorted_valid urls) as Hv.
  assert (Forall (fun d => Str.startswith d "www." = false ->
                           ends_with_newline d = false ->
                           normalize_domain d = d) (unique_sorted urls)) as Hf.
  { eapply Forall_impl; [exact Hv|]. intros d Hd Hw Hn.
    apply DomainFacts.normalize_clean; [|done].
    by apply DomainFacts.valid_chars. }
  split; [done|]. split; [done|].
  intros Hc. apply DomainFacts.unique_sorted_fixed; [| |done|].
  - apply DomainFacts.py_sorted_Sorted.
  - apply DomainFacts.py_sorted_NoDup.
  - rewrite Forall_forall in Hf, Hc |- *. intros d Hd.
    destruct (Hc d Hd). by apply Hf.
Qed.

Lemma unique_sorted_idempotent_on_clean_output_witness :
  unique_sorted
    (unique_sorted ["http://A.com/x"; "https://a.com/y"; "http://www.a.com";
                    "https://b.org:443/"; "http://localhost/"])
  = unique_sorted ["http://A.com/x"; "https://a.com/y"; "http://www.a.com";
                   "https://b.org:443/"; "http://localhost/"].
Proof.
  apply (unique_sorted_idempotent_on_clean_output
           ["http://A.com/x"; "https://a.com/y"; "http://www.a.com";
            "https://b.org:443/"; "http://localhost/"]).
  vm_compute. repeat constructor.
Defined.

(** C7 as stated fails: only one leading [www.] is dropped, so an output
    element can still start with [www.]; it is then not a fixed point of
    [normalize_domain], and a second pass changes the list. *)
Lemma unique_sorted_not_idempotent :
  unique_sorted ["http://www.www.example.com/"] = ["www.example.com"] /\
  unique_sorted (unique_sorted ["http://www.www.example.com/"]) = ["example.com"] /\
  normalize_domain "www.example.com" = "example.com" /\
  unique_sorted (unique_sorted ["http://www.www.example.com/"])
    <> unique_sorted ["http://www.www.example.com/"].
Proof. by vm_compute. Qed.

(** ** The backoff schedule *)

Module BackoffFacts.

Section generic.
Context {F : Type} `{Number F}.

Lemma backoff_loop (base max_s : F) (n : nat) :
  Nat.iter n (backoff_step max_s) ([], base)
  = (delay_at base max_s <$> seq 0 n, delay_at base max_s n).
Proof.
  induction n as [|n IH]; [done|].
  cbn [Nat.iter nat_rect]. change (nat_rect _ _ _ n) with
    (Nat.iter n (backoff_step max_s) (@nil F, base)).
  rewrite IH. unfold backoff_step.
  rewrite seq_S, fmap_app. done.
Qed.

Lemma backoff_delays_eq (base max_s : F) (attempts : Z) :
  backoff_delays base max_s attempts
  = delay_at base max_s <$> seq 0 (Z.to_nat (attempts - 1)).
Proof.
  unfold backoff_delays. rewrite backoff_loop. cbn [fst].
  f_equal. f_equal. lia.
Qed.

Lemma backoff_delays_length (base max_s : F) (attempts : Z) :
  length (backoff_delays base max_s attempts) = Z.to_nat (attempts - 1).
Proof. by rewrite backoff_delays_eq, length_fmap, length_seq. Qed.

Lemma backoff_delays_lookup (base max_s : F) (attempts : Z) (i : nat) :
  (i < Z.to_nat (attempts - 1))%nat ->
  backoff_delays base max_s attempts !! i = Some (delay_at base max_s i).
Proof.
  intros Hi. rewrite backoff_delays_eq, list_lookup_fmap.
  by rewrite lookup_seq_lt.
Qed.
End generic.

(** On the rationals Python's [min] is the minimum. *)
Lemma py_min_Qmin (a b : Q) : (py_min a b == Qmin a b)%Q.
Proof.
  unfold py_min. cbn [num_ltb Q_number]. unfold Qltb.
  destruct (Qle_bool a b) eqn:E; simpl.
  - apply Qle_bool_iff in E. symmetry. by apply Q.min_l.
  - assert (~ (a <= b)%Q) as Hn by (rewrite <- Qle_bool_iff; congruence).
    apply Qnot_le_lt in Hn. symmetry. apply Q.min_r. by apply Qlt_le_weak.
Qed.

Lemma pow2_S i : (inject_Z (2 ^ Z.of_nat (S i)) == inject_Z (2 ^ Z.of_nat i) * 2)%Q.
Proof.
  rewrite Nat2Z.inj_succ, Z.pow_succ_r by lia.
  rewrite inject_Z_mult. apply Qmult_comm.
Qed.

Lemma Qmin_double (m x : Q) :
  (0 <= m)%Q -> (Qmin m (Qmin m x * 2) == Qmin m (x * 2))%Q.
Proof.
  intros Hm.
  destruct (Q.min_spec m x) as [[H1 E1]|[H1 E1]],
           (Q.min_spec m (Qmin m x * 2)) as [[H2 E2]|[H2 E2]],
           (Q.min_spec m (x * 2)) as [[H3 E3]|[H3 E3]];
    rewrite E2, E3; lra.
Qed.

(** The closed form: from the second delay on, [min(max, base * 2^i)]. *)
Lemma delay_at_closed (base max_s : Q) (i : nat) :
  (0 <= max_s)%Q ->
  (delay_at base max_s (S i)
   == Qmin max_s (base * inject_Z (2 ^ Z.of_nat (S i))))%Q.
Proof.
  intros Hm. induction i as [|i IH].
  - cbn [delay_at]. rewrite py_min_Qmin. cbn [num_mul num_two Q_number].
    apply Q.min_compat; [done|]. by vm_compute.
  - change (delay_at base max_s (S (S i)))
      with (py_min max_s (delay_at base max_s (S i) * 2)%Q).
    rewrite py_min_Qmin.
    transitivity (Qmin max_s (Qmin max_s (base * inject_Z (2 ^ Z.of_nat (S i))) * 2))%Q.
    { apply Q.min_compat; [done|]. by apply Qmult_comp. }
    rewrite (Qmin_double _ _ Hm).
    apply Q.min_compat; [done|].
    rewrite (pow2_S (S i)). by rewrite Qmult_assoc.
Qed.

End BackoffFacts.

(** C5: [backoff_delays base max attempts] has [attempts - 1] elements
    (none when [attempts] is below 2); the first is [base] and each next one
    is the minimum of [max] and twice the one before, which for a ceiling
    that is not negative is [min(max, base * 2^i)] at index [i >= 1]; and on
    floats [backoff_delays 0.5 8.0 5] is exactly [[0.5; 1.0; 2.0; 4.0]]. *)
Theorem backoff_delays_schedule :
  (forall (F : Type) (N : Number F) (base max_s : F) (attempts : Z),
      length (backoff_delays base max_s attempts) = Z.to_nat (attempts - 1) /\
      (1 <= attempts -> len (backoff_delays base max_s attempts) = attempts - 1) /\
      (forall i, (i < Z.to_nat (attempts - 1))%nat ->
                 backoff_delays base max_s attempts !! i
                 = Some (delay_at base max_s i)) /\
      delay_at base max_s 0 = base /\
      (forall i, delay_at base max_s (S i)
                 = py_min max_s (num_mul (delay_at base max_s i) num_two))) /\
  (forall (base max_s : Q) (attempts : Z) (i : nat),
      (0 <= max_s)%Q -> (1 <= i < Z.to_nat (attempts - 1))%nat ->
      exists d, backoff_delays base max_s attempts !! i = Some d /\
                (d == Qmin max_s (base * inject_Z (2 ^ Z.of_nat i)))%Q) /\
  backoff_delays 0.5%float 8%float 5 = [0.5; 1; 2; 4]%float.
Proof.
  split; [|split].
  - intros F N base max_s attempts.
    pose proof (BackoffFacts.backoff_delays_length base max_s attempts) as HL.
    split; [done|]. split; [unfold len; lia|].
    split; [apply BackoffFacts.backoff_delays_lookup|]. done.
  - intros base max_s attempts i Hm [Hi1 Hi2].
    exists (delay_at base max_s i).
    split; [by apply BackoffFacts.backoff_delays_lookup|].
    destruct i as [|i]; [lia|]. by apply BackoffFacts.delay_at_closed.
  - by vm_compute.
Qed.

Lemma backoff_delays_schedule_witness :
  len (backoff_delays 0.5%float 8%float 5) = 4 /\
  exists d, backoff_delays (1 # 2)%Q 8%Q 7 !! 5%nat = Some d /\
            (d == Qmin 8 ((1 # 2) * inject_Z (2 ^ Z.of_nat 5)))%Q.
Proof.
  destruct backoff_delays_schedule as (Hgen & Hq & _).
  split.
  - apply (Hgen float float_number 0.5%float 8%float 5). lia.
  - apply (Hq (1 # 2)%Q 8%Q 7 5%nat); [by vm_compute | vm_compute; lia].
Defined.

Example backoff_delays_capped :
  backoff_delays 0.5%float 8%float 8 = [0.5; 1; 2; 4; 8; 8; 8]%float /\
  backoff_delays 0.5%float 8%float 1 = [] /\
  backoff_delays 0.5%float 8%float 0 = [] /\
  backoff_delays 0.5%float 8%float 3 = [0.5; 1]%float.
Proof. by vm_compute. Qed.

(** ** Runs: frame rules and the primitive effects *)

Module RunFacts.

Lemma bind_unfold {A B} (m : M A) (k : A -> M B) (w : World) :
  (m ≫= k) w = match m w with
               | Done a w' => k a w'
               | Stopped why w' => Stopped why w'
               end.
Proof. reflexivity. Qed.

Lemma ret_unfold {A} (a : A) (w : World) : (mret a : M A) w = Done a w.
Proof. reflexivity. Qed.

Section keeps.
Context {B : Type} (f : World -> B).

Lemma keeps_ret {A} (a : A) : keeps f (mret a : M A).
Proof. by intros w. Qed.

Lemma keeps_out_of_fuel {A} : keeps f (@out_of_fuel A).
Proof. by intros w. Qed.

Lemma keeps_raise {A} : keeps f (@raise A).
Proof. by intros w. Qed.

Lemma keeps_lift {A} (o : option A) : keeps f (lift o).
Proof. intros w. by destruct o. Qed.

Lemma keeps_bind {A C} (m : M A) (k : A -> M C) :
  keeps f m -> (forall a, keeps f (k a)) -> keeps f (m ≫= k).
Proof.
  intros Hm Hk w. rewrite bind_unfold. specialize (Hm w).
  destruct (m w) as [a w1|w1]; [|done].
  specialize (Hk a w1). destruct (k a w1); congruence.
Qed.

(** A sleep writes [sleeps] only, also when it raises. *)
Lemma sleep_keeps env d :
  (forall w, f {| gets := gets w; robots_fetches := robots_fetches w;
                  searches := searches w; draws := draws w;
                  sleeps := d :: sleeps w; log := log w; files := files w |}
             = f w) ->
  keeps f (sleep env d).
Proof. intros H w. unfold sleep. destruct (sleep_accepts env d); [apply H | done]. Qed.
End keeps.

(** Solves [keeps f m] for a projection [f] that [m] does not write, by
    following the shape of [m]. *)
Ltac frame :=
  lazymatch goal with
  | |- keeps _ (mbind _ _) => apply keeps_bind; [frame | intros ?; frame]
  | |- keeps _ (mret _) => apply keeps_ret
  | |- keeps _ out_of_fuel => apply keeps_out_of_fuel
  | |- keeps _ raise => apply keeps_raise
  | |- keeps _ (lift _) => apply keeps_lift
  | |- keeps _ (if ?c then _ else _) => destruct c; frame
  | |- keeps _ (match ?x with _ => _ end) => destruct x; frame
  | |- keeps _ (let _ := _ in _) => cbv zeta; frame
  | |- keeps _ _ => first [ by intros ? | eauto ]
  end.

(** A component that logging, sleeping and drawing random numbers do
    not write is kept by everything built from them and from the
    requests it is also told to be kept by. *)
Section frames.
Context {B : Type} (f : World -> B).
Context (Hlog : forall l msg, keeps f (log_record l msg)).
Context (Hsleep : forall env d, keeps f (sleep env d)).
Context (Hrand : forall env a b, keeps f (random_uniform env a b)).

Lemma limiter_keeps env rps j : keeps f (RateLimiter_wait env rps j).
Proof. unfold RateLimiter_wait. frame. Qed.

Lemma respect_keeps env d : keeps f (_respect_ddg_delay env d).
Proof. unfold _respect_ddg_delay. frame. Qed.

Lemma dry_run_report_keeps env ps : keeps f (dry_run_report env ps).
Proof. induction ps as [|[] ps IH]; cbn [dry_run_report]; frame. Qed.

Lemma google_init_keeps env cfg : keeps f (GoogleCSEProvider_init env cfg).
Proof. unfold GoogleCSEProvider_init. frame. Qed.

Section google.
Context (Hget : forall env p, keeps f (http_get env p)).

Lemma google_attempts_keeps fuel env params delays attempt results :
  keeps f (google_attempts fuel env params delays attempt results).
Proof.
  revert attempt. induction fuel as [|fuel IH]; intros attempt;
    cbn [google_attempts]; frame.
Qed.

Lemma google_pages_keeps pages fuel env b k c kw mr delays start results :
  keeps f (google_pages pages fuel env b k c kw mr delays start results).
Proof.
  revert start results. induction pages as [|pages IH]; intros start results;
    cbn [google_pages].
  - frame.
  - destruct (_ && _); [|frame].
    apply keeps_bind; [apply limiter_keeps|intros _].
    apply keeps_bind; [apply google_attempts_keeps|intros r]. frame.
Qed.

Lemma google_query_keeps fuel env b k c kw mr :
  keeps f (google_query fuel env b k c kw mr).
Proof.
  unfold google_query. destruct (negb _); [frame|].
  destruct (negb _); [frame|].
  apply keeps_bind; [apply google_pages_keeps|intros r]. frame.
Qed.
End google.

Section ddg.
Context (Hsearch : forall env kw mr, keeps f (ddg_search env kw mr)).

Lemma ddg_attempts_keeps fuel env kw mr delays attempt results :
  keeps f (ddg_attempts fuel env kw mr delays attempt results).
Proof.
  revert attempt results. induction fuel as [|fuel IH]; intros attempt results;
    cbn [ddg_attempts]; frame.
Qed.

Lemma ddg_query_keeps fuel env b a d kw mr :
  keeps f (ddg_query fuel env b a d kw mr).
Proof.
  unfold ddg_query. destruct (negb _); [frame|].
  destruct (negb _); [frame|].
  apply keeps_bind; [apply limiter_keeps|intros _].
  apply keeps_bind; [apply respect_keeps|intros _].
  apply keeps_bind; [apply ddg_attempts_keeps|intros r]. frame.
Qed.
End ddg.

Section robots.
Context (Hrobots : forall env url, keeps f (robots_fetch env url)).

Lemma fetch_robots_keeps env host ua : keeps f (fetch_robots_and_delay env host ua).
Proof. unfold fetch_robots_and_delay. frame. Qed.

Lemma ddg_init_keeps env cfg : keeps f (DuckDuckGoProvider_init env cfg).
Proof.
  unfold DuckDuckGoProvider_init.
  apply keeps_bind; [apply keeps_lift|intros b].
  apply keeps_bind; [apply fetch_robots_keeps|intros [? ?]]. frame.
Qed.

Lemma build_provider_keeps selected e init :
  (forall cfg, keeps f (init cfg)) -> keeps f (build_provider selected e init).
Proof.
  intros Hinit. unfold build_provider. destruct selected; [|frame].
  apply keeps_bind; [apply keeps_lift|intros [|]]; [|frame].
  apply keeps_bind; [apply Hinit|intros ?]. frame.
Qed.

Lemma build_providers_keeps env choice doc : keeps f (build_providers env choice doc).
Proof.
  unfold build_providers.
  apply keeps_bind; [apply build_provider_keeps, google_init_keeps|intros ps1].
  apply keeps_bind; [apply build_provider_keeps, ddg_init_keeps|intros ps2]. frame.
Qed.
End robots.

Section queries.
Context (Hget : forall env p, keeps f (http_get env p)).
Context (Hsearch : forall env kw mr, keeps f (ddg_search env kw mr)).

Lemma query_keeps fuel env p kw mr : keeps f (query fuel env p kw mr).
Proof.
  destruct p; cbn [query];
    [by apply google_query_keeps | by apply ddg_query_keeps].
Qed.

Lemma query_providers_keeps fuel env kw mr ps t :
  keeps f (query_providers fuel env kw mr ps t).
Proof.
  revert t. induction ps as [|p ps IH]; intros t; cbn [query_providers]; [frame|].
  destruct (negb _).
  - apply keeps_bind; [apply Hlog|intros _].
    apply keeps_bind; [apply IH|intros [? ?]]. frame.
  - apply keeps_bind; [apply query_keeps|intros [? ?]].
    apply keeps_bind; [apply IH|intros [? ?]]. frame.
Qed.

Lemma orchestrate_keeps fuel env kws mr ps t :
  keeps f (orchestrate fuel env kws mr ps t).
Proof.
  revert ps t. induction kws as [|kw kws IH]; intros ps t;
    cbn [orchestrate]; [frame|].
  apply keeps_bind; [apply query_providers_keeps|intros [? ?]]. apply IH.
Qed.
End queries.
End frames.

(** An accepted sleep returns. *)
Lemma sleep_returns env d w :
  sleep_accepts env d = true ->
  sleep env d w
  = Done tt {| gets := gets w; robots_fetches := robots_fetches w;
               searches := searches w; draws := draws w; sleeps := d :: sleeps w;
               log := log w; files := files w |}.
Proof. intros H. unfold sleep. by rewrite H. Qed.

(** The limiter returns when its delay is one [time.sleep] takes. *)
Lemma limiter_returns env b w :
  limiter_accepted env b ->
  exists w', _sleep_limiter env b w = Done tt w'.
Proof.
  intros Hacc. unfold _sleep_limiter, RateLimiter_wait.
  destruct (PrimFloat.leb _ _) eqn:Hrps; [by eexists|].
  rewrite bind_unfold. unfold random_uniform at 1.
  specialize (Hacc (draws w) Hrps). unfold limiter_delay in Hacc.
  destruct (PrimFloat.ltb _ _) eqn:Hd; [|by eexists].
  rewrite sleep_returns by (by apply Hacc). by eexists.
Qed.

Lemma respect_returns env d w :
  crawl_delay_accepted env d ->
  exists w', _respect_ddg_delay env d w = Done tt w'.
Proof.
  unfold _respect_ddg_delay, crawl_delay_accepted. destruct d as [d|]; [|by eexists].
  intros Hacc. destruct (_ && _); [|by eexists].
  rewrite sleep_returns by (by apply Hacc). by eexists.
Qed.

End RunFacts.

(** ** The retry loops *)

Module RetryFacts.
Import RunFacts.

Lemma delays_nonempty (b : BaseProvider) :
  2 <= retry_attempts b -> _delays b <> [].
Proof.
  intros H2 E. apply (f_equal length) in E.
  unfold _delays in E. rewrite BackoffFacts.backoff_delays_length in E.
  simpl in E. lia.
Qed.

(** With a delay to sleep, the index the Google loop computes is always
    within range: it is clamped to the last delay. *)
Lemma clamped_index_in_range (delays : list float) (attempt : Z) :
  delays <> [] -> 0 <= attempt ->
  (0 <=? Z.min (attempt + 1 - 1) (len delays - 1))
  && (Z.min (attempt + 1 - 1) (len delays - 1) <? len delays) = true.
Proof.
  intros Hne Ha. unfold len. destruct delays as [|d delays]; [done|].
  cbn [length]. apply andb_true_intro. split; [apply Z.leb_le | apply Z.ltb_lt]; lia.
Qed.

(** A delay the loops index within range is one of the schedule. *)
Lemma delay_index_accepted env (delays : list float) (idx : Z) :
  Forall (fun d => sleep_accepts env d = true) delays ->
  (0 <=? idx) && (idx <? len delays) = true ->
  sleep_accepts env (delay_index delays idx) = true.
Proof.
  intros Hall Hidx. apply andb_prop in Hidx as [H0 H1].
  apply Z.leb_le in H0. apply Z.ltb_lt in H1. unfold len in H1.
  unfold delay_index.
  destruct (delays !! Z.to_nat idx) as [d|] eqn:E.
  - cbn. rewrite Forall_forall in Hall. apply Hall.
    by apply list_elem_of_lookup_2 in E.
  - apply lookup_ge_None in E. lia.
Qed.

Lemma google_attempts_never_give_up fuel env params delays attempt results w :
  delays <> [] -> 0 <= attempt ->
  Forall (fun d => sleep_accepts env d = true) delays ->
  (forall n p, retryable (google_get env n p) = true) ->
  exists w',
    google_attempts fuel env params delays attempt results w = OutOfFuel w' /\
    length (gets w') = (length (gets w) + fuel)%nat /\
    length (sleeps w') = (length (sleeps w) + fuel)%nat.
Proof.
  intros Hne Ha Hacc Hretry. revert attempt Ha w.
  induction fuel as [|fuel IH]; intros attempt Ha w.
  - exists w. cbn. split; [done|]. lia.
  - cbn [google_attempts]. rewrite bind_unfold. unfold http_get at 1.
    specialize (Hretry (length (gets w)) params).
    pose proof (clamped_index_in_range delays attempt Hne Ha) as Hidx.
    pose proof (delay_index_accepted env delays _ Hacc Hidx) as Hok.
    destruct (google_get env (length (gets w)) params) as [code body| | |];
      cbn [retryable] in Hretry; try done.
    + destruct (code =? 200) eqn:E200.
      { apply Z.eqb_eq in E200. subst code. done. }
      rewrite Hretry, Hidx, Hok. rewrite bind_unfold.
      rewrite (sleep_returns _ _ _ Hok).
      edestruct (IH (attempt + 1)) as (w' & -> & Hg & Hs); [lia|].
      exists w'. split; [done|]. cbn in Hg, Hs. lia.
    + rewrite Hidx. rewrite bind_unfold. rewrite (sleep_returns _ _ _ Hok).
      edestruct (IH (attempt + 1)) as (w' & -> & Hg & Hs); [lia|].
      exists w'. split; [done|]. cbn in Hg, Hs. lia.
    + rewrite Hidx. rewrite bind_unfold. rewrite (sleep_returns _ _ _ Hok).
      edestruct (IH (attempt + 1)) as (w' & -> & Hg & Hs); [lia|].
      exists w'. split; [done|]. cbn in Hg, Hs. lia.
Qed.

(** The DuckDuckGo loop stops: a failure at attempt [i] is retried only
    while [i <= len delays]. *)
Lemma ddg_attempts_return fuel env kw mr delays attempt results w :
  0 <= attempt -> Z.max 0 (len delays - attempt) < Z.of_nat fuel ->
  Forall (fun d => sleep_accepts env d = true) delays ->
  exists res w',
    ddg_attempts fuel env kw mr delays attempt results w = Done res w' /\
    (length (searches w') <=
       length (searches w) + Z.to_nat (Z.max 1 (len delays + 1 - attempt)))%nat.
Proof.
  intros Ha Hfuel Hacc. revert attempt results w Ha Hfuel.
  induction fuel as [|fuel IH]; intros attempt results w Ha Hfuel.
  - lia.
  - cbn [ddg_attempts]. rewrite bind_unfold. unfold ddg_search at 1.
    destruct (raised _).
    + destruct (attempt + 1 <=? len delays) eqn:E.
      * apply Z.leb_le in E. rewrite bind_unfold.
        rewrite sleep_returns.
        2:{ apply delay_index_accepted; [done|].
            apply andb_true_intro. split; [apply Z.leb_le | apply Z.ltb_lt]; lia. }
        edestruct (IH (attempt + 1)) as (res & w' & -> & Hs); [lia|lia|].
        exists res, w'. split; [done|]. cbn in Hs. lia.
      * apply Z.leb_gt in E. eexists _, _. split; [reflexivity|]. cbn. lia.
    + eexists _, _. split; [reflexivity|]. cbn. lia.
Qed.

End RetryFacts.

(** C1, on the code: with credentials, quota left, [retry_attempts >= 2]
    and [max_results >= 1], and with limiter and backoff delays that
    [time.sleep] takes, a search API that keeps answering with a
    retryable failure keeps [GoogleCSEProvider.query] in its retry loop
    whatever the fuel: after [fuel] turns it has issued [fuel] requests
    and has not returned. *)
Theorem google_query_retries_without_bound
    (fuel : nat) (env : Env) (b : BaseProvider) (api_key cx kw : string)
    (max_results : Z) (w : World) :
  truthy api_key = true -> truthy cx = true ->
  can_continue b = true ->
  2 <= retry_attempts b -> 1 <= max_results ->
  limiter_accepted env b -> delays_accepted env b ->
  (forall n p, retryable (google_get env n p) = true) ->
  exists w',
    google_query fuel env b api_key cx kw max_results w = OutOfFuel w' /\
    length (gets w') = (length (gets w) + fuel)%nat.
Proof.
  intros Hk Hc Hq Hr Hm Hlim Hdel Hretry.
  unfold google_query. rewrite Hq, Hk, Hc. cbn [negb andb].
  rewrite RunFacts.bind_unfold.
  destruct fuel as [|fuel].
  - cbn [google_pages]. change (len (@nil string)) with 0.
    assert ((0 <? max_results) && (1 <=? 91) = true) as ->.
    { apply andb_true_intro. split; [apply Z.ltb_lt; lia | done]. }
    exists w. split; [done|]. lia.
  - cbn [google_pages]. change (len (@nil string)) with 0.
    assert ((0 <? max_results) && (1 <=? 91) = true) as ->.
    { apply andb_true_intro. split; [apply Z.ltb_lt; lia | done]. }
    rewrite RunFacts.bind_unfold.
    pose proof (RunFacts.limiter_keeps gets
                  (fun env d => RunFacts.sleep_keeps gets env d (fun _ => eq_refl))
                  (fun _ _ _ _ => eq_refl)
                  env (rate_limit_rps b) (jitter_percent b) w) as Hl.
    destruct (RunFacts.limiter_returns env b w Hlim) as (w1 & E).
    rewrite E. unfold _sleep_limiter in E. rewrite E in Hl.
    rewrite RunFacts.bind_unfold.
    edestruct (RetryFacts.google_attempts_never_give_up (S fuel) env)
      as (w' & -> & Hg & _); [by apply RetryFacts.delays_nonempty| |exact Hdel|done|].
    { reflexivity. }
    exists w'. split; [done|]. rewrite Hg, Hl. done.
Qed.

Lemma google_query_retries_without_bound_witness :
  exists w',
    google_query 1000 throttled_env (default_provider "google_cse")
      "secret" "secret" "plumber austin" 10 empty_world = OutOfFuel w' /\
    length (gets w') = (length (gets empty_world) + 1000)%nat.
Proof.
  apply (google_query_retries_without_bound 1000 throttled_env
           (default_provider "google_cse")
           "secret" "secret" "plumber austin" 10 empty_world).
  - reflexivity.
  - reflexivity.
  - reflexivity.
  - cbn; lia.
  - lia.
  - intros n _ _. vm_compute. reflexivity.
  - unfold delays_accepted. vm_compute. repeat constructor.
  - reflexivity.
Defined.

(** A delay that [time.sleep] rejects, here the first backoff delay of a
    provider configured with [backoff_base_seconds: -1]. After a 429 the
    sleep stands inside the [try]: the exception is logged as an unknown
    error and ends the page, ten times over, and the query returns,
    counted. After a timeout, and in the DuckDuckGo loop, the sleep stands
    in the handler: the exception leaves the query, which is not
    counted. *)
Example rejected_backoff_delay :
  sleep_accepts throttled_env (-1)%float = false /\
  (exists w',
      google_query 10 throttled_env (negative_backoff_provider "google_cse")
        "key" "cx" "plumber austin" 10 empty_world
      = Done ([], GoogleCSEProvider
                    (count_query (negative_backoff_provider "google_cse")) "key" "cx")
             w' /\
      length (gets w') = 10%nat /\
      level <$> log w' = replicate 10 WARNING /\
      message <$> log w' = replicate 10 "google unknown error") /\
  (exists w',
      google_query 10 timeout_env (negative_backoff_provider "google_cse")
        "key" "cx" "plumber austin" 10 empty_world = Raised w' /\
      length (gets w') = 1%nat) /\
  (exists w',
      ddg_query 10 throttled_env (negative_backoff_provider "duckduckgo") true None
        "plumber austin" 10 empty_world = Raised w' /\
      length (searches w') = 1%nat).
Proof.
  split; [by vm_compute|].
  split; [|split]; eexists; vm_compute; done.
Qed.

Example ddg_gives_up_after_budget :
  exists res w',
    ddg_query 1000 throttled_env (default_provider "duckduckgo")
      true None "plumber austin" 10 empty_world = Done res w' /\
    length (searches w') = 3%nat /\ sleeps w' = [1; 0.5; 2]%float.
Proof. eexists _, _. vm_compute. done. Qed.

(** ** One query *)

Module QueryFacts.
Import RunFacts.

(** A query that returns has counted itself exactly when the quota
    allowed it, and has done nothing at all otherwise. *)
Lemma query_inv fuel env p kw mr w res p' w' :
  query fuel env p kw mr w = Done (res, p') w' ->
  if can_continue (base_of p) then p' = counted p
  else p' = p /\ res = [] /\ w' = w.
Proof.
  destruct p as [b k c|b a d]; cbn [query base_of counted];
    unfold google_query, ddg_query; destruct (can_continue b); cbn [negb].
  - destruct (negb _).
    + by intros [= <- <- <-].
    + rewrite bind_unfold. destruct (google_pages _ _ _ _ _ _ _ _ _ _ _ w); [|done].
      by intros [= <- <- <-].
  - by intros [= <- <- <-].
  - destruct (negb _).
    + rewrite bind_unfold. unfold log_record at 1. by intros [= <- <- <-].
    + intros H.
      rewrite bind_unfold in H. destruct (_sleep_limiter env b w); [|done].
      rewrite bind_unfold in H. destruct (_respect_ddg_delay env d _); [|done].
      rewrite bind_unfold in H. destruct (ddg_attempts _ _ _ _ _ _ _ _); [|done].
      by injection H as <- <- <-.
  - by intros [= <- <- <-].
Qed.

Lemma query_advanced fuel env p kw mr w res p' w' :
  query fuel env p kw mr w = Done (res, p') w' -> advanced 1 p p'.
Proof.
  intros H%query_inv. unfold advanced.
  destruct (can_continue (base_of p)) eqn:E.
  - subst p'. unfold can_continue in E. apply Z.ltb_lt in E.
    destruct p; cbn in *; repeat split; first [done | lia].
  - destruct H as (-> & _ & _). repeat split; first [done | lia].
Qed.

Lemma ddg_query_returns fuel env b a d kw mr w :
  (length (_delays b) < fuel)%nat ->
  limiter_accepted env b -> crawl_delay_accepted env d -> delays_accepted env b ->
  exists res p' w', ddg_query fuel env b a d kw mr w = Done (res, p') w'.
Proof.
  intros Hfuel Hlim Hcrawl Hdel. unfold ddg_query.
  destruct (negb (can_continue b)); [by eexists _, _, _|].
  destruct (negb (ddgs_available env)); [by eexists _, _, _|].
  rewrite bind_unfold.
  destruct (limiter_returns env b w Hlim) as [w1 ->].
  rewrite bind_unfold. destruct (respect_returns env d w1 Hcrawl) as [w2 ->].
  rewrite bind_unfold.
  edestruct (RetryFacts.ddg_attempts_return fuel env kw mr (_delays b) 0 [] w2)
    as (res & w3 & -> & _); [done|unfold len; lia|exact Hdel|].
  by eexists _, _, _.
Qed.

Lemma google_query_offline fuel env b k c kw mr w :
  can_continue b = false \/ credentials_present k c = false ->
  exists res p', google_query fuel env b k c kw mr w = Done (res, p') w.
Proof.
  unfold google_query, credentials_present.
  destruct (can_continue b); cbn [negb]; [|by eexists _, _].
  intros [? | ->]; [done|]. by eexists _, _.
Qed.

(** The [ddg_allowed] field is carried along and never read. *)
Lemma ddg_query_ignores_allowed fuel env b a d kw mr w :
  ddg_query fuel env b a d kw mr w
  = run_map (fun rp => (rp.1, with_allowed a rp.2))
            (ddg_query fuel env b true d kw mr w).
Proof.
  unfold ddg_query.
  destruct (negb (can_continue b)); [done|].
  destruct (negb (ddgs_available env)); [done|].
  rewrite !bind_unfold. destruct (_sleep_limiter env b w) as [[] w1|w1]; [|done].
  rewrite !bind_unfold. destruct (_respect_ddg_delay env d w1) as [[] w2|w2]; [|done].
  rewrite !bind_unfold. by destruct (ddg_attempts _ _ _ _ _ _ _ _).
Qed.

End QueryFacts.

(** C2, as the code has it: a call of [query] that returns has
    incremented [queries_made] by exactly 1 if the quota was not exhausted
    (one increment whatever the pages and retries), and by 0 if it was: it
    then returns [[]] and does nothing else. A DuckDuckGo query whose
    limiter, crawl and backoff delays [time.sleep] takes returns once the
    fuel exceeds the number of delays; a Google query without quota or
    without credentials returns at once, leaving the world as it was. *)
Theorem query_counts_once_unless_exhausted :
  (forall fuel env p kw mr w res p' w',
      query fuel env p kw mr w = Done (res, p') w' ->
      queries_made (base_of p')
      = queries_made (base_of p) + (if can_continue (base_of p) then 1 else 0)
      /\ (can_continue (base_of p) = false -> res = [] /\ w' = w)) /\
  (forall fuel env b a d kw mr w,
      (length (_delays b) < fuel)%nat ->
      limiter_accepted env b -> crawl_delay_accepted env d ->
      delays_accepted env b ->
      exists res p' w',
        query fuel env (DuckDuckGoProvider b a d) kw mr w = Done (res, p') w') /\
  (forall fuel env b k c kw mr w,
      can_continue b = false \/ credentials_present k c = false ->
      exists res p',
        query fuel env (GoogleCSEProvider b k c) kw mr w = Done (res, p') w).
Proof.
  split; [|split].
  - intros fuel env p kw mr w res p' w' H%QueryFacts.query_inv.
    destruct (can_continue (base_of p)).
    + subst p'. split; [by destruct p | done].
    + destruct H as (-> & -> & ->). split; [lia | done].
  - intros. by apply QueryFacts.ddg_query_returns.
  - intros. by apply QueryFacts.google_query_offline.
Qed.

Lemma query_counts_once_unless_exhausted_witness :
  (exists res p' w',
      query 3 stub_env
        (DuckDuckGoProvider (default_provider "duckduckgo") true None)
        "plumber austin" 100 empty_world = Done (res, p') w' /\
      queries_made (base_of p') = 0 + 1) /\
  (exists res p',
      query 0 stub_env
        (GoogleCSEProvider (default_provider "google_cse") "" "")
        "plumber austin" 100 empty_world = Done (res, p') empty_world).
Proof.
  destruct query_counts_once_unless_exhausted as (Hcount & Hddg & Hgoogle).
  split.
  - destruct (Hddg 3%nat stub_env (default_provider "duckduckgo")
                true None "plumber austin" 100 empty_world)
      as (res & p' & w' & E).
    { vm_compute; lia. }
    { intros n _ _. vm_compute. reflexivity. }
    { exact I. }
    { unfold delays_accepted. vm_compute. repeat constructor. }
    exists res, p', w'. split; [exact E|].
    exact (proj1 (Hcount _ _ _ _ _ _ _ _ _ E)).
  - apply Hgoogle. right. reflexivity.
Defined.

(** C2 as stated fails on an exhausted quota: the call returns before the
    increment. *)
Lemma query_on_exhausted_quota_does_not_count :
  let b := quota_provider "duckduckgo" 0 in
  BaseProvider_init "duckduckgo" (quota_cfg 0) = Some b /\
  query 5 stub_env (DuckDuckGoProvider b true None) "plumber austin" 10 empty_world
    = Done ([], DuckDuckGoProvider b true None) empty_world /\
  queries_made b = 0 /\
  query 5 stub_env (GoogleCSEProvider b "key" "cx") "plumber austin" 10 empty_world
    = Done ([], GoogleCSEProvider b "key" "cx") empty_world.
Proof. by vm_compute. Qed.

(** ** The constructors *)

Module InitFacts.
Import RunFacts.

Lemma lift_unfold {A} (o : option A) (w : World) :
  lift o w = match o with Some a => Done a w | None => Raised w end.
Proof. reflexivity. Qed.

(** What [BaseProvider.__init__] builds, when it returns. *)
Lemma init_fresh nm cfg b :
  BaseProvider_init nm cfg = Some b -> name b = nm /\ queries_made b = 0.
Proof.
  unfold BaseProvider_init. intros H.
  destruct (setting _ (cfg_daily_quota_threshold cfg)); [|done].
  destruct (setting _ (cfg_rate_limit_rps cfg)); [|done].
  destruct (setting _ (cfg_jitter_percent cfg)); [|done].
  destruct (setting _ (cfg_retry_attempts cfg)); [|done].
  destruct (setting _ (cfg_backoff_base_seconds cfg)); [|done].
  destruct (setting _ (cfg_backoff_max_seconds cfg)); [|done].
  cbn in H. by injection H as <-.
Qed.

(** Whether [BaseProvider.__init__] returns does not depend on the name
    it is given. *)
Lemma init_converts nm nm' cfg :
  is_some (BaseProvider_init nm cfg) = is_some (BaseProvider_init nm' cfg).
Proof.
  unfold BaseProvider_init.
  destruct (setting _ (cfg_daily_quota_threshold cfg)); [|done].
  destruct (setting _ (cfg_rate_limit_rps cfg)); [|done].
  destruct (setting _ (cfg_jitter_percent cfg)); [|done].
  destruct (setting _ (cfg_retry_attempts cfg)); [|done].
  destruct (setting _ (cfg_backoff_base_seconds cfg)); [|done].
  by destruct (setting _ (cfg_backoff_max_seconds cfg)).
Qed.

(** The Google constructor returns exactly when the values it converts
    are accepted; it raises before anything has happened. *)
Lemma google_init_outcome env cfg w :
  if google_converts cfg then
    exists b api_key cx w',
      GoogleCSEProvider_init env cfg w = Done (GoogleCSEProvider b api_key cx) w' /\
      (api_key, cx) = google_credentials env cfg /\
      offline w w' /\ sleeps w' = sleeps w /\
      queries_made b = 0 /\
      log w' = if credentials_present api_key cx then log w
               else {| level := WARNING; message := missing_credentials_warning |}
                      :: log w
  else GoogleCSEProvider_init env cfg w = Raised w.
Proof.
  unfold GoogleCSEProvider_init, google_converts, google_credentials, credentials_present.
  rewrite bind_unfold, lift_unfold.
  destruct (BaseProvider_init "google_cse" cfg) as [b|] eqn:Eb; cbn [is_some andb]; [|done].
  rewrite bind_unfold, lift_unfold.
  destruct (setting "GOOGLE_API_KEY" (cfg_api_key_env cfg)) as [kn|];
    cbn [is_some andb]; [|done].
  rewrite bind_unfold, lift_unfold.
  destruct (setting "GOOGLE_CSE_ID" (cfg_cx_env cfg)) as [cn|];
    cbn [is_some andb mbind option_bind]; [|done].
  destruct (init_fresh _ _ _ Eb) as [_ Hq].
  set (k := default "" (getenv env kn)). set (c := default "" (getenv env cn)).
  destruct (truthy k) eqn:Ek, (truthy c) eqn:Ec; cbn [negb orb andb];
    eexists _, _, _, _; (split; [reflexivity|]); rewrite Ek, Ec;
    unfold offline; cbn; by repeat split.
Qed.

Lemma fetch_robots_returns env host ua w :
  exists delay w',
    fetch_robots_and_delay env host ua w = Done (true, delay) w' /\
    robots_fetches w' = ("https://" +:+ host +:+ "/robots.txt") :: robots_fetches w /\
    log w' = log w.
Proof.
  unfold fetch_robots_and_delay.
  rewrite bind_unfold. unfold robots_fetch at 1.
  destruct (robots_get _ _ _) as [code txt|]; [|by eexists _, _].
  destruct (negb _); by eexists _, _.
Qed.

(** The DuckDuckGo constructor returns exactly when
    [BaseProvider.__init__] does, and then with [ddg_allowed = True]; it
    raises before the robots.txt request. *)
Lemma ddg_init_outcome env cfg w :
  match BaseProvider_init "duckduckgo" cfg with
  | Some b =>
      exists delay w',
        DuckDuckGoProvider_init env cfg w = Done (DuckDuckGoProvider b true delay) w' /\
        robots_fetches w' = "https://duckduckgo.com/robots.txt" :: robots_fetches w /\
        log w' = log w
  | None => DuckDuckGoProvider_init env cfg w = Raised w
  end.
Proof.
  unfold DuckDuckGoProvider_init. rewrite bind_unfold, lift_unfold.
  destruct (BaseProvider_init "duckduckgo" cfg) as [b|]; [|done].
  rewrite bind_unfold.
  destruct (fetch_robots_returns env DDG_HOST DDG_UA w) as (delay & w' & -> & Hr & Hl).
  by eexists _, _.
Qed.

(** The [if] of lines 415-416 goes the way of [google_plan]. *)
Lemma build_google env choice doc w :
  match google_plan choice doc with
  | Raises =>
      build_provider (selects_google choice) (google_cse_entry doc)
        (GoogleCSEProvider_init env) w = Raised w
  | LeftOut =>
      build_provider (selects_google choice) (google_cse_entry doc)
        (GoogleCSEProvider_init env) w = Done [] w
  | Constructed =>
      exists b api_key cx w',
        build_provider (selects_google choice) (google_cse_entry doc)
          (GoogleCSEProvider_init env) w = Done [GoogleCSEProvider b api_key cx] w' /\
        (api_key, cx) = google_credentials env (entry_cfg (google_cse_entry doc)) /\
        robots_fetches w' = robots_fetches w /\
        log w' = construction_log env choice doc ++ log w
  end.
Proof.
  unfold construction_log, google_plan, plan, build_provider.
  destruct (selects_google choice); [|done].
  rewrite bind_unfold, lift_unfold.
  destruct (enabled (google_cse_entry doc)) as [[|]|]; [|done|done].
  rewrite bind_unfold.
  pose proof (google_init_outcome env (entry_cfg (google_cse_entry doc)) w) as H.
  destruct (google_converts _); [|by rewrite H].
  destruct H as (b & k & c & w' & -> & Hkc & (_ & Hr & _) & _ & _ & Hl).
  exists b, k, c, w'. split; [done|]. split; [done|]. split; [done|].
  rewrite <- Hkc, Hl. by destruct (credentials_present k c).
Qed.

(** The [if] of lines 417-418 goes the way of [duckduckgo_plan]. *)
Lemma build_ddg env choice doc w :
  match duckduckgo_plan choice doc with
  | Raises =>
      build_provider (selects_duckduckgo choice) (duckduckgo_entry doc)
        (DuckDuckGoProvider_init env) w = Raised w
  | LeftOut =>
      build_provider (selects_duckduckgo choice) (duckduckgo_entry doc)
        (DuckDuckGoProvider_init env) w = Done [] w
  | Constructed =>
      exists b delay w',
        build_provider (selects_duckduckgo choice) (duckduckgo_entry doc)
          (DuckDuckGoProvider_init env) w = Done [DuckDuckGoProvider b true delay] w' /\
        robots_fetches w' = "https://duckduckgo.com/robots.txt" :: robots_fetches w /\
        log w' = log w
  end.
Proof.
  unfold duckduckgo_plan, plan, build_provider, duckduckgo_converts.
  destruct (selects_duckduckgo choice); [|done].
  rewrite bind_unfold, lift_unfold.
  destruct (enabled (duckduckgo_entry doc)) as [[|]|]; [|done|done].
  rewrite bind_unfold.
  pose proof (ddg_init_outcome env (entry_cfg (duckduckgo_entry doc)) w) as H.
  destruct (BaseProvider_init "duckduckgo" _) as [b|]; cbn [is_some]; [|by rewrite H].
  destruct H as (delay & w' & -> & Hr & Hl). by exists b, delay, w'.
Qed.

(** How lines 414-418 end, by the plans of the two providers. *)
Lemma build_providers_raises_at_google env choice doc w :
  google_plan choice doc = Raises ->
  build_providers env choice doc w = Raised w.
Proof.
  intros Hg. unfold build_providers. rewrite bind_unfold.
  pose proof (build_google env choice doc w) as H. rewrite Hg in H. by rewrite H.
Qed.

Lemma build_providers_raises_at_ddg env choice doc w :
  google_plan choice doc <> Raises -> duckduckgo_plan choice doc = Raises ->
  exists w1,
    build_providers env choice doc w = Raised w1 /\
    robots_fetches w1 = robots_fetches w /\
    log w1 = construction_log env choice doc ++ log w.
Proof.
  intros Hg Hd. unfold build_providers. rewrite bind_unfold.
  pose proof (build_google env choice doc w) as H.
  destruct (google_plan choice doc) eqn:Eg; [| |done].
  - rewrite H, bind_unfold.
    pose proof (build_ddg env choice doc w) as H2. rewrite Hd in H2. rewrite H2.
    exists w. split; [done|]. split; [done|].
    unfold construction_log. by rewrite Eg.
  - destruct H as (b & k & c & w1 & -> & _ & Hr & Hl). rewrite bind_unfold.
    pose proof (build_ddg env choice doc w1) as H2. rewrite Hd in H2. rewrite H2.
    by exists w1.
Qed.

Lemma build_providers_returns env choice doc w :
  google_plan choice doc <> Raises -> duckduckgo_plan choice doc <> Raises ->
  exists ps w1,
    build_providers env choice doc w = Done ps w1 /\
    (ps = [] <-> google_plan choice doc = LeftOut /\ duckduckgo_plan choice doc = LeftOut) /\
    robots_fetches w1
    = match duckduckgo_plan choice doc with
      | Constructed => ["https://duckduckgo.com/robots.txt"]
      | _ => []
      end ++ robots_fetches w /\
    log w1 = construction_log env choice doc ++ log w /\
    forall w2, exists w3,
      dry_run_report env ps w2 = Done tt w3 /\
      log w3 = presence_report env choice doc ++ log w2.
Proof.
  intros Hg Hd. unfold build_providers. rewrite bind_unfold.
  pose proof (build_google env choice doc w) as H.
  assert (construction_log env choice doc = [] \/ google_plan choice doc = Constructed)
    as Hc.
  { unfold construction_log. destruct (google_plan choice doc); auto. }
  unfold presence_report.
  destruct (google_plan choice doc) eqn:Eg; [| |done].
  - rewrite H, bind_unfold.
    destruct Hc as [Hc|?]; [|done]. rewrite Hc.
    pose proof (build_ddg env choice doc w) as H2.
    destruct (duckduckgo_plan choice doc) eqn:Ed; [| |done].
    + rewrite H2. eexists _, _. split; [reflexivity|]. split; [done|].
      split; [done|]. split; [done|]. intros w2. by exists w2.
    + destruct H2 as (b & delay & w1 & -> & Hr & Hl).
      eexists _, _. split; [reflexivity|]. split; [split; [done|by intros [_ ?]]|].
      split; [done|]. split; [done|]. intros w2. cbn [dry_run_report app].
      rewrite bind_unfold.
      destruct (ddgs_available env); cbn [negb]; eexists; split; reflexivity.
  - destruct H as (b & k & c & w1 & -> & Hkc & Hr & Hl). rewrite bind_unfold.
    rewrite <- Hkc.
    pose proof (build_ddg env choice doc w1) as H2.
    destruct (duckduckgo_plan choice doc) eqn:Ed; [| |done].
    + rewrite H2. eexists _, _. split; [reflexivity|].
      split; [split; [done|by intros [? _]]|].
      split; [done|]. split; [done|]. intros w2. cbn [dry_run_report app].
      rewrite bind_unfold. unfold credentials_present.
      destruct (truthy k && truthy c); cbn [negb]; eexists; split; reflexivity.
    + destruct H2 as (b2 & delay & w2 & -> & Hr2 & Hl2).
      eexists _, _. split; [reflexivity|].
      split; [split; [done|by intros [? _]]|].
      split; [by rewrite Hr2, Hr|]. split; [by rewrite Hl2|].
      intros w3. cbn [dry_run_report app]. rewrite bind_unfold.
      unfold credentials_present.
      destruct (truthy k && truthy c); cbn [negb]; unfold log_record at 1;
        rewrite bind_unfold;
        (destruct (ddgs_available env); cbn [negb]; eexists; split; reflexivity).
Qed.

End InitFacts.



(** The constructor on an empty mapping, in an environment without
    credentials: one warning, no request; and on a mapping with a value
    that [int] rejects: an exception. *)
Example google_constructor_cases :
  GoogleCSEProvider_init stub_env empty_cfg empty_world
  = Done (GoogleCSEProvider (default_provider "google_cse") "" "")
         {| gets := []; robots_fetches := []; searches := []; draws := 0%nat;
            sleeps := [];
            log := [ {| level := WARNING; message := missing_credentials_warning |} ];
            files := [] |} /\
  GoogleCSEProvider_init stub_env
    {| cfg_enabled := None; cfg_daily_quota_threshold := Rejected;
       cfg_rate_limit_rps := Unset; cfg_jitter_percent := Unset;
       cfg_retry_attempts := Unset; cfg_backoff_base_seconds := Unset;
       cfg_backoff_max_seconds := Unset; cfg_api_key_env := Unset;
       cfg_cx_env := Unset |} empty_world
  = Raised empty_world.
Proof. by vm_compute. Qed.

(** C10: whatever the robots.txt request does, [fetch_robots_and_delay]
    returns [True] first; the DuckDuckGo constructor, which returns
    whenever [BaseProvider.__init__] does, therefore stores
    [ddg_allowed = True]; and [query] never reads the field: with any other
    value it does the same, result and effects. *)
Theorem robots_never_forbid :
  (forall env host ua w,
      exists delay w',
        fetch_robots_and_delay env host ua w = Done (true, delay) w') /\
  (forall env cfg w,
      match BaseProvider_init "duckduckgo" cfg with
      | Some b =>
          exists delay w',
            DuckDuckGoProvider_init env cfg w = Done (DuckDuckGoProvider b true delay) w'
      | None => DuckDuckGoProvider_init env cfg w = Raised w
      end) /\
  (forall fuel env b a d kw mr w,
      query fuel env (DuckDuckGoProvider b a d) kw mr w
      = run_map (fun rp => (rp.1, with_allowed a rp.2))
                (query fuel env (DuckDuckGoProvider b true d) kw mr w)).
Proof.
  split; [|split].
  - intros env host ua w.
    destruct (InitFacts.fetch_robots_returns env host ua w) as (delay & w' & E & _).
    by exists delay, w'.
  - intros env cfg w.
    pose proof (InitFacts.ddg_init_outcome env cfg w) as H.
    destruct (BaseProvider_init "duckduckgo" cfg) as [b|]; [|done].
    destruct H as (delay & w' & E & _). by exists delay, w'.
  - intros. apply QueryFacts.ddg_query_ignores_allowed.
Qed.

(** ** The orchestrator *)

Module OrchestratorFacts.
Import RunFacts.

Lemma advanced_refl p : advanced 0 p p.
Proof. unfold advanced. repeat split; first [done | lia]. Qed.

Lemma advanced_trans j k p p' p'' :
  advanced j p p' -> advanced k p' p'' -> advanced (j + k) p p''.
Proof.
  unfold advanced. intros (Hn & Ht & H1 & H2 & H3) (Hn' & Ht' & H1' & H2' & H3').
  repeat split; first [congruence | lia].
Qed.

Lemma query_providers_advanced fuel env kw mr ps t w ps' t' w' :
  query_providers fuel env kw mr ps t w = Done (ps', t') w' ->
  Forall2 (advanced 1) ps ps'.
Proof.
  revert t w ps' t' w'. induction ps as [|p ps IH]; intros t w ps' t' w' H.
  - injection H as <- <- <-. constructor.
  - cbn [query_providers] in H. destruct (negb _).
    + rewrite bind_unfold in H. unfold log_record at 1 in H.
      rewrite bind_unfold in H.
      destruct (query_providers _ _ _ _ ps t _) as [[ps1 t1] w1|] eqn:E; [|done].
      injection H as <- <- <-. constructor; [|by eapply IH].
      unfold advanced. repeat split; first [done | lia].
    + rewrite bind_unfold in H.
      destruct (query fuel env p kw mr w) as [[res p1] w1|] eqn:Eq; [|done].
      rewrite bind_unfold in H.
      destruct (query_providers _ _ _ _ ps _ w1) as [[ps1 t1] w2|] eqn:E; [|done].
      injection H as <- <- <-. constructor; [|by eapply IH].
      by eapply QueryFacts.query_advanced.
Qed.

Lemma orchestrate_advanced fuel env kws mr ps t w ps' t' w' :
  orchestrate fuel env kws mr ps t w = Done (ps', t') w' ->
  Forall2 (advanced (len kws)) ps ps'.
Proof.
  revert ps t w. induction kws as [|kw kws IH]; intros ps t w H.
  - injection H as <- <- <-. apply Forall_Forall2_diag, Forall_forall.
    intros p _. apply advanced_refl.
  - cbn [orchestrate] in H. rewrite bind_unfold in H.
    destruct (query_providers fuel env kw mr ps t w) as [[ps1 t1] w1|] eqn:E; [|done].
    apply query_providers_advanced in E. apply IH in H.
    eapply Forall2_trans; [|exact E|exact H].
    intros x y z Hxy Hyz. replace (len (kw :: kws)) with (1 + len kws)
      by (unfold len; cbn [length]; lia).
    by eapply advanced_trans.
Qed.

(** A run over [kws1 ++ kws2] is a run over [kws1] followed by a run
    over [kws2]. *)
Lemma orchestrate_app fuel env kws1 kws2 mr ps t w :
  orchestrate fuel env (kws1 ++ kws2) mr ps t w
  = match orchestrate fuel env kws1 mr ps t w with
    | Done (ps1, t1) w1 => orchestrate fuel env kws2 mr ps1 t1 w1
    | Stopped why w1 => Stopped why w1
    end.
Proof.
  revert ps t w. induction kws1 as [|kw kws1 IH]; intros ps t w; [done|].
  cbn [app orchestrate]. rewrite !bind_unfold.
  destruct (query_providers fuel env kw mr ps t w) as [[ps1 t1] w1|]; [|done].
  apply IH.
Qed.

Lemma query_providers_valid fuel env kw mr ps t w ps' t' w' :
  tally_valid t ->
  query_providers fuel env kw mr ps t w = Done (ps', t') w' ->
  tally_valid t'.
Proof.
  revert t w ps' t' w'. induction ps as [|p ps IH]; intros t w ps' t' w' Ht H.
  - by injection H as <- <- <-.
  - cbn [query_providers] in H. destruct (negb _).
    + rewrite bind_unfold in H. unfold log_record at 1 in H.
      rewrite bind_unfold in H.
      destruct (query_providers _ _ _ _ ps t _) as [[ps1 t1] w1|] eqn:E; [|done].
      injection H as <- <- <-. by eapply IH.
    + rewrite bind_unfold in H.
      destruct (query fuel env p kw mr w) as [[res p1] w1|] eqn:Eq; [|done].
      rewrite bind_unfold in H.
      destruct (query_providers _ _ _ _ ps _ w1) as [[ps1 t1] w2|] eqn:E; [|done].
      injection H as <- <- <-. eapply IH; [|exact E].
      intros d. cbn [all_domains]. rewrite elem_of_union, elem_of_list_to_set.
      intros [Hd|Hd]; [by apply Ht|].
      by apply DomainFacts.elem_of_unique_sorted in Hd as [? _].
Qed.

Lemma orchestrate_valid fuel env kws mr ps t w ps' t' w' :
  tally_valid t ->
  orchestrate fuel env kws mr ps t w = Done (ps', t') w' ->
  tally_valid t'.
Proof.
  revert ps t w. induction kws as [|kw kws IH]; intros ps t w Ht H.
  - by injection H as <- <- <-.
  - cbn [orchestrate] in H. rewrite bind_unfold in H.
    destruct (query_providers fuel env kw mr ps t w) as [[ps1 t1] w1|] eqn:E; [|done].
    eapply IH; [|exact H]. by eapply query_providers_valid.
Qed.

Lemma initial_tally_valid ps : tally_valid (initial_tally ps).
Proof. intros d. cbn [initial_tally all_domains]. by rewrite elem_of_empty. Qed.

Lemma fresh_bound k ps ps' :
  Forall2 (advanced k) ps ps' ->
  Forall (fun p => queries_made (base_of p) = 0) ps ->
  Forall (fun p => 0 <= queries_made (base_of p) <= k) ps'.
Proof.
  induction 1 as [|p p' ps ps' Hp _ IH]; [constructor|].
  intros [H0 Hps]%Forall_cons. constructor; [|by apply IH].
  destruct Hp as (_ & _ & H1 & H2 & _). lia.
Qed.

End OrchestratorFacts.

(** C8: along a run of the orchestrator, at every keyword boundary, each
    provider's [queries_made] has not decreased, has grown by at most the
    number of keywords processed so far (its pairs), and stays below the
    larger of its starting value and [daily_quota_threshold]; for providers
    that start at 0, as [main] builds them, it is at most the number of
    keywords processed. *)
Theorem queries_made_bounded_by_pairs
    (fuel : nat) (env : Env) (kws1 kws2 : list string) (mr : Z)
    (ps : list Provider) (t : Tally) (w : World)
    (ps' : list Provider) (t' : Tally) (w' : World) :
  orchestrate fuel env (kws1 ++ kws2) mr ps t w = Done (ps', t') w' ->
  exists ps1 t1 w1,
    orchestrate fuel env kws1 mr ps t w = Done (ps1, t1) w1 /\
    Forall2 (advanced (len kws1)) ps ps1 /\
    Forall2 (advanced (len kws2)) ps1 ps' /\
    Forall2 (advanced (len (kws1 ++ kws2))) ps ps' /\
    (Forall (fun p => queries_made (base_of p) = 0) ps ->
     Forall (fun p => 0 <= queries_made (base_of p) <= len kws1) ps1 /\
     Forall (fun p => 0 <= queries_made (base_of p) <= len (kws1 ++ kws2)) ps').
Proof.
  intros H. pose proof (OrchestratorFacts.orchestrate_advanced _ _ _ _ _ _ _ _ _ _ H) as Hall.
  rewrite OrchestratorFacts.orchestrate_app in H.
  destruct (orchestrate fuel env kws1 mr ps t w) as [[ps1 t1] w1|] eqn:E; [|done].
  pose proof (OrchestratorFacts.orchestrate_advanced _ _ _ _ _ _ _ _ _ _ E) as H1.
  exists ps1, t1, w1. split; [done|]. split; [done|].
  split; [by eapply OrchestratorFacts.orchestrate_advanced|]. split; [done|].
  intros Hfresh.
  split; [by eapply OrchestratorFacts.fresh_bound | by eapply OrchestratorFacts.fresh_bound].
Qed.

Lemma queries_made_bounded_by_pairs_witness :
  exists ps1 t1 w1,
    orchestrate 3 stub_env ["plumber austin"] 100 [one_query_ddg]
      (initial_tally [one_query_ddg]) empty_world = Done (ps1, t1) w1 /\
    Forall2 (advanced (len ["plumber austin"])) [one_query_ddg] ps1 /\
    Forall2 (advanced (len ["roofer dallas"])) ps1 [counted one_query_ddg] /\
    Forall2 (advanced (len (["plumber austin"] ++ ["roofer dallas"])))
            [one_query_ddg] [counted one_query_ddg] /\
    (Forall (fun p => queries_made (base_of p) = 0) [one_query_ddg] ->
     Forall (fun p => 0 <= queries_made (base_of p) <= len ["plumber austin"]) ps1 /\
     Forall (fun p => 0 <= queries_made (base_of p)
                      <= len (["plumber austin"] ++ ["roofer dallas"]))
            [counted one_query_ddg]).
Proof.
  destruct (orchestrate 3 stub_env (["plumber austin"] ++ ["roofer dallas"]) 100
              [one_query_ddg] (initial_tally [one_query_ddg]) empty_world)
    as [[ps' t'] w'|w'] eqn:E.
  - assert (ps' = [counted one_query_ddg]) as ->.
    { vm_compute in E. injection E as <- _ _. reflexivity. }
    exact (queries_made_bounded_by_pairs _ _ _ _ _ _ _ _ _ _ _ E).
  - vm_compute in E. discriminate E.
Defined.

(** ** The whole run *)

Module MainFacts.
Import RunFacts.

(** Before the output is written, no step of [main] touches a file. *)
Lemma build_providers_files env choice doc w :
  match build_providers env choice doc w with
  | Done _ w' => files w' = files w
  | Stopped _ w' => files w' = files w
  end.
Proof.
  exact (build_providers_keeps files (fun _ _ _ => eq_refl) (fun _ _ _ => eq_refl)
           env choice doc w).
Qed.

Lemma orchestrate_files fuel env kws mr ps t w :
  match orchestrate fuel env kws mr ps t w with
  | Done _ w' => files w' = files w
  | Stopped _ w' => files w' = files w
  end.
Proof.
  exact (orchestrate_keeps files (fun _ _ _ => eq_refl) (fun e d => RunFacts.sleep_keeps files e d (fun _ => eq_refl))
           (fun _ _ _ _ => eq_refl) (fun _ _ _ => eq_refl)
           (fun _ _ _ _ => eq_refl) fuel env kws mr ps t w).
Qed.

Lemma dry_run_report_files env ps w :
  match dry_run_report env ps w with
  | Done _ w' => files w' = files w
  | Stopped _ w' => files w' = files w
  end.
Proof. exact (dry_run_report_keeps files (fun _ _ _ => eq_refl) env ps w). Qed.

(** A dry run issues no search request and writes nothing. *)
Lemma build_providers_quiet env choice doc w :
  match build_providers env choice doc w with
  | Done _ w' | Stopped _ w' =>
      gets w' = gets w /\ searches w' = searches w /\ sleeps w' = sleeps w
  end.
Proof.
  pose proof (build_providers_keeps gets (fun _ _ _ => eq_refl)
                (fun _ _ _ => eq_refl) env choice doc w) as H1.
  pose proof (build_providers_keeps searches (fun _ _ _ => eq_refl)
                (fun _ _ _ => eq_refl) env choice doc w) as H2.
  pose proof (build_providers_keeps sleeps (fun _ _ _ => eq_refl)
                (fun _ _ _ => eq_refl) env choice doc w) as H3.
  by destruct (build_providers env choice doc w).
Qed.

Lemma dry_run_report_quiet env ps w :
  match dry_run_report env ps w with
  | Done _ w' | Stopped _ w' =>
      gets w' = gets w /\ searches w' = searches w /\ sleeps w' = sleeps w /\
      robots_fetches w' = robots_fetches w
  end.
Proof.
  pose proof (dry_run_report_keeps gets (fun _ _ _ => eq_refl) env ps w) as H1.
  pose proof (dry_run_report_keeps searches (fun _ _ _ => eq_refl) env ps w) as H2.
  pose proof (dry_run_report_keeps sleeps (fun _ _ _ => eq_refl) env ps w) as H3.
  pose proof (dry_run_report_keeps robots_fetches (fun _ _ _ => eq_refl) env ps w) as H4.
  by destruct (dry_run_report env ps w).
Qed.

Lemma main_files fuel env args w code w' :
  main fuel env args w = Done code w' ->
  if negb (args_dry_run args) && (code =? 0) then
    exists t,
      tally_valid t /\
      files w' = (args_output args, output_text (py_sorted (all_domains t))) :: files w
  else files w' = files w.
Proof.
  unfold main. destruct (load_config env (args_config args)) as [err|[kws doc]].
  { intros [= <- <-]. by rewrite andb_false_r. }
  rewrite bind_unfold.
  pose proof (build_providers_files env (args_provider args) doc w) as Hf.
  destruct (build_providers env (args_provider args) doc w) as [ps w1|w1]; [|done].
  destruct ps as [|p ps].
  { intros [= <- <-]. by rewrite andb_false_r. }
  destruct (args_dry_run args).
  { rewrite bind_unfold. unfold log_record at 1. rewrite bind_unfold.
    match goal with |- context [dry_run_report env (p :: ps) ?w2] =>
      pose proof (dry_run_report_files env (p :: ps) w2) as Hf2;
      destruct (dry_run_report env (p :: ps) w2) as [[] w3|w3]; [|done]
    end.
    intros [= <- <-]. cbn in *. congruence. }
  destruct (ensure_writable env (args_output args)); [| |done].
  2:{ intros [= <- <-]. done. }
  rewrite bind_unfold.
  pose proof (orchestrate_files fuel env kws (args_max_results args) (p :: ps)
                (initial_tally (p :: ps)) w1) as Hf2.
  destruct (orchestrate fuel env kws (args_max_results args) (p :: ps)
              (initial_tally (p :: ps)) w1) as [[ps' t] w2|w2] eqn:E; [|done].
  rewrite bind_unfold. unfold write_output.
  destruct (mkdir_parent env (args_output args)); [|done|done].
  destruct (opens env (args_output args)); [|done].
  unfold write_file at 1. rewrite bind_unfold.
  unfold log_record at 1. rewrite bind_unfold. unfold print_summary.
  destruct (stdout_takes env); [|done].
  intros [= <- <-]. exists t. split.
  - eapply OrchestratorFacts.orchestrate_valid; [|exact E].
    apply OrchestratorFacts.initial_tally_valid.
  - cbn. congruence.
Qed.

End MainFacts.

(** C3, as the code has it: a dry run always ends. Its exit status is 2
    when the configuration does not load, 1 when the construction of a
    provider raises (an entry of [providers] that is no mapping, a value
    that [int], [float] or [os.getenv] rejects), 3 when no provider is
    selected and enabled, and 0 otherwise, whether or not credentials and
    the search library are present: their presence or absence is reported
    in the log, which is exactly [dry_run_log]. The run issues no search
    request and no sleep and writes no file, and its only network call is
    the robots.txt request of the DuckDuckGo constructor when that
    provider is built. *)
Theorem dry_run_validates_config_only
    (fuel : nat) (env : Env) (args : Args) (w : World) :
  args_dry_run args = true ->
  exists w',
    main fuel env args w = exits (dry_run_status env args) w' /\
    (dry_run_status env args = 0 \/ dry_run_status env args = 1 \/
     dry_run_status env args = 2 \/ dry_run_status env args = 3) /\
    log w' = dry_run_log env args ++ log w /\
    robots_fetches w' = dry_run_fetches env args ++ robots_fetches w /\
    gets w' = gets w /\ searches w' = searches w /\
    sleeps w' = sleeps w /\ files w' = files w.
Proof.
  intros Hdry. unfold main, dry_run_status, dry_run_log, dry_run_fetches.
  destruct (load_config env (args_config args)) as [err|[kws doc]].
  { eexists. split; [reflexivity|]. cbn. repeat split; auto. }
  rewrite RunFacts.bind_unfold.
  pose proof (MainFacts.build_providers_files env (args_provider args) doc w) as Hf.
  pose proof (MainFacts.build_providers_quiet env (args_provider args) doc w) as Hq.
  destruct (google_plan (args_provider args) doc) eqn:Eg; cycle 2.
  { rewrite (InitFacts.build_providers_raises_at_google _ _ _ _ Eg).
    exists w. split; [reflexivity|]. repeat split; auto. }
  all: destruct (duckduckgo_plan (args_provider args) doc) eqn:Ed.
  all: try (destruct (InitFacts.build_providers_raises_at_ddg env (args_provider args)
                        doc w) as (w1 & E & Hrob & Hlog);
            [by rewrite Eg|done|];
            rewrite E in Hf, Hq |- *; destruct Hq as (Hg & Hs & Hsl);
            exists w1; split; [reflexivity|]; repeat split; auto; fail).
  all: destruct (InitFacts.build_providers_returns env (args_provider args) doc w)
         as (ps & w1 & E & Hnil & Hrob & Hlog & Hrep);
         [by rewrite Eg|by rewrite Ed|].
  all: rewrite E in Hf, Hq |- *; destruct Hq as (Hg & Hs & Hsl).
  all: rewrite Eg, Ed in Hnil; rewrite Ed in Hrob.
  { rewrite (proj2 Hnil (conj eq_refl eq_refl)).
    eexists. split; [reflexivity|]. cbn. rewrite Hlog.
    unfold construction_log. rewrite Eg. repeat split; auto. }
  all: destruct ps as [|p ps]; [by destruct (proj1 Hnil eq_refl)|].
  all: rewrite Hdry; rewrite RunFacts.bind_unfold; unfold log_record at 1;
       rewrite RunFacts.bind_unfold.
  all: match goal with |- context [dry_run_report ?e ?l ?w2] =>
         pose proof (MainFacts.dry_run_report_files e l w2) as Hf2;
         pose proof (MainFacts.dry_run_report_quiet e l w2) as Hq2;
         destruct (Hrep w2) as (w3 & E3 & Hlog3)
       end.
  all: rewrite E3 in Hf2, Hq2 |- *; destruct Hq2 as (Hg2 & Hs2 & Hsl2 & Hr2).
  all: eexists; split; [reflexivity|]; cbn in *.
  all: rewrite Hlog3, Hlog, Hr2, Hrob, Hg2, Hs2, Hsl2, Hf2.
  all: rewrite <- ?(assoc_L (++)); cbn [app]; repeat split; auto.
Qed.

Lemma dry_run_validates_config_only_witness :
  exists w',
    main 0 stub_env (sample_args ChooseAll true) empty_world
    = exits (dry_run_status stub_env (sample_args ChooseAll true)) w' /\
    (dry_run_status stub_env (sample_args ChooseAll true) = 0 \/
     dry_run_status stub_env (sample_args ChooseAll true) = 1 \/
     dry_run_status stub_env (sample_args ChooseAll true) = 2 \/
     dry_run_status stub_env (sample_args ChooseAll true) = 3) /\
    log w' = dry_run_log stub_env (sample_args ChooseAll true) ++ log empty_world /\
    robots_fetches w'
    = dry_run_fetches stub_env (sample_args ChooseAll true)
        ++ robots_fetches empty_world /\
    gets w' = gets empty_world /\ searches w' = searches empty_world /\
    sleeps w' = sleeps empty_world /\ files w' = files empty_world.
Proof.
  apply (dry_run_validates_config_only 0 stub_env (sample_args ChooseAll true)
           empty_world).
  reflexivity.
Defined.

(** C3 as stated fails twice over: with credentials and search library
    both missing the dry run still exits with status 0, logging the
    missing credentials as an error, and the DuckDuckGo constructor has
    fetched robots.txt over the network. *)
Lemma dry_run_exits_zero_without_credentials :
  match main 0 (bare_env (fun _ => Document one_keyword_doc))
             (sample_args ChooseAll true) empty_world with
  | Done code w' =>
      code = 0 /\
      network_calls w' = 1%nat /\
      robots_fetches w' = ["https://duckduckgo.com/robots.txt"] /\
      log w' =
        [ {| level := INFO; message := "Config valid" |};
          {| level := WARNING;
             message := "DuckDuckGo: duckduckgo_search library not installed" |};
          {| level := ERROR;
             message :=
               "Google CSE: missing credentials (GOOGLE_API_KEY or GOOGLE_CSE_ID)" |};
          {| level := INFO; message := "Dry-run: validating providers..." |};
          {| level := WARNING; message := missing_credentials_warning |} ]
  | Stopped _ _ => False
  end.
Proof. by vm_compute. Qed.

Example dry_run_exit_statuses :
  dry_run_status (bare_env (fun _ => NoSuchFile)) (sample_args ChooseAll true) = 2 /\
  dry_run_status
    (bare_env (fun _ => Document {| doc_keywords := KwList [];
                                    doc_providers := Providers NoEntry NoEntry |}))
    (sample_args ChooseAll true) = 2 /\
  dry_run_status
    (bare_env (fun _ => Document
       {| doc_keywords := KwList ["k"];
          doc_providers :=
            Providers NoEntry
              (Mapping
                 {| cfg_enabled := Some false; cfg_daily_quota_threshold := Unset;
                    cfg_rate_limit_rps := Unset; cfg_jitter_percent := Unset;
                    cfg_retry_attempts := Unset; cfg_backoff_base_seconds := Unset;
                    cfg_backoff_max_seconds := Unset; cfg_api_key_env := Unset;
                    cfg_cx_env := Unset |}) |}))
    (sample_args ChooseDuckDuckGo true) = 3 /\
  dry_run_status stub_env (sample_args ChooseAll true) = 0 /\
  dry_run_log stub_env (sample_args ChooseAll true)
  = [ {| level := INFO; message := "Config valid" |};
      {| level := INFO; message := "DuckDuckGo: library available" |};
      {| level := ERROR;
         message :=
           "Google CSE: missing credentials (GOOGLE_API_KEY or GOOGLE_CSE_ID)" |};
      {| level := INFO; message := "Dry-run: validating providers..." |};
      {| level := WARNING; message := missing_credentials_warning |} ].
Proof. by vm_compute. Qed.

(** A dry run on a document whose [google_cse] entry is null, or whose
    [duckduckgo] mapping holds a value that [int] rejects, ends with an
    exception; with the Google provider left out of the selection the null
    entry is never read. *)
Example dry_run_raises_on_bad_entries :
  main 0 (bare_env (fun _ => Document null_entry_doc)) (sample_args ChooseAll true)
    empty_world = Raised empty_world /\
  dry_run_status (bare_env (fun _ => Document null_entry_doc))
    (sample_args ChooseAll true) = 1 /\
  dry_run_status (bare_env (fun _ => Document null_entry_doc))
    (sample_args ChooseDuckDuckGo true) = 0 /\
  main 0 (bare_env (fun _ => Document bad_value_doc)) (sample_args ChooseAll true)
    empty_world
  = Raised {| gets := []; robots_fetches := []; searches := []; draws := 0%nat;
              sleeps := [];
              log := [ {| level := WARNING; message := missing_credentials_warning |} ];
              files := [] |} /\
  dry_run_status (bare_env (fun _ => Document bad_value_doc))
    (sample_args ChooseAll true) = 1.
Proof. by vm_compute. Qed.

(** ** The output file *)

Module OutputFacts.
Import StrFacts ReFacts DomainFacts.

Lemma rev_app_rev_app d c e :
  String.rev_app (String.rev_app d c) e = String.rev_app c (d +:+ e).
Proof.
  revert c. induction d as [|x d IH]; intros c; [done|].
  cbn [String.rev_app]. rewrite IH. by rewrite app_cons.
Qed.

Lemma rev_rev_app d : String.rev (String.rev_app d "") = d.
Proof. unfold String.rev. rewrite rev_app_rev_app. cbn. apply app_nil_r. Qed.

Lemma splitlines_go_line d cur rest :
  Str.any is_linebreak d = false ->
  splitlines_go cur (d +:+ rest) = splitlines_go (String.rev_app d cur) rest.
Proof.
  revert cur. induction d as [|x d IH]; intros cur; [done|].
  cbn [Str.any]. intros [Hx Hd]%orb_false_elim.
  rewrite app_cons. cbn [splitlines_go String.rev_app]. rewrite Hx. by apply IH.
Qed.

Lemma splitlines_go_break cur rest :
  splitlines_go cur (NL +:+ rest) = String.rev cur :: splitlines_go "" rest.
Proof.
  unfold NL. rewrite app_cons. change ("" +:+ rest) with rest.
  cbn [splitlines_go].
  change (is_linebreak "010") with true. cbn match.
  change (Chars.eqc "013" "010") with false. cbn [andb].
  by destruct rest.
Qed.

Lemma output_text_cons d l : output_text (d :: l) = d +:+ NL +:+ output_text l.
Proof.
  unfold output_text. rewrite fmap_cons.
  destruct l as [|e l].
  - reflexivity.
  - exact (app_assoc d NL _).
Qed.

Lemma splitlines_output l :
  Forall (fun d => Str.any is_linebreak d = false) l ->
  splitlines (output_text l) = l.
Proof.
  unfold splitlines. induction 1 as [|d l Hd _ IH]; [done|].
  rewrite output_text_cons, (splitlines_go_line _ _ _ Hd), splitlines_go_break.
  by rewrite rev_rev_app, IH.
Qed.

Lemma ishost_not_linebreak c : Chars.ishost c = true -> is_linebreak c = false.
Proof. by_char c. Qed.

(** A valid domain is made of host characters, but for a final line
    feed. *)
Lemma valid_shape d :
  is_valid_domain d = true ->
  exists h, Str.all Chars.ishost h = true /\ h <> "" /\
            (d = h \/ d = h +:+ NL).
Proof.
  intros Hv. destruct (ends_with_newline d) eqn:En.
  - destruct (valid_inv d Hv) as [Hne Hm].
    apply match_anchored_inv in Hm as [Hl|(h & -> & Hl)].
    + pose proof (lang_classes_within _ _ _ domain_re_classes Hl) as Ha.
      unfold ends_with_newline in En.
      destruct (Str.unsnoc d) as [[s c]|] eqn:Eu; [|done].
      apply unsnoc_Some in Eu. subst d. rewrite all_app in Ha.
      apply andb_prop in Ha as [_ Hc]. cbn in Hc. rewrite andb_true_r in Hc.
      rewrite eqc_eqb in En. apply Ascii.eqb_eq in En. subst c. done.
    + exists h. split; [exact (lang_classes_within _ _ _ domain_re_classes Hl)|].
      split; [|by right]. intros ->.
      apply domain_re_dot in Hl. done.
  - exists d. split; [by apply valid_chars|]. split; [|by left].
    intros ->. done.
Qed.

Lemma clean_line h : Str.all Chars.ishost h = true -> Str.any is_linebreak h = false.
Proof. intros H. eapply all_not_any; [apply ishost_not_linebreak|done]. Qed.

Lemma splitlines_go_end cur : splitlines_go cur NL = [String.rev cur].
Proof.
  change (splitlines_go cur NL) with (splitlines_go cur (NL +:+ "")).
  by rewrite splitlines_go_break.
Qed.

(** The lines one domain and its line feed make, whatever follows. *)
Lemma splitlines_domain d rest :
  is_valid_domain d = true ->
  splitlines (d +:+ NL +:+ rest) = splitlines (d +:+ NL) ++ splitlines rest /\
  splitlines (d +:+ NL) = (if ends_with_newline d then [] else [d]) ++
                          match Str.unsnoc d with
                          | Some (h, c) => if Chars.eqc "010" c then [h; ""] else []
                          | None => []
                          end.
Proof.
  intros (h & Hh & Hne & [->| ->])%valid_shape; unfold splitlines.
  - assert (ends_with_newline h = false) as En.
    { unfold ends_with_newline. destruct (Str.unsnoc h) as [[s c]|] eqn:Eu; [|done].
      apply unsnoc_Some in Eu. subst h. rewrite all_app in Hh.
      apply andb_prop in Hh as [_ Hc]. cbn in Hc. rewrite andb_true_r in Hc.
      revert Hc. by_char c. }
    rewrite En. unfold ends_with_newline in En.
    rewrite (splitlines_go_line _ _ _ (clean_line _ Hh)), splitlines_go_break.
    rewrite <- (app_nil_r (h +:+ NL)), app_assoc.
    rewrite (splitlines_go_line _ _ _ (clean_line _ Hh)).
    change (NL +:+ "") with NL. rewrite splitlines_go_end, rev_rev_app.
    split; [done|]. cbn [app]. destruct (Str.unsnoc h) as [[s c]|]; [|done].
    by rewrite En.
  - assert (ends_with_newline (h +:+ NL) = true) as En.
    { unfold ends_with_newline, NL. by rewrite unsnoc_app. }
    rewrite En. cbn [app].
    assert (Str.unsnoc (h +:+ NL) = Some (h, "010"%char)) as -> by apply unsnoc_app.
    change (Chars.eqc "010" "010") with true. cbn match.
    rewrite !app_assoc.
    rewrite !(splitlines_go_line _ _ _ (clean_line _ Hh)).
    rewrite !splitlines_go_break, rev_rev_app.
    rewrite splitlines_go_end. done.
Qed.

(** The lines of the file, domain by domain. *)
Lemma splitlines_valid_output l :
  Forall (fun d => is_valid_domain d = true) l ->
  splitlines (output_text l) = concat ((fun d => splitlines (d +:+ NL)) <$> l).
Proof.
  induction 1 as [|d l Hd _ IH]; [done|].
  rewrite output_text_cons, fmap_cons. cbn [concat].
  rewrite (proj1 (splitlines_domain d (output_text l) Hd)). by rewrite IH.
Qed.

Lemma lines_of_clean d :
  is_valid_domain d = true -> ends_with_newline d = false ->
  splitlines (d +:+ NL) = [d].
Proof.
  intros Hv En. rewrite (proj2 (splitlines_domain d "" Hv)), En.
  unfold ends_with_newline in En.
  destruct (Str.unsnoc d) as [[h c]|]; [|done]. by rewrite En.
Qed.

Lemma lines_of_fed d :
  is_valid_domain (d +:+ NL) = true ->
  splitlines ((d +:+ NL) +:+ NL) = [d; ""].
Proof.
  intros Hv. rewrite (proj2 (splitlines_domain _ "" Hv)).
  unfold ends_with_newline, NL. by rewrite unsnoc_app.
Qed.

(** A list that holds a domain and that domain followed by a line feed
    makes a file in which the domain is on two lines and one line is
    empty. *)
Lemma lines_repeat l d :
  Forall (fun d => is_valid_domain d = true) l ->
  d ∈ l -> (d +:+ NL) ∈ l ->
  ~ NoDup (splitlines (output_text l)) /\ "" ∈ splitlines (output_text l).
Proof.
  intros Hv Hd Hn. rewrite (splitlines_valid_output l Hv).
  assert (is_valid_domain d = true) as Hvd by (rewrite Forall_forall in Hv; auto).
  assert (is_valid_domain (d +:+ NL) = true) as Hvn by (rewrite Forall_forall in Hv; auto).
  assert (ends_with_newline d = false) as En.
  { destruct (valid_shape _ Hvn) as (h & Hh & _ & [E|E]).
    - apply (f_equal (Str.all Chars.ishost)) in E. rewrite Hh, all_app in E.
      cbn in E. by rewrite andb_false_r in E.
    - assert (d = h) as ->.
      { apply (f_equal Str.unsnoc) in E. unfold NL in E.
        rewrite !unsnoc_app in E. by injection E. }
      unfold ends_with_newline. destruct (Str.unsnoc h) as [[s c]|] eqn:Eu; [|done].
      apply unsnoc_Some in Eu. subst h. rewrite all_app in Hh.
      apply andb_prop in Hh as [_ Hc]. cbn in Hc. rewrite andb_true_r in Hc.
      revert Hc. by_char c. }
  assert (d <> d +:+ NL) as Hneq.
  { intros E. apply (f_equal String.length) in E. rewrite length_app in E.
    cbn in E. lia. }
  pose proof (lines_of_clean d Hvd En) as L1.
  pose proof (lines_of_fed d Hvn) as L2.
  split.
  - apply list_elem_of_split in Hd as (l1 & l2 & ->).
    apply elem_of_app in Hn as [Hn|Hn].
    + apply list_elem_of_split in Hn as (l3 & l4 & ->).
      repeat first [rewrite fmap_app | rewrite fmap_cons | rewrite concat_app | progress cbn [concat]].
      rewrite L1, L2.
      intros H. apply NoDup_app in H as (_ & Hdis & _).
      apply (Hdis d).
      * apply elem_of_app. right. apply elem_of_app. left. apply list_elem_of_here.
      * apply elem_of_app. left. apply list_elem_of_here.
    + apply elem_of_cons in Hn as [Hn|Hn]; [by symmetry in Hn|].
      apply list_elem_of_split in Hn as (l3 & l4 & ->).
      repeat first [rewrite fmap_app | rewrite fmap_cons | rewrite concat_app | progress cbn [concat]].
      rewrite L1, L2.
      intros H. apply NoDup_app in H as (_ & _ & H).
      apply NoDup_app in H as (_ & Hdis & _).
      apply (Hdis d); [apply list_elem_of_here|].
      apply elem_of_app. right. apply elem_of_app. left. apply list_elem_of_here.
  - apply list_elem_of_split in Hn as (l1 & l2 & ->).
    repeat first [rewrite fmap_app | rewrite fmap_cons | rewrite concat_app | progress cbn [concat]].
    rewrite L2. apply elem_of_app. right. apply elem_of_app. left.
    apply elem_of_cons. right. apply list_elem_of_here.
Qed.

End OutputFacts.

(** C4, on the code: a real run that ends with status 0 has written, to
    the output path and nowhere else, each element of a list followed by
    a line feed; the list is sorted for the code point order, has no
    duplicate and holds only strings that [is_valid_domain] accepts. When
    no element ends with a line feed, the lines of the file are the list.
    But [is_valid_domain] accepts a host followed by a line feed ([$]
    matches before a final line feed), and when the list holds a domain
    and that domain followed by a line feed, the lines of the file are
    neither free of duplicates nor all valid: the domain is on two lines
    and one line is empty. *)
Theorem output_is_sorted_unique_valid
    (fuel : nat) (env : Env) (args : Args) (w w' : World) :
  args_dry_run args = false ->
  main fuel env args w = Done 0 w' ->
  exists out_list,
    files w' = (args_output args, output_text out_list) :: files w /\
    output_text out_list = foldr (fun d text => d +:+ NL +:+ text) "" out_list /\
    Sorted String.le out_list /\
    NoDup out_list /\
    Forall (fun d => is_valid_domain d = true) out_list /\
    (Forall (fun d => ends_with_newline d = false) out_list ->
     splitlines (output_text out_list) = out_list) /\
    (forall d, d ∈ out_list -> (d +:+ NL) ∈ out_list ->
               ~ NoDup (splitlines (output_text out_list)) /\
               ~ Forall (fun x => is_valid_domain x = true)
                   (splitlines (output_text out_list))).
Proof.
  intros Hdry H. apply MainFacts.main_files in H. rewrite Hdry in H. cbn in H.
  destruct H as (t & Ht & H).
  assert (Forall (fun d => is_valid_domain d = true) (py_sorted (all_domains t))) as Hv.
  { apply Forall_forall. intros d Hd%DomainFacts.elem_of_py_sorted. by apply Ht. }
  exists (py_sorted (all_domains t)). split; [done|].
  split.
  { clear. induction (py_sorted (all_domains t)) as [|d l IH]; [done|].
    by rewrite OutputFacts.output_text_cons, IH. }
  split; [apply DomainFacts.py_sorted_Sorted|].
  split; [apply DomainFacts.py_sorted_NoDup|].
  split; [done|]. split.
  - intros Hn. apply OutputFacts.splitlines_output.
    rewrite Forall_forall in Hv, Hn |- *. intros d Hd.
    apply OutputFacts.clean_line, DomainFacts.valid_chars; auto.
  - intros d Hd Hnl.
    destruct (OutputFacts.lines_repeat _ d Hv Hd Hnl) as [Hdup Hempty].
    split; [done|]. intros Hall. rewrite Forall_forall in Hall.
    by specialize (Hall _ Hempty).
Qed.

Lemma output_is_sorted_unique_valid_witness :
  exists w' out_list,
    main 3 newline_env (sample_args ChooseDuckDuckGo false) empty_world = Done 0 w' /\
    (files w' = ("out/domains.txt", output_text out_list) :: files empty_world /\
     output_text out_list = foldr (fun d text => d +:+ NL +:+ text) "" out_list /\
     Sorted String.le out_list /\
     NoDup out_list /\
     Forall (fun d => is_valid_domain d = true) out_list /\
     (Forall (fun d => ends_with_newline d = false) out_list ->
      splitlines (output_text out_list) = out_list) /\
     (forall d, d ∈ out_list -> (d +:+ NL) ∈ out_list ->
                ~ NoDup (splitlines (output_text out_list)) /\
                ~ Forall (fun x => is_valid_domain x = true)
                    (splitlines (output_text out_list)))) /\
    splitlines (output_text out_list) = ["example.com"; "example.com"; ""].
Proof.
  destruct (main 3 newline_env (sample_args ChooseDuckDuckGo false) empty_world)
    as [code w'|why w'] eqn:E; [|vm_compute in E; discriminate E].
  assert (code = 0 /\
          files w' = [("out/domains.txt",
                       "example.com" +:+ NL +:+ "example.com" +:+ NL +:+ NL)])
    as [-> Hf].
  { vm_compute in E. injection E as <- <-. by vm_compute. }
  destruct (output_is_sorted_unique_valid 3 newline_env
              (sample_args ChooseDuckDuckGo false) empty_world w' eq_refl E)
    as (out_list & Hfiles & H).
  exists w', out_list. split; [done|]. split; [by split|].
  assert (output_text out_list
          = "example.com" +:+ NL +:+ "example.com" +:+ NL +:+ NL) as ->.
  { rewrite Hf in Hfiles. by injection Hfiles. }
  by vm_compute.
Defined.

(** The end-to-end case of the specification: three hits, one of them
    [localhost]; the file holds the two valid domains, sorted. *)
Example end_to_end_duckduckgo :
  match main 3 stub_env (sample_args ChooseDuckDuckGo false) empty_world with
  | Done code w' =>
      code = 0 /\
      files w' = [("out/domains.txt",
                   "austin-pipes.org" +:+ NL +:+ "zeta-plumbing.com" +:+ NL)] /\
      searches w' = [("plumber austin", 100)]
  | Stopped _ _ => False
  end.
Proof. by vm_compute. Qed.

(** Two hits on one host, the second with a line feed before its path:
    both normal forms pass [is_valid_domain], and the file has the domain
    on two lines, then an empty line. *)
Example output_file_repeats_a_line :
  unique_sorted ["http://example.com/"; "http://example.com" +:+ NL +:+ "/x"]
  = ["example.com"; "example.com" +:+ NL] /\
  match main 3 newline_env (sample_args ChooseDuckDuckGo false) empty_world with
  | Done code w' =>
      code = 0 /\
      files w' = [("out/domains.txt",
                   "example.com" +:+ NL +:+ "example.com" +:+ NL +:+ NL)] /\
      splitlines ("example.com" +:+ NL +:+ "example.com" +:+ NL +:+ NL)
      = ["example.com"; "example.com"; ""]
  | Stopped _ _ => False
  end.
Proof. by vm_compute. Qed.

(** A run whose output cannot be opened ends with an exception after its
    searches; one whose last line cannot be printed ends with an exception
    after it has written its file; one whose output directory cannot be
    probed ends with an exception before the searches. *)
Example output_failures :
  match main 3 closed_env (sample_args ChooseDuckDuckGo false) empty_world with
  | Stopped Exception w' => searches w' = [("plumber austin", 100)] /\ files w' = []
  | _ => False
  end /\
  match main 3 mute_env (sample_args ChooseDuckDuckGo false) empty_world with
  | Stopped Exception w' =>
      files w' = [("out/domains.txt", "example.com" +:+ NL)]
  | _ => False
  end /\
  match main 3 broken_env (sample_args ChooseDuckDuckGo false) empty_world with
  | Stopped Exception w' => searches w' = [] /\ files w' = []
  | _ => False
  end.
Proof. by vm_compute. Qed.

(* ================================================================== *)
(** * Part III: further properties of the discovery script *)
(* ================================================================== *)

(** ** The domain pattern *)

(** X1: the loopback list and the IPv4 pattern of [is_valid_domain]
    reject nothing that the domain pattern accepts: a host is valid exactly
    when it is not empty, has at most 253 characters and is matched by
    [^[a-z0-9.-]+\.[a-z]{2,}$]. *)
Theorem is_valid_domain_is_the_domain_pattern (d : string) :
  is_valid_domain d
  = negb (String.eqb d "") && (Z.of_nat (String.length d) <=? 253)
    && Re.match_anchored domain_re d.
Proof.
  unfold is_valid_domain.
  destruct (String.eqb d ""); [done|]. cbn [negb orb andb].
  rewrite Z.ltb_antisym.
  destruct (Z.of_nat (String.length d) <=? 253); [|done]. cbn [negb andb].
  destruct (Re.match_anchored domain_re d) eqn:Hd.
  - rewrite (bool_decide_eq_false_2 _ (ValidatorFacts.domain_not_blocked _ Hd)).
    by rewrite (ValidatorFacts.domain_not_ipv4 _ Hd).
  - destruct (bool_decide _); [done|]. by destruct (Re.match_anchored ipv4_re d).
Qed.

(** X2: a host that [is_valid_domain] accepts is, up to one final line
    feed, a non-empty run of [[a-z0-9.-]], a dot and at least two letters
    [[a-z]], of at most 253 characters in all; so it has no upper-case
    letter, blank, slash, colon or at sign. A host of that shape without
    the line feed is accepted. *)
Theorem valid_domain_shape (d : string) :
  (is_valid_domain d = true ->
   exists pre tld,
     (d = pre +:+ "." +:+ tld \/ d = (pre +:+ "." +:+ tld) +:+ NL) /\
     pre <> "" /\ Str.all Chars.ishost pre = true /\
     Str.all Chars.islower_az tld = true /\ (2 <= String.length tld)%nat /\
     (String.length d <= 253)%nat) /\
  (forall pre tld,
      d = pre +:+ "." +:+ tld ->
      pre <> "" -> Str.all Chars.ishost pre = true ->
      Str.all Chars.islower_az tld = true -> (2 <= String.length tld)%nat ->
      (String.length d <= 253)%nat ->
      is_valid_domain d = true).
Proof.
  split.
  - intros Hv. pose proof Hv as Hv'.
    rewrite ValidatorFacts.is_valid_domain_eq in Hv'.
    apply andb_prop in Hv' as [[_ Hlen]%andb_prop Hm].
    apply Z.leb_le in Hlen.
    apply DomainFacts.match_anchored_inv in Hm as [H|(s & -> & H)];
      apply ValidatorFacts.domain_re_inv in H as (pre & tld & -> & Hne & Hp & Ht & Hl);
      exists pre, tld; repeat split; auto; lia.
  - intros pre tld -> Hne Hp Ht Hl Hlen.
    rewrite ValidatorFacts.is_valid_domain_eq.
    apply andb_true_intro. split; [apply andb_true_intro; split|].
    + destruct pre; [done|]. done.
    + apply Z.leb_le. lia.
    + unfold Re.match_anchored. apply orb_true_intro. left.
      apply ReFacts.matches_lang. by apply ValidatorFacts.domain_re_intro.
Qed.

Lemma valid_domain_shape_witness :
  exists pre tld,
    ("shop.example.com" = pre +:+ "." +:+ tld \/
     "shop.example.com" = (pre +:+ "." +:+ tld) +:+ NL) /\
    pre <> "" /\ Str.all Chars.ishost pre = true /\
    Str.all Chars.islower_az tld = true /\ (2 <= String.length tld)%nat /\
    (String.length "shop.example.com" <= 253)%nat.
Proof.
  apply (proj1 (valid_domain_shape "shop.example.com")). reflexivity.
Defined.

(** X3: the [$] of the domain pattern also holds before a final line
    feed, so a valid host of fewer than 253 characters stays valid with a
    line feed appended, and [normalize_domain] keeps that line feed when a
    path follows it; [unique_sorted] then puts a host that holds a line
    feed into the list. *)
Theorem valid_domain_with_line_feed (d : string) :
  is_valid_domain d = true -> ends_with_newline d = false ->
  (String.length d < 253)%nat ->
  is_valid_domain (d +:+ NL) = true /\
  (Str.startswith d "www." = false ->
   normalize_domain (d +:+ NL +:+ "/") = d +:+ NL /\
   unique_sorted [d +:+ NL +:+ "/"] = [d +:+ NL]).
Proof.
  intros Hv Hnl Hlen.
  pose proof (ValidatorFacts.valid_word _ Hv Hnl) as Hw.
  pose proof (DomainFacts.valid_chars _ Hv Hnl) as Hc.
  assert (is_valid_domain (d +:+ NL) = true) as Hv2.
  { rewrite ValidatorFacts.is_valid_domain_eq.
    apply andb_true_intro. split; [apply andb_true_intro; split|].
    - destruct d; done.
    - apply Z.leb_le. rewrite StrFacts.length_app. cbn. lia.
    - unfold Re.match_anchored, NL. rewrite StrFacts.unsnoc_app.
      apply ReFacts.matches_lang in Hw. rewrite Hw. by rewrite orb_true_r. }
  split; [done|]. intros Hw4.
  assert (normalize_domain (d +:+ NL +:+ "/") = d +:+ NL) as Hn.
  { rewrite UrlFacts.normalize_pipeline. unfold Str.strip.
    assert (Str.lstrip (d +:+ NL +:+ "/") = d +:+ NL +:+ "/") as ->.
    { destruct d as [|c d]; [done|]. cbn [Str.all] in Hc.
      apply andb_prop in Hc as [Hc _]. rewrite StrFacts.app_cons.
      cbn [Str.lstrip]. by rewrite (DomainFacts.ishost_not_space _ Hc). }
    assert (forall s, Str.rstrip (s +:+ NL +:+ "/") = s +:+ NL +:+ "/") as ->.
    { intros s. induction s as [|c s IH]; [done|].
      rewrite StrFacts.app_cons. cbn [Str.rstrip]. rewrite IH.
      by destruct s. }
    assert (Str.any (Chars.eqc "/") d = false) as Hs
      by (eapply StrFacts.all_not_any; [apply DomainFacts.ishost_not_slash | done]).
    assert (Str.any (Chars.eqc ":") d = false) as Hcol
      by (eapply StrFacts.all_not_any; [apply DomainFacts.ishost_not_colon | done]).
    assert (Str.partition "//" (d +:+ NL +:+ "/") = None) as Hp.
    { clear -Hs. induction d as [|c d IH]; [done|].
      cbn [Str.any] in Hs. apply orb_false_elim in Hs as [Hc Hs].
      rewrite DomainFacts.eqc_eqb in Hc.
      rewrite StrFacts.app_cons. cbn [Str.partition Str.strip_prefix].
      rewrite Hc. by rewrite (IH Hs). }
    unfold Str.split1. rewrite Hp. cbn [Str.item_last last default]. unfold id.
    rewrite (UrlFacts.take_until_app _ _ _ Hs).
    change (take_until "/" (NL +:+ "/")) with NL.
    rewrite (UrlFacts.take_until_app _ _ _ Hcol).
    change (take_until ":" NL) with NL.
    unfold strip_www, Str.lower.
    assert (Str.map Chars.lower (d +:+ NL) = d +:+ NL) as ->.
    { pose proof (DomainFacts.lower_clean _ Hc) as Hl. unfold Str.lower in Hl.
      clear -Hl. induction d as [|c d IH]; [done|].
      rewrite StrFacts.app_cons. cbn [Str.map] in *.
      injection Hl as Hc Hd. by rewrite Hc, (IH Hd). }
    assert (Str.startswith (d +:+ NL) "www." = false) as ->; [|done].
    unfold Str.startswith in *.
    destruct (Str.strip_prefix "www." d) eqn:E; [done|].
    by rewrite (ValidatorFacts.strip_prefix_line_feed "www." d eq_refl E). }
  split; [done|].
  unfold unique_sorted. rewrite filter_cons, filter_nil.
  rewrite Hn. destruct (decide (d +:+ NL <> "")) as [_|Hne]; cycle 1.
  { destruct Hne. by destruct d. }
  rewrite fmap_cons, fmap_nil, Hn. cbn [list_to_set foldr].
  assert (filter (fun x => is_valid_domain x = true)
            ({[d +:+ NL]} ∪ ∅ : gset string) = {[d +:+ NL]}) as ->.
  { apply set_eq. intros x. rewrite elem_of_filter, elem_of_union, elem_of_singleton.
    rewrite elem_of_empty. split; [intros [_ [?|[]]]; done|].
    intros ->. split; [done | by left]. }
  unfold py_sorted. rewrite elements_singleton. done.
Qed.

Lemma valid_domain_with_line_feed_witness :
  is_valid_domain ("example.com" +:+ NL) = true /\
  (Str.startswith "example.com" "www." = false ->
   normalize_domain ("example.com" +:+ NL +:+ "/") = "example.com" +:+ NL /\
   unique_sorted ["example.com" +:+ NL +:+ "/"] = ["example.com" +:+ NL]).
Proof.
  apply (valid_domain_with_line_feed "example.com"); [reflexivity | reflexivity |].
  vm_compute. lia.
Defined.

(** ** Normal forms and their set *)

Module NormalFormFacts.
Import StrFacts ReFacts DomainFacts UrlFacts.

Lemma take_until_none c s : Str.any (Chars.eqc c) (take_until c s) = false.
Proof.
  induction s as [|x s IH]; [done|]. cbn [take_until].
  destruct (Ascii.eqb c x) eqn:E; [done|].
  cbn [Str.any]. by rewrite eqc_eqb, E, IH.
Qed.

Lemma lower_keeps_slash c : Chars.eqc "/" (Chars.lower c) = Chars.eqc "/" c.
Proof. by_char c. Qed.

Lemma lower_keeps_colon c : Chars.eqc ":" (Chars.lower c) = Chars.eqc ":" c.
Proof. by_char c. Qed.

Lemma lower_lower c : Chars.lower (Chars.lower c) = Chars.lower c.
Proof. by_char c. Qed.

Lemma lower_not_upper c : Chars.isupper_ascii (Chars.lower c) = false.
Proof. by_char c. Qed.

Lemma any_lower (x : ascii) s :
  (forall c, Chars.eqc x (Chars.lower c) = Chars.eqc x c) ->
  Str.any (Chars.eqc x) (Str.lower s) = Str.any (Chars.eqc x) s.
Proof.
  intros Hx. unfold Str.lower. induction s as [|c s IH]; [done|].
  cbn [Str.map Str.any]. by rewrite Hx, IH.
Qed.

Lemma lower_idem s : Str.lower (Str.lower s) = Str.lower s.
Proof.
  unfold Str.lower. induction s as [|c s IH]; [done|].
  cbn [Str.map]. by rewrite lower_lower, IH.
Qed.

Lemma lower_drop n s : Str.lower (Str.drop n s) = Str.drop n (Str.lower s).
Proof.
  revert s. induction n as [|n IH]; intros s; [done|].
  destruct s as [|c s]; [done|]. unfold Str.lower in *. cbn [Str.drop Str.map]. apply IH.
Qed.

Lemma any_upper_lower s : Str.any Chars.isupper_ascii (Str.lower s) = false.
Proof.
  unfold Str.lower. induction s as [|c s IH]; [done|].
  cbn [Str.map Str.any]. by rewrite lower_not_upper, IH.
Qed.

Lemma unique_sorted_forms urls : unique_sorted urls = py_sorted (valid_forms urls).
Proof. reflexivity. Qed.

Lemma elem_of_valid_forms d urls :
  d ∈ valid_forms urls <->
  is_valid_domain d = true /\ exists u, u ∈ urls /\ normalize_domain u = d.
Proof.
  rewrite <- elem_of_py_sorted, <- unique_sorted_forms.
  apply elem_of_unique_sorted.
Qed.

Lemma list_to_set_py_sorted (s : gset string) : list_to_set (py_sorted s) = s.
Proof.
  apply set_eq. intros d. by rewrite elem_of_list_to_set, elem_of_py_sorted.
Qed.

End NormalFormFacts.

Module MergeFacts.
Import StrFacts DomainFacts NormalFormFacts.

Lemma valid_forms_app a b : valid_forms (a ++ b) = valid_forms a ∪ valid_forms b.
Proof.
  apply set_eq. intros d. rewrite elem_of_union, !elem_of_valid_forms.
  split.
  - intros (Hv & u & [Hu|Hu]%elem_of_app & E); [left|right]; eauto.
  - intros [(Hv & u & Hu & E)|(Hv & u & Hu & E)];
      (split; [done|]); exists u; (split; [|done]); apply elem_of_app; auto.
Qed.

Lemma foldl_merge (acc : gset string) rs :
  foldl (fun s r => s ∪ list_to_set (unique_sorted r)) acc rs
  = acc ∪ valid_forms (concat rs).
Proof.
  revert acc. induction rs as [|r rs IH]; intros acc; cbn [foldl concat].
  - apply set_eq. intros d. rewrite elem_of_union, elem_of_valid_forms.
    split; [by left|]. intros [?|(_ & u & Hu & _)]; [done|]. by apply elem_of_nil in Hu.
  - rewrite IH, valid_forms_app, unique_sorted_forms, list_to_set_py_sorted.
    by rewrite (assoc_L (∪)).
Qed.

End MergeFacts.

(** X4: whatever the input, the result of [normalize_domain] has no
    slash and no colon, has no upper-case letter [A-Z] and is left as it is
    by lower-casing. *)
Theorem normalize_domain_result (raw : string) :
  Str.any (Chars.eqc "/") (normalize_domain raw) = false /\
  Str.any (Chars.eqc ":") (normalize_domain raw) = false /\
  Str.any Chars.isupper_ascii (normalize_domain raw) = false /\
  Str.lower (normalize_domain raw) = normalize_domain raw.
Proof.
  rewrite UrlFacts.normalize_pipeline.
  set (y := Str.item_last (Str.split1 "//" (Str.strip raw))).
  set (x := take_until ":" (take_until "/" y)).
  assert (Str.any (Chars.eqc "/") (Str.lower x) = false) as Hs.
  { rewrite (NormalFormFacts.any_lower _ _ NormalFormFacts.lower_keeps_slash).
    apply UrlFacts.take_until_any, NormalFormFacts.take_until_none. }
  assert (Str.any (Chars.eqc ":") (Str.lower x) = false) as Hc.
  { rewrite (NormalFormFacts.any_lower _ _ NormalFormFacts.lower_keeps_colon).
    apply NormalFormFacts.take_until_none. }
  pose proof (NormalFormFacts.any_upper_lower x) as Hu.
  unfold strip_www. destruct (Str.startswith (Str.lower x) "www.").
  - repeat split; try by apply UrlFacts.drop_any.
    by rewrite NormalFormFacts.lower_drop, NormalFormFacts.lower_idem.
  - repeat split; try done. apply NormalFormFacts.lower_idem.
Qed.

(** X5: [unique_sorted urls] is sorted and without duplicates, holds
    exactly the valid normal forms of the elements of [urls], and depends
    on the set of these elements only: neither their order nor their
    repetitions matter. *)
Theorem unique_sorted_is_a_set_function (urls : list string) :
  Sorted String.le (unique_sorted urls) /\
  NoDup (unique_sorted urls) /\
  (forall d, d ∈ unique_sorted urls <->
             is_valid_domain d = true /\
             exists u, u ∈ urls /\ normalize_domain u = d) /\
  (forall urls', (forall u, u ∈ urls' <-> u ∈ urls) ->
                 unique_sorted urls' = unique_sorted urls).
Proof.
  split; [apply DomainFacts.py_sorted_Sorted|].
  split; [apply DomainFacts.py_sorted_NoDup|].
  split; [intros d; apply DomainFacts.elem_of_unique_sorted|].
  intros urls' Hsame. rewrite !NormalFormFacts.unique_sorted_forms. f_equal.
  apply set_eq. intros d. rewrite !NormalFormFacts.elem_of_valid_forms.
  by setoid_rewrite Hsame.
Qed.

(** X6: merging the [unique_sorted] lists of the queries into one set,
    as the orchestrator does, and sorting it gives what [unique_sorted]
    gives on all the hits taken together. *)
Theorem merged_results_are_unique_sorted_of_all_hits (rs : list (list string)) :
  py_sorted (merge_results rs) = unique_sorted (concat rs).
Proof.
  unfold merge_results. rewrite MergeFacts.foldl_merge.
  rewrite NormalFormFacts.unique_sorted_forms. f_equal.
  apply set_eq. intros d. rewrite elem_of_union, elem_of_empty.
  split; [by intros [[]|?] | by right].
Qed.

(** X7: the text written for a list of domains, read back with
    [splitlines], is that list again, provided no domain holds a line
    break; this is so for valid domains that do not end with a line
    feed. *)
Theorem output_text_reads_back (l : list string) :
  (Forall (fun d => Str.any is_linebreak d = false) l ->
   splitlines (output_text l) = l) /\
  (Forall (fun d => is_valid_domain d = true /\ ends_with_newline d = false) l ->
   splitlines (output_text l) = l).
Proof.
  split; [apply OutputFacts.splitlines_output|].
  intros H. apply OutputFacts.splitlines_output.
  eapply Forall_impl; [exact H|]. intros d [Hv Hn]. cbn beta.
  eapply StrFacts.all_not_any; [apply OutputFacts.ishost_not_linebreak|].
  by apply DomainFacts.valid_chars.
Qed.

Lemma output_text_reads_back_witness :
  splitlines (output_text ["austin-pipes.org"; "zeta-plumbing.com"])
  = ["austin-pipes.org"; "zeta-plumbing.com"].
Proof.
  apply (proj2 (output_text_reads_back ["austin-pipes.org"; "zeta-plumbing.com"])).
  repeat constructor.
Defined.

(** ** The requests of a Google query *)

Module GoogleFacts.
Import RunFacts.

Lemma issues_ret {A} P (a : A) : issues P (mret a : M A).
Proof. intros w. exists []. by split. Qed.

Lemma issues_out_of_fuel {A} P : issues P (@out_of_fuel A).
Proof. intros w. exists []. by split. Qed.

Lemma issues_bind {A C} P (m : M A) (k : A -> M C) :
  issues P m -> (forall a, issues P (k a)) -> issues P (m ≫= k).
Proof.
  intros Hm Hk w. rewrite bind_unfold. specialize (Hm w).
  destruct (m w) as [a w1|w1]; [|done].
  destruct Hm as (new1 & E1 & H1). specialize (Hk a w1).
  destruct (k a w1) as [c w2|w2]; destruct Hk as (new2 & E2 & H2);
    exists (new2 ++ new1); (split; [by rewrite E2, E1, (assoc_L (++))|]);
    by apply Forall_app.
Qed.

Lemma issues_keeps {A} P (m : M A) : keeps gets m -> issues P m.
Proof.
  intros Hk w. specialize (Hk w). destruct (m w); exists []; by split.
Qed.

Lemma issues_http_get P env p : P p -> issues P (http_get env p).
Proof. intros Hp w. exists [p]. split; [done|]. by constructor. Qed.

Lemma issues_log P l msg : issues P (log_record l msg).
Proof. apply issues_keeps. by intros w. Qed.

Lemma issues_sleep P env d : issues P (sleep env d).
Proof. apply issues_keeps. by apply sleep_keeps. Qed.

Lemma issues_limiter P env b : issues P (_sleep_limiter env b).
Proof.
  apply issues_keeps. unfold _sleep_limiter.
  apply limiter_keeps; [|by intros].
  intros e d. by apply sleep_keeps.
Qed.

Ltac issue :=
  lazymatch goal with
  | |- issues _ (mbind _ _) => apply issues_bind; [issue | intros ?; issue]
  | |- issues _ (mret _) => apply issues_ret
  | |- issues _ out_of_fuel => apply issues_out_of_fuel
  | |- issues _ (log_record _ _) => apply issues_log
  | |- issues _ (sleep _ _) => apply issues_sleep
  | |- issues _ (if ?c then _ else _) => destruct c; issue
  | |- issues _ (match ?x with _ => _ end) => destruct x; issue
  | |- issues _ (let _ := _ in _) => cbv zeta; issue
  | |- issues _ _ => first [ exact (issues_ret _ _) | eauto ]
  end.

Lemma google_attempts_issues P fuel env params delays attempt results :
  P params -> issues P (google_attempts fuel env params delays attempt results).
Proof.
  intros Hp. revert attempt. induction fuel as [|fuel IH]; intros attempt;
    cbn [google_attempts]; [apply issues_out_of_fuel|].
  apply issues_bind; [by apply issues_http_get|]. intros r. issue.
Qed.

Lemma google_pages_issues pages fuel env b k c kw mr delays start results :
  1 <= start -> start mod 10 = 1 ->
  issues (google_request_ok k c kw)
    (google_pages pages fuel env b k c kw mr delays start results).
Proof.
  revert start results. induction pages as [|pages IH]; intros start results H1 Hmod;
    cbn [google_pages].
  - destruct (_ && _); [apply issues_out_of_fuel | apply issues_ret].
  - destruct ((len results <? mr) && (start <=? 91)) eqn:Hc; [|apply issues_ret].
    apply andb_prop in Hc as [Hlt%Z.ltb_lt Hle%Z.leb_le].
    apply issues_bind; [apply issues_limiter|intros _].
    apply issues_bind.
    { apply google_attempts_issues. unfold google_request_ok. cbn.
      repeat split; try done; lia. }
    intros r. destruct (mr <=? len r); [apply issues_ret|].
    apply IH; [lia|].
    replace (start + 10) with (start + 1 * 10) by lia.
    by rewrite Z_mod_plus_full.
Qed.

(** One turn of the retry loop that is not retried: one request. *)
Lemma google_attempts_once fuel env params delays attempt results w :
  delays = [] \/ retryable (google_get env (length (gets w)) params) = false ->
  exists res w',
    google_attempts (S fuel) env params delays attempt results w = Done res w' /\
    gets w' = params :: gets w /\
    (adds_nothing (google_get env (length (gets w)) params) = true -> res = results).
Proof.
  intros H. cbn [google_attempts]. rewrite bind_unfold. unfold http_get at 1.
  assert (delays = [] ->
          (0 <=? Z.min (attempt + 1 - 1) (len delays - 1))
          && (Z.min (attempt + 1 - 1) (len delays - 1) <? len delays) = false) as Hidx.
  { intros ->. unfold len. cbn [length]. apply andb_false_intro1. apply Z.leb_gt. lia. }
  destruct (google_get env (length (gets w)) params) as [code body| | |];
    cbn [retryable adds_nothing] in *.
  - destruct (code =? 200).
    + destruct body as [items|]; eexists _, _; (split; [reflexivity|]);
        (split; [done|]); [|done].
      intros Hn%bool_decide_eq_true. by rewrite Hn, app_nil_r.
    + destruct ((code =? 429) || (code =? 503)).
      * destruct H as [Hd|?]; [|done]. rewrite (Hidx Hd).
        eexists _, _. split; [reflexivity|]. by split.
      * eexists _, _. split; [reflexivity|]. by split.
  - destruct H as [Hd|?]; [|done]. rewrite (Hidx Hd).
    eexists _, _. split; [reflexivity|]. by split.
  - destruct H as [Hd|?]; [|done]. rewrite (Hidx Hd).
    eexists _, _. split; [reflexivity|]. by split.
  - eexists _, _. split; [reflexivity|]. by split.
Qed.

Lemma limiter_gets env b w :
  limiter_accepted env b ->
  exists w', _sleep_limiter env b w = Done tt w' /\ gets w' = gets w.
Proof.
  intros Hlim.
  destruct (limiter_returns env b w Hlim) as [w' E].
  exists w'. split; [done|]. unfold _sleep_limiter in E.
  pose proof (limiter_keeps gets (fun env d => RunFacts.sleep_keeps gets env d (fun _ => eq_refl)) (fun _ _ _ _ => eq_refl)
                env (rate_limit_rps b) (jitter_percent b) w) as Hk.
  by rewrite E in Hk.
Qed.

(** Without retries every page costs one request, and the pages left from
    [start] are at most [(101 - start) / 10]. *)
Lemma google_pages_return pages fuel env b k c kw mr delays start results w :
  limiter_accepted env b ->
  (delays = [] \/ forall n p, retryable (google_get env n p) = false) ->
  101 - start <= 10 * Z.of_nat pages ->
  exists res w',
    google_pages pages (S fuel) env b k c kw mr delays start results w = Done res w' /\
    10 * Z.of_nat (length (gets w')) <= 10 * Z.of_nat (length (gets w)) + Z.max 0 (101 - start).
Proof.
  intros Hlim Hnr. revert start results w.
  induction pages as [|pages IH]; intros start results w Hp; cbn [google_pages].
  - destruct ((len results <? mr) && (start <=? 91)) eqn:Hc.
    + apply andb_prop in Hc as [_ Hle%Z.leb_le]. lia.
    + eexists _, _. split; [reflexivity|]. lia.
  - destruct ((len results <? mr) && (start <=? 91)) eqn:Hc; cycle 1.
    { eexists _, _. split; [reflexivity|]. lia. }
    apply andb_prop in Hc as [_ Hle%Z.leb_le].
    rewrite bind_unfold. destruct (limiter_gets env b w Hlim) as (w1 & -> & Hg1).
    rewrite bind_unfold.
    edestruct (google_attempts_once fuel env) as (r & w2 & -> & Hg2 & _).
    { destruct Hnr as [?|Hnr]; [by left | right; apply Hnr]. }
    destruct (mr <=? len r).
    + eexists _, _. split; [reflexivity|]. rewrite Hg2, Hg1. cbn [length]. lia.
    + destruct (IH (start + 10) r w2) as (res & w3 & -> & Hg3); [lia|].
      eexists _, _. split; [reflexivity|]. rewrite Hg2, Hg1 in Hg3.
      cbn [length] in Hg3. lia.
Qed.

(** With replies that add nothing, the pagination runs through all the
    offsets that are left. *)
Lemma google_pages_all pages fuel env b k c kw mr delays (n : nat) w :
  1 <= mr -> (n <= 10)%nat -> (n <= pages)%nat ->
  limiter_accepted env b ->
  (forall i p, adds_nothing (google_get env i p) = true) ->
  exists w',
    google_pages pages (S fuel) env b k c kw mr delays
      (101 - 10 * Z.of_nat n) [] w = Done [] w' /\
    exists new, gets w' = new ++ gets w /\
                param_start <$> new = take n all_page_starts.
Proof.
  intros Hmr Hn Hp Hlim Hadd. revert pages w Hp.
  induction n as [|n IH]; intros pages w Hp.
  - assert (google_pages pages (S fuel) env b k c kw mr delays
              (101 - 10 * Z.of_nat 0) [] w = Done [] w) as ->.
    { destruct pages; cbn [google_pages];
        replace ((len [] <? mr) && (101 - 10 * Z.of_nat 0 <=? 91)) with false;
        try done; symmetry; apply andb_false_intro2; by apply Z.leb_gt. }
    eexists. split; [done|]. by exists [].
  - destruct pages as [|pages]; [lia|]. cbn [google_pages].
    assert ((len (@nil string) <? mr)
            && (101 - 10 * Z.of_nat (S n) <=? 91) = true) as ->.
    { apply andb_true_intro. split; [apply Z.ltb_lt|apply Z.leb_le]; unfold len; cbn; lia. }
    rewrite bind_unfold. destruct (limiter_gets env b w Hlim) as (w1 & -> & Hg1).
    rewrite bind_unfold.
    edestruct (google_attempts_once fuel env) as (r & w2 & -> & Hg2 & Hr).
    { right. specialize (Hadd (length (gets w1))).
      match goal with |- retryable (google_get _ _ ?p) = false =>
        specialize (Hadd p); destruct (google_get env (length (gets w1)) p)
          as [code body| | |]; cbn in Hadd |- *; try done end.
      destruct (code =? 200) eqn:E; [|by apply negb_true_iff].
      apply Z.eqb_eq in E. by subst. }
    rewrite (Hr (Hadd _ _)).
    assert ((mr <=? len (@nil string)) = false) as ->
      by (apply Z.leb_gt; unfold len; cbn; lia).
    replace (101 - 10 * Z.of_nat (S n) + 10) with (101 - 10 * Z.of_nat n) by lia.
    assert (n <= 10)%nat as Hn' by lia. assert (n <= pages)%nat as Hp' by lia.
    destruct (IH Hn' pages w2 Hp') as (w3 & -> & new & Hg3 & Hs).
    eexists. split; [reflexivity|].
    exists (new ++ [ {| param_key := k; param_cx := c; param_q := kw;
                        param_num := Z.min 10 (mr - len (@nil string));
                        param_safe := "active";
                        param_start := 101 - 10 * Z.of_nat (S n) |} ]).
    split; [by rewrite Hg3, Hg2, Hg1, <- (assoc_L (++))|].
    rewrite fmap_app, Hs. cbn [fmap list_fmap param_start].
    clear -Hn. do 10 (destruct n as [|n]; [reflexivity|]). lia.
Qed.

End GoogleFacts.

(** X8: every request of [GoogleCSEProvider.query], however the query
    ends, carries the provider's key and engine id, the keyword and
    [safe=active], asks for between 1 and 10 results and starts at one of
    the offsets 1, 11, ..., 91. *)
Theorem google_requests_are_well_formed
    (fuel : nat) (env : Env) (b : BaseProvider) (api_key cx kw : string)
    (max_results : Z) (w : World) :
  match google_query fuel env b api_key cx kw max_results w with
  | Done _ w' | Stopped _ w' =>
      exists new, gets w' = new ++ gets w /\
                  Forall (google_request_ok api_key cx kw) new
  end.
Proof.
  assert (issues (google_request_ok api_key cx kw)
            (google_query fuel env b api_key cx kw max_results)) as H; [|apply H].
  unfold google_query.
  destruct (negb (can_continue b)); [apply GoogleFacts.issues_ret|].
  destruct (negb _); [apply GoogleFacts.issues_ret|].
  apply GoogleFacts.issues_bind; [|intros r; apply GoogleFacts.issues_ret].
  by apply GoogleFacts.google_pages_issues.
Qed.

(** X9: when [time.sleep] takes the limiter's delays and no reply is
    retryable, or [retry_attempts] leaves no delay,
    [GoogleCSEProvider.query] returns, after at most ten requests (one
    per page). *)
Theorem google_query_returns_within_ten_requests
    (fuel : nat) (env : Env) (b : BaseProvider) (api_key cx kw : string)
    (max_results : Z) (w : World) :
  (10 <= fuel)%nat ->
  limiter_accepted env b ->
  retry_attempts b <= 1 \/ (forall n p, retryable (google_get env n p) = false) ->
  exists res p' w',
    google_query fuel env b api_key cx kw max_results w = Done (res, p') w' /\
    (length (gets w') <= length (gets w) + 10)%nat.
Proof.
  intros Hfuel Hlim Hnr. unfold google_query.
  destruct (negb (can_continue b)); [eexists _, _, _; split; [reflexivity|lia]|].
  destruct (negb _); [eexists _, _, _; split; [reflexivity|lia]|].
  rewrite RunFacts.bind_unfold.
  destruct fuel as [|fuel]; [lia|].
  destruct (GoogleFacts.google_pages_return (S fuel) fuel env b api_key cx kw
              max_results (_delays b) 1 [] w) as (res & w' & -> & Hg).
  - exact Hlim.
  - destruct Hnr as [Hr|Hnr]; [left|by right].
    apply length_zero_iff_nil. unfold _delays.
    rewrite BackoffFacts.backoff_delays_length. lia.
  - lia.
  - eexists _, _, _. split; [reflexivity|]. lia.
Qed.

Lemma google_query_returns_within_ten_requests_witness :
  exists res p' w',
    google_query 10 forbidden_env (default_provider "google_cse")
      "key" "cx" "plumber austin" 25 empty_world = Done (res, p') w' /\
    (length (gets w') <= length (gets empty_world) + 10)%nat.
Proof.
  apply (google_query_returns_within_ten_requests 10 forbidden_env
           (default_provider "google_cse") "key" "cx"
           "plumber austin" 25 empty_world); [lia| |].
  - intros n _ _. vm_compute. reflexivity.
  - right. intros n p. reflexivity.
Defined.

Module ResultFacts.
Import RunFacts.

Lemma py_take_nil {A} n : py_take n (@nil A) = [].
Proof. unfold py_take. destruct (n <? 0); by rewrite take_nil. Qed.

Lemma py_take_length {A} n (l : list A) : 0 <= n -> len (py_take n l) <= n.
Proof.
  intros Hn. unfold py_take, len.
  destruct (n <? 0) eqn:E; [apply Z.ltb_lt in E; lia|].
  rewrite length_take. lia.
Qed.

Lemma py_take_nonneg {A} n (l : list A) : 0 <= n -> py_take n l = take (Z.to_nat n) l.
Proof.
  intros Hn. unfold py_take.
  destruct (n <? 0) eqn:E; [apply Z.ltb_lt in E; lia|done].
Qed.

Lemma google_pages_nothing_asked pages fuel env b k c kw mr delays start w :
  mr <= 0 ->
  google_pages pages fuel env b k c kw mr delays start [] w = Done [] w.
Proof.
  intros Hmr.
  assert ((len (@nil string) <? mr) && (start <=? 91) = false) as E.
  { apply andb_false_intro1. apply Z.ltb_ge. unfold len. cbn. lia. }
  destruct pages; cbn [google_pages]; by rewrite E.
Qed.

Lemma respect_searches env d w :
  crawl_delay_accepted env d ->
  exists w', _respect_ddg_delay env d w = Done tt w' /\
             searches w' = searches w /\ gets w' = gets w.
Proof.
  unfold _respect_ddg_delay, crawl_delay_accepted. destruct d as [d|]; [|by eexists].
  intros Hacc. destruct (_ && _); [|by eexists].
  rewrite sleep_returns by (by apply Hacc). by eexists.
Qed.

Lemma limiter_searches env b w :
  limiter_accepted env b ->
  exists w', _sleep_limiter env b w = Done tt w' /\
             searches w' = searches w /\ gets w' = gets w.
Proof.
  intros Hlim.
  destruct (limiter_returns env b w Hlim) as [w' E].
  exists w'. split; [done|]. unfold _sleep_limiter in E.
  pose proof (limiter_keeps searches (fun env d => RunFacts.sleep_keeps searches env d (fun _ => eq_refl)) (fun _ _ _ _ => eq_refl)
                env (rate_limit_rps b) (jitter_percent b) w) as H1.
  pose proof (limiter_keeps gets (fun env d => RunFacts.sleep_keeps gets env d (fun _ => eq_refl)) (fun _ _ _ _ => eq_refl)
                env (rate_limit_rps b) (jitter_percent b) w) as H2.
  rewrite E in H1, H2. by split.
Qed.

(** The DuckDuckGo loop: bounded; one call when it does not raise; the
    whole budget when every call raises. *)
Lemma ddg_attempts_bounded fuel env kw mr delays attempt results w :
  0 <= attempt -> Z.max 0 (len delays - attempt) < Z.of_nat fuel ->
  Forall (fun d => sleep_accepts env d = true) delays ->
  exists res w',
    ddg_attempts fuel env kw mr delays attempt results w = Done res w' /\
    gets w' = gets w /\
    (length (searches w') <=
       length (searches w) + Z.to_nat (Z.max 1 (len delays + 1 - attempt)))%nat /\
    (raised (ddgs_text env (length (searches w)) kw mr) = false ->
     searches w' = (kw, mr) :: searches w /\ sleeps w' = sleeps w /\
     res = results ++ row_urls (rows (ddgs_text env (length (searches w)) kw mr))) /\
    ((forall n, raised (ddgs_text env n kw mr) = true) ->
     length (searches w')
     = (length (searches w) + Z.to_nat (Z.max 1 (len delays + 1 - attempt)))%nat /\
     sleeps w' = rev (drop (Z.to_nat attempt) delays) ++ sleeps w).
Proof.
  intros Ha Hfuel Hacc. revert attempt results w Ha Hfuel.
  induction fuel as [|fuel IH]; intros attempt results w Ha Hfuel; [lia|].
  cbn [ddg_attempts]. rewrite bind_unfold. unfold ddg_search at 1.
  destruct (raised (ddgs_text env (length (searches w)) kw mr)) eqn:Hr.
  - destruct (attempt + 1 <=? len delays) eqn:E.
    + apply Z.leb_le in E. rewrite bind_unfold.
      rewrite sleep_returns.
      2:{ apply RetryFacts.delay_index_accepted; [done|].
          apply andb_true_intro. split; [apply Z.leb_le | apply Z.ltb_lt]; lia. }
      edestruct (IH (attempt + 1)) as (res & w' & -> & Hg & Hs & _ & Hall); [lia|lia|].
      exists res, w'. split; [done|]. split; [done|].
      split; [cbn in Hs; lia|]. split; [done|].
      intros Hev. destruct (Hall Hev) as [Hn Hsl]. split; [cbn in Hn; lia|].
      rewrite Hsl. cbn [sleeps].
      replace (attempt + 1 - 1) with attempt by lia.
      assert (Z.to_nat attempt < length delays)%nat as Hlt by (unfold len in E; lia).
      destruct (lookup_lt_is_Some_2 delays _ Hlt) as [x Hx].
      rewrite (drop_S _ _ _ Hx). unfold delay_index. rewrite Hx. cbn [default].
      replace (Z.to_nat (attempt + 1)) with (S (Z.to_nat attempt)) by lia.
      cbn [rev]. by rewrite <- (assoc_L (++)).
    + apply Z.leb_gt in E. eexists _, _. split; [reflexivity|]. cbn.
      split; [done|]. split; [lia|]. split; [done|]. intros _.
      split; [lia|]. rewrite drop_ge by (unfold len in E; lia). done.
  - eexists _, _. split; [reflexivity|]. cbn.
    split; [done|]. split; [lia|]. split; [done|].
    intros Hev. specialize (Hev (length (searches w))). congruence.
Qed.

End ResultFacts.

(** X10: a reply that adds no link (a status that is neither 200 nor
    retryable, an unreadable body, a page without usable items, an
    unexpected exception) ends the page but not the query: when every
    reply is of that kind and [time.sleep] takes the limiter's delays, a
    query for at least one result asks for all ten pages, offsets 1 to 91,
    and only then returns [[]], with [queries_made] one more than it
    was. *)
Theorem google_failures_cost_ten_requests
    (fuel : nat) (env : Env) (b : BaseProvider) (api_key cx kw : string)
    (max_results : Z) (w : World) :
  credentials_present api_key cx = true -> can_continue b = true ->
  1 <= max_results -> (10 <= fuel)%nat ->
  limiter_accepted env b ->
  (forall i p, adds_nothing (google_get env i p) = true) ->
  exists w' new p',
    google_query fuel env b api_key cx kw max_results w = Done ([], p') w' /\
    p' = GoogleCSEProvider (count_query b) api_key cx /\
    queries_made (base_of p') = queries_made b + 1 /\
    gets w' = new ++ gets w /\
    param_start <$> new = all_page_starts.
Proof.
  intros Hc Hq Hmr Hfuel Hlim Hadd. unfold google_query, credentials_present in *.
  rewrite Hq, Hc. cbn [negb]. rewrite RunFacts.bind_unfold.
  destruct fuel as [|fuel]; [lia|].
  destruct (GoogleFacts.google_pages_all (S fuel) fuel env b api_key cx kw
              max_results (_delays b) 10 w) as (w' & E & new & Hg & Hs);
    [done|lia|lia|done|done|].
  change (101 - 10 * Z.of_nat 10) with 1 in E. rewrite E.
  exists w', new, (GoogleCSEProvider (count_query b) api_key cx).
  rewrite ResultFacts.py_take_nil. by repeat split.
Qed.

Lemma google_failures_cost_ten_requests_witness :
  exists w' new p',
    google_query 10 forbidden_env (default_provider "google_cse")
      "key" "cx" "plumber austin" 5 empty_world = Done ([], p') w' /\
    p' = GoogleCSEProvider (count_query (default_provider "google_cse"))
                           "key" "cx" /\
    queries_made (base_of p') = 0 + 1 /\
    gets w' = new ++ gets empty_world /\
    param_start <$> new = all_page_starts.
Proof.
  apply (google_failures_cost_ten_requests 10 forbidden_env
           (default_provider "google_cse") "key" "cx"
           "plumber austin" 5 empty_world).
  - reflexivity.
  - reflexivity.
  - lia.
  - lia.
  - intros n _ _. vm_compute. reflexivity.
  - intros i p. reflexivity.
Defined.

(** X11: when [time.sleep] takes the limiter's delay and the first page
    answers 200 with at least [max_results] usable links, the query makes
    that one request (offset 1, asking for [min(10, max_results)]) and
    returns the first [max_results] links in the order of the reply, an
    item giving its [link] or else its [formattedUrl]; [queries_made] is
    one more than it was. *)
Theorem google_first_page_suffices
    (fuel : nat) (env : Env) (b : BaseProvider) (api_key cx kw : string)
    (max_results : Z) (items : list SearchItem) (w : World) :
  let first_request :=
    {| param_key := api_key; param_cx := cx; param_q := kw;
       param_num := Z.min 10 max_results; param_safe := "active";
       param_start := 1 |} in
  credentials_present api_key cx = true -> can_continue b = true ->
  1 <= max_results -> (1 <= fuel)%nat ->
  limiter_accepted env b ->
  google_get env (length (gets w)) first_request = Response 200 (Some items) ->
  max_results <= len (page_links items) ->
  exists w' p',
    google_query fuel env b api_key cx kw max_results w
    = Done (take (Z.to_nat max_results) (page_links items), p') w' /\
    p' = GoogleCSEProvider (count_query b) api_key cx /\
    queries_made (base_of p') = queries_made b + 1 /\
    gets w' = first_request :: gets w.
Proof.
  intros first_request Hc Hq Hmr Hfuel Hlim Hget Hlen.
  unfold google_query, credentials_present in *.
  rewrite Hq, Hc. cbn [negb]. rewrite RunFacts.bind_unfold.
  destruct fuel as [|fuel]; [lia|]. cbn [google_pages].
  assert ((len (@nil string) <? max_results) && (1 <=? 91) = true) as ->.
  { apply andb_true_intro. split; [apply Z.ltb_lt; unfold len; cbn; lia | done]. }
  rewrite RunFacts.bind_unfold.
  destruct (GoogleFacts.limiter_gets env b w Hlim) as (w1 & -> & Hg1).
  rewrite RunFacts.bind_unfold. cbn [google_attempts].
  rewrite RunFacts.bind_unfold. unfold http_get at 1. rewrite Hg1.
  change (len (@nil string)) with 0. rewrite Z.sub_0_r.
  fold first_request. rewrite Hget. cbn [Z.eqb Pos.eqb].
  rewrite RunFacts.bind_unfold. unfold log_record at 1.
  rewrite RunFacts.ret_unfold. cbn [app].
  assert ((max_results <=? len (page_links items)) = true) as -> by by apply Z.leb_le.
  rewrite RunFacts.ret_unfold, (ResultFacts.py_take_nonneg max_results) by lia.
  eexists _, _. split; [reflexivity|]. by cbn.
Qed.

Lemma google_first_page_suffices_witness :
  exists w' p',
    google_query 1 page_env (default_provider "google_cse")
      "key" "cx" "plumber austin" 2 empty_world
    = Done (take (Z.to_nat 2) (page_links sample_items), p') w' /\
    p' = GoogleCSEProvider (count_query (default_provider "google_cse"))
                           "key" "cx" /\
    queries_made (base_of p') = 0 + 1 /\
    gets w' = {| param_key := "key"; param_cx := "cx"; param_q := "plumber austin";
                 param_num := Z.min 10 2; param_safe := "active";
                 param_start := 1 |} :: gets empty_world.
Proof.
  apply (google_first_page_suffices 1 page_env
           (default_provider "google_cse") "key" "cx"
           "plumber austin" 2 sample_items empty_world).
  - reflexivity.
  - reflexivity.
  - lia.
  - lia.
  - intros n _ _. vm_compute. reflexivity.
  - reflexivity.
  - vm_compute. discriminate.
Defined.

(** X12: a query that returns gives at most [max_results] URLs when
    [max_results] is not negative; and a Google query for no result (zero
    or less) returns [[]] without a request. *)
Theorem query_result_is_capped
    (fuel : nat) (env : Env) (p : Provider) (kw : string) (max_results : Z)
    (w : World) (res : list string) (p' : Provider) (w' : World) :
  query fuel env p kw max_results w = Done (res, p') w' ->
  (0 <= max_results -> len res <= max_results) /\
  (max_results <= 0 ->
   forall b k c, p = GoogleCSEProvider b k c -> res = [] /\ gets w' = gets w).
Proof.
  intros H. split.
  - intros Hmr. destruct p as [b k c|b a d]; cbn [query] in H;
      unfold google_query, ddg_query in H.
    + destruct (negb (can_continue b)); [by injection H as <- _ _; unfold len; cbn|].
      destruct (negb _); [by injection H as <- _ _; unfold len; cbn|].
      rewrite RunFacts.bind_unfold in H.
      destruct (google_pages _ _ _ _ _ _ _ _ _ _ _ w); [|done].
      injection H as <- _ _. by apply ResultFacts.py_take_length.
    + destruct (negb (can_continue b)); [by injection H as <- _ _; unfold len; cbn|].
      destruct (negb _).
      { rewrite RunFacts.bind_unfold in H. unfold log_record at 1 in H.
        injection H as <- _ _. unfold len. cbn. done. }
      rewrite RunFacts.bind_unfold in H. destruct (_sleep_limiter env b w); [|done].
      rewrite RunFacts.bind_unfold in H. destruct (_respect_ddg_delay env d _); [|done].
      rewrite RunFacts.bind_unfold in H. destruct (ddg_attempts _ _ _ _ _ _ _ _); [|done].
      injection H as <- _ _. by apply ResultFacts.py_take_length.
  - intros Hmr b k c ->. cbn [query] in H. unfold google_query in H.
    destruct (negb (can_continue b)); [by injection H as <- _ <-|].
    destruct (negb _); [by injection H as <- _ <-|].
    rewrite RunFacts.bind_unfold in H.
    rewrite (ResultFacts.google_pages_nothing_asked _ _ _ _ _ _ _ _ _ _ _ Hmr) in H.
    injection H as <- _ <-. by rewrite ResultFacts.py_take_nil.
Qed.

Lemma query_result_is_capped_witness :
  exists res p' w',
    query 3 stub_env
      (DuckDuckGoProvider (default_provider "duckduckgo") true None)
      "plumber austin" 2 empty_world = Done (res, p') w' /\
    (0 <= 2 -> len res <= 2).
Proof.
  destruct (query 3 stub_env
              (DuckDuckGoProvider (default_provider "duckduckgo") true None)
              "plumber austin" 2 empty_world) as [[res p'] w'|w'] eqn:E.
  - exists res, p', w'. split; [reflexivity|].
    exact (proj1 (query_result_is_capped _ _ _ _ _ _ _ _ _ E)).
  - vm_compute in E. discriminate E.
Defined.

(** X13: when [time.sleep] takes the limiter, crawl and backoff delays,
    [DuckDuckGoProvider.query] returns as soon as the fuel exceeds the
    number of delays, without any request to the Google API and after at
    most [max(1, retry_attempts)] calls of the search library: one call
    when it does not raise, all of them when every call raises. *)
Theorem ddg_query_stays_within_budget
    (fuel : nat) (env : Env) (b : BaseProvider) (allowed : bool)
    (delay : option float) (kw : string) (max_results : Z) (w : World) :
  (length (_delays b) < fuel)%nat ->
  limiter_accepted env b -> crawl_delay_accepted env delay ->
  delays_accepted env b ->
  exists res p' w',
    ddg_query fuel env b allowed delay kw max_results w = Done (res, p') w' /\
    gets w' = gets w /\
    (length (searches w')
     <= length (searches w) + Z.to_nat (Z.max 1 (retry_attempts b)))%nat /\
    (can_continue b = true -> ddgs_available env = true ->
     (raised (ddgs_text env (length (searches w)) kw max_results) = false ->
      searches w' = (kw, max_results) :: searches w) /\
     ((forall n, raised (ddgs_text env n kw max_results) = true) ->
      length (searches w')
      = (length (searches w) + Z.to_nat (Z.max 1 (retry_attempts b)))%nat)).
Proof.
  intros Hfuel Hlim Hcrawl Hdel. unfold ddg_query.
  assert (Z.max 1 (len (_delays b) + 1 - 0) = Z.max 1 (retry_attempts b)) as Hbudget.
  { unfold _delays, len. rewrite BackoffFacts.backoff_delays_length. lia. }
  destruct (can_continue b); cbn [negb]; cycle 1.
  { eexists _, _, _. split; [reflexivity|]. split; [done|]. split; [lia|done]. }
  destruct (ddgs_available env); cbn [negb]; cycle 1.
  { eexists _, _, _. split; [reflexivity|]. cbn. split; [done|]. split; [lia|done]. }
  rewrite RunFacts.bind_unfold.
  destruct (ResultFacts.limiter_searches env b w Hlim) as (w1 & -> & Hs1 & Hg1).
  rewrite RunFacts.bind_unfold.
  destruct (ResultFacts.respect_searches env delay w1 Hcrawl) as (w2 & -> & Hs2 & Hg2).
  rewrite RunFacts.bind_unfold.
  destruct (ResultFacts.ddg_attempts_bounded fuel env kw max_results (_delays b) 0 [] w2)
    as (res & w3 & -> & Hg3 & Hle & Hone & Hall); [done|unfold len; lia|exact Hdel|].
  rewrite Hbudget in Hle, Hall. rewrite Hs2, Hs1 in Hle, Hone, Hall.
  eexists _, _, _. split; [reflexivity|].
  split; [congruence|]. split; [done|]. intros _ _. split.
  - intros Hr. by destruct (Hone Hr) as (-> & _).
  - intros Hev. by destruct (Hall Hev).
Qed.

Lemma ddg_query_stays_within_budget_witness :
  exists res p' w',
    ddg_query 3 throttled_env (default_provider "duckduckgo") true None
      "plumber austin" 10 empty_world = Done (res, p') w' /\
    gets w' = gets empty_world /\
    (length (searches w')
     <= length (searches empty_world)
        + Z.to_nat (Z.max 1 (retry_attempts (default_provider "duckduckgo"))))%nat /\
    (can_continue (default_provider "duckduckgo") = true ->
     ddgs_available throttled_env = true ->
     (raised (ddgs_text throttled_env (length (searches empty_world))
                "plumber austin" 10) = false ->
      searches w' = ("plumber austin", 10) :: searches empty_world) /\
     ((forall n, raised (ddgs_text throttled_env n "plumber austin" 10) = true) ->
      length (searches w')
      = (length (searches empty_world)
         + Z.to_nat (Z.max 1 (retry_attempts
                                (default_provider "duckduckgo"))))%nat)).
Proof.
  apply (ddg_query_stays_within_budget 3 throttled_env
           (default_provider "duckduckgo") true None
           "plumber austin" 10 empty_world).
  - vm_compute. lia.
  - intros n _ _. vm_compute. reflexivity.
  - exact I.
  - unfold delays_accepted. vm_compute. repeat constructor.
Defined.

(** ** The loops of the orchestrator *)

Module LoopFacts.
Import RunFacts.

Lemma query_consumed fuel env p kw mr w res p' w' :
  query fuel env p kw mr w = Done (res, p') w' ->
  can_continue (base_of p) = true -> consumed 1 p p'.
Proof.
  intros H%QueryFacts.query_inv Hc. rewrite Hc in H. subst p'.
  unfold can_continue in Hc. apply Z.ltb_lt in Hc.
  unfold consumed. destruct p; cbn in *; repeat split; lia.
Qed.

Lemma skipped_consumed p : can_continue (base_of p) = false -> consumed 1 p p.
Proof.
  unfold can_continue, consumed. intros Hc%Z.ltb_ge. repeat split; lia.
Qed.

Lemma consumed_step k p p' p'' :
  0 <= k -> consumed 1 p p' -> consumed k p' p'' -> consumed (1 + k) p p''.
Proof.
  unfold consumed. intros Hk (Hn & Ht & Hq) (Hn' & Ht' & Hq').
  repeat split; try congruence. rewrite Hq', Hq, Ht. lia.
Qed.

Lemma query_providers_consumed fuel env kw mr ps t w ps' t' w' :
  query_providers fuel env kw mr ps t w = Done (ps', t') w' ->
  Forall2 (consumed 1) ps ps'.
Proof.
  revert t w ps' t' w'. induction ps as [|p ps IH]; intros t w ps' t' w' H.
  - injection H as <- <- <-. constructor.
  - cbn [query_providers] in H.
    destruct (can_continue (base_of p)) eqn:Hc; cbn [negb] in H.
    + rewrite bind_unfold in H.
      destruct (query fuel env p kw mr w) as [[res p1] w1|] eqn:Eq; [|done].
      rewrite bind_unfold in H.
      destruct (query_providers _ _ _ _ ps _ w1) as [[ps1 t1] w2|] eqn:E; [|done].
      injection H as <- <- <-. constructor; [|by eapply IH].
      by eapply query_consumed.
    + rewrite bind_unfold in H. unfold log_record at 1 in H.
      rewrite bind_unfold in H.
      destruct (query_providers _ _ _ _ ps t _) as [[ps1 t1] w1|] eqn:E; [|done].
      injection H as <- <- <-. constructor; [|by eapply IH].
      by apply skipped_consumed.
Qed.

(** With every quota spent, a keyword only logs one skip per provider. *)
Lemma query_providers_spent fuel env kw mr ps t w :
  Forall (fun p => can_continue (base_of p) = false) ps ->
  exists w',
    query_providers fuel env kw mr ps t w = Done (ps, t) w' /\
    offline w w' /\ sleeps w' = sleeps w /\ draws w' = draws w /\
    length (log w') = (length (log w) + length ps)%nat.
Proof.
  intros H. revert w. induction H as [|p ps Hp _ IH]; intros w.
  - exists w. cbn. repeat split; lia.
  - cbn [query_providers]. rewrite Hp. cbn [negb].
    rewrite bind_unfold. unfold log_record at 1. rewrite bind_unfold.
    edestruct IH as (w' & -> & (Hg & Hr & Hs & Hf) & Hsl & Hd & Hl).
    exists w'. split; [reflexivity|]. cbn in *.
    repeat split; try done. lia.
Qed.





End LoopFacts.

(** X14: over a run of the orchestrator that returns, each provider is
    queried once for every keyword until its quota is spent: its
    [queries_made] grows by the number of keywords or by the quota it had
    left, whichever is smaller. *)
Theorem quota_is_consumed_keyword_by_keyword
    (fuel : nat) (env : Env) (kws : list string) (mr : Z)
    (ps : list Provider) (t : Tally) (w : World)
    (ps' : list Provider) (t' : Tally) (w' : World) :
  orchestrate fuel env kws mr ps t w = Done (ps', t') w' ->
  Forall2 (consumed (len kws)) ps ps'.
Proof.
  revert ps t w. induction kws as [|kw kws IH]; intros ps t w H.
  - injection H as <- <- <-. apply Forall_Forall2_diag, Forall_forall.
    intros p _. unfold consumed, len. cbn. repeat split; lia.
  - cbn [orchestrate] in H. rewrite RunFacts.bind_unfold in H.
    destruct (query_providers fuel env kw mr ps t w) as [[ps1 t1] w1|] eqn:E; [|done].
    apply LoopFacts.query_providers_consumed in E. apply IH in H.
    eapply Forall2_trans; [|exact E|exact H].
    intros x y z Hxy Hyz. replace (len (kw :: kws)) with (1 + len kws)
      by (unfold len; cbn [length]; lia).
    apply (LoopFacts.consumed_step _ x y z); [unfold len; lia|done|done].
Qed.

Lemma quota_is_consumed_keyword_by_keyword_witness :
  Forall2 (consumed (len ["plumber austin"; "roofer dallas"; "electrician waco"]))
          [one_query_ddg] [counted one_query_ddg].
Proof.
  destruct (orchestrate 3 stub_env
              ["plumber austin"; "roofer dallas"; "electrician waco"] 100
              [one_query_ddg] (initial_tally [one_query_ddg]) empty_world)
    as [[ps' t'] w'|w'] eqn:E.
  - assert (ps' = [counted one_query_ddg]) as <-.
    { vm_compute in E. injection E as <- _ _. reflexivity. }
    exact (quota_is_consumed_keyword_by_keyword _ _ _ _ _ _ _ _ _ _ E).
  - vm_compute in E. discriminate E.
Defined.

(** X15: once every provider has spent its quota, the orchestrator goes
    through the remaining keywords without a request, a sleep or a random
    draw, whatever the fuel: providers and tally stay as they are and the
    log gets one skip record per keyword and provider. *)
Theorem spent_quotas_stop_all_traffic
    (fuel : nat) (env : Env) (kws : list string) (mr : Z)
    (ps : list Provider) (t : Tally) (w : World) :
  Forall (fun p => can_continue (base_of p) = false) ps ->
  exists w',
    orchestrate fuel env kws mr ps t w = Done (ps, t) w' /\
    offline w w' /\ sleeps w' = sleeps w /\ draws w' = draws w /\
    length (log w') = (length (log w) + length kws * length ps)%nat.
Proof.
  intros H. revert w. induction kws as [|kw kws IH]; intros w.
  - exists w. cbn. repeat split; lia.
  - cbn [orchestrate]. rewrite RunFacts.bind_unfold.
    destruct (LoopFacts.query_providers_spent fuel env kw mr ps t w H)
      as (w1 & -> & (Hg & Hr & Hs & Hf) & Hsl & Hd & Hl).
    destruct (IH w1) as (w' & -> & (Hg' & Hr' & Hs' & Hf') & Hsl' & Hd' & Hl').
    exists w'. split; [reflexivity|]. unfold offline.
    repeat split; try congruence. cbn [length]. lia.
Qed.

Lemma spent_quotas_stop_all_traffic_witness :
  exists w',
    orchestrate 0 throttled_env ["plumber austin"; "roofer dallas"] 100
      [counted one_query_ddg] (initial_tally [one_query_ddg]) empty_world
    = Done ([counted one_query_ddg], initial_tally [one_query_ddg]) w' /\
    offline empty_world w' /\ sleeps w' = sleeps empty_world /\
    draws w' = draws empty_world /\
    length (log w')
    = (length (log empty_world)
       + length ["plumber austin"; "roofer dallas"] * length [counted one_query_ddg])%nat.
Proof.
  apply (spent_quotas_stop_all_traffic 0 throttled_env
           ["plumber austin"; "roofer dallas"] 100 [counted one_query_ddg]
           (initial_tally [one_query_ddg]) empty_world).
  repeat constructor.
Defined.



(** ** The exit status of [main] *)

Module ExitFacts.
Import RunFacts.

(** Up to the searches and the write of a real run, [main] goes the way
    its status says. *)
Lemma main_cases fuel env args w :
  (main_status env args <> 0 /\
   exists w', main fuel env args w = exits (main_status env args) w' /\
              gets w' = gets w /\ searches w' = searches w /\
              sleeps w' = sleeps w /\ files w' = files w /\
              (main_status env args <> 1 ->
               exists msg rest, log w' = {| level := ERROR; message := msg |} :: rest)) \/
  (main_status env args = 0 /\
   match main fuel env args w with
   | Done code _ => code = 0
   | Stopped _ _ => args_dry_run args = false
   end).
Proof.
  unfold main, main_status.
  destruct (load_config env (args_config args)) as [err|[kws doc]].
  { left. split; [done|]. eexists. split; [reflexivity|]. cbn.
    repeat split; try done. by eexists _, _. }
  rewrite bind_unfold.
  pose proof (MainFacts.build_providers_files env (args_provider args) doc w) as Hf.
  pose proof (MainFacts.build_providers_quiet env (args_provider args) doc w) as Hq.
  destruct (google_plan (args_provider args) doc) eqn:Eg; cycle 2.
  { rewrite (InitFacts.build_providers_raises_at_google _ _ _ _ Eg).
    left. split; [done|]. exists w. split; [reflexivity|]. by repeat split. }
  all: destruct (duckduckgo_plan (args_provider args) doc) eqn:Ed.
  all: try (destruct (InitFacts.build_providers_raises_at_ddg env (args_provider args)
                        doc w) as (w1 & E & _);
            [by rewrite Eg|done|];
            rewrite E in Hf, Hq |- *; destruct Hq as (Hg & Hs & Hsl);
            left; split; [done|]; exists w1; split; [reflexivity|];
            by repeat split).
  all: destruct (InitFacts.build_providers_returns env (args_provider args) doc w)
         as (ps & w1 & E & Hnil & _ & _ & Hrep);
         [by rewrite Eg|by rewrite Ed|].
  all: rewrite E in Hf, Hq |- *; destruct Hq as (Hg & Hs & Hsl).
  all: rewrite Eg, Ed in Hnil.
  { rewrite (proj2 Hnil (conj eq_refl eq_refl)).
    left. split; [done|]. eexists. split; [reflexivity|]. cbn.
    repeat split; try done. by eexists _, _. }
  all: destruct ps as [|p ps]; [by destruct (proj1 Hnil eq_refl)|].
  all: destruct (args_dry_run args).
  all: try (right; split; [done|];
            rewrite bind_unfold; unfold log_record at 1; rewrite bind_unfold;
            match goal with |- context [dry_run_report ?e ?l ?w2] =>
              destruct (Hrep w2) as (w3 & -> & _)
            end; reflexivity).
  all: destruct (ensure_writable env (args_output args)).
  all: try (left; split; [done|]; eexists; split; [reflexivity|]; cbn;
            repeat split; try done; by eexists _, _).
  all: right; split; [done|]; rewrite bind_unfold.
  all: match goal with |- context [orchestrate ?f ?e ?k ?m ?l ?t ?w2] =>
         destruct (orchestrate f e k m l t w2) as [[ps' t'] w2'|]; [|done]
       end.
  all: rewrite bind_unfold; unfold write_output.
  all: destruct (mkdir_parent env (args_output args)); [|done|done].
  all: destruct (opens env (args_output args)); [|done].
  all: unfold write_file at 1; rewrite bind_unfold.
  all: unfold log_record at 1; rewrite bind_unfold; unfold print_summary.
  all: by destruct (stdout_takes env).
Qed.

End ExitFacts.

(** X17: the exit status of [main] is the one its configuration and
    arguments determine. When [main] returns it is 2 when the
    configuration does not load, 3 when no provider is selected and
    enabled, 4 when the probe of the output directory meets a
    [PermissionError] in a real run, and 0 in every other case, whatever
    the search services answered. When [main] ends with an exception,
    either the setup raised (the construction of a provider, or [mkdir]
    in the probe), or a real run that was on its way to status 0 did; only
    such a run can go on for ever. *)
Theorem exit_status_depends_on_setup_only
    (fuel : nat) (env : Env) (args : Args) (w : World) :
  match main fuel env args w with
  | Done code _ =>
      code = main_status env args /\ (code = 0 \/ code = 2 \/ code = 3 \/ code = 4)
  | Stopped Exception _ =>
      main_status env args = 1 \/
      (main_status env args = 0 /\ args_dry_run args = false)
  | Stopped Fuel _ =>
      main_status env args = 0 /\ args_dry_run args = false
  end.
Proof.
  destruct (ExitFacts.main_cases fuel env args w)
    as [(Hnz & w2 & E & _)|[Hz Hrun]].
  - rewrite E. unfold exits.
    destruct (main_status env args =? 1) eqn:E1; [left; by apply Z.eqb_eq|].
    apply Z.eqb_neq in E1. split; [done|].
    revert Hnz E1. unfold main_status.
    destruct (load_config _ _) as [|[kws doc]]; [lia|].
    destruct (google_plan (args_provider args) doc),
             (duckduckgo_plan (args_provider args) doc); try lia;
      destruct (args_dry_run args); try lia;
      destruct (ensure_writable env (args_output args)); lia.
  - destruct (main fuel env args w) as [code w'|[] w'].
    + subst code. split; [done | by left].
    + done.
    + by right.
Qed.

Example exit_statuses :
  main_status stub_env (sample_args ChooseDuckDuckGo false) = 0 /\
  main_status read_only_env (sample_args ChooseAll false) = 4 /\
  main_status broken_env (sample_args ChooseAll false) = 1 /\
  main_status broken_env (sample_args ChooseAll true) = 0 /\
  main_status (bare_env (fun _ => Document null_entry_doc)) (sample_args ChooseAll false)
  = 1 /\
  main_status closed_env (sample_args ChooseDuckDuckGo false) = 0.
Proof. by vm_compute. Qed.



(** ** Crawl delays *)

Module CrawlFacts.
Import StrFacts ReFacts DomainFacts.

(** [matches_prefix] finds the prefixes that are words of the pattern. *)
Lemma matches_prefix_lang r s :
  Re.matches_prefix r s = true <-> exists s1 s2, s = s1 +:+ s2 /\ Re.lang r s1.
Proof.
  revert r. induction s as [|c s IH]; intros r; cbn [Re.matches_prefix].
  - rewrite orb_false_r. split.
    + intros H%nullable_lang. by exists "", "".
    + intros (s1 & s2 & E & H). symmetry in E. apply app_eq_nil in E as [-> _].
      by apply lang_nil_nullable.
  - rewrite orb_true_iff, IH. split.
    + intros [H%nullable_lang|(s1 & s2 & -> & H%deriv_lang)].
      * by exists "", (String c s).
      * by exists (String c s1), s2.
    + intros (s1 & s2 & E & H). destruct s1 as [|c' s1].
      * left. by apply lang_nil_nullable.
      * rewrite app_cons in E. injection E as -> ->.
        right. exists s1, s2. split; [done | by apply lang_deriv].
Qed.

Lemma class_star_intro p s :
  Str.all p s = true -> Re.lang (Re.Star (Re.Class p)) s.
Proof.
  induction s as [|c s IH]; [constructor|].
  cbn [Str.all]. intros [Hc Hs]%andb_prop.
  change (String c s) with (String c "" +:+ s).
  constructor; [by constructor | by apply IH].
Qed.

Lemma class_star_all p s :
  Re.lang (Re.Star (Re.Class p)) s -> Str.all p s = true.
Proof. intros H. eapply lang_classes_within; [|exact H]. simpl. auto. Qed.

(** A word matched without regard to case is the word up to case. *)
Lemma lang_WordI w s : Re.lang (WordI w) s <-> Str.lower s = Str.lower w.
Proof.
  revert s. induction w as [|c w IH]; intros s; cbn [WordI].
  - split.
    + intros H. by inversion H.
    + destruct s; [constructor | done].
  - split.
    + intros H. inversion H as [| |? ? s1 s2 H1 H2| | | |]; subst.
      inversion H1 as [|? x Hx| | | | |]; subst.
      rewrite eqc_eqb in Hx. apply Ascii.eqb_eq in Hx.
      rewrite app_cons. unfold Str.lower in *. cbn [Str.map].
      apply IH in H2. change ("" +:+ s2) with s2. by rewrite Hx, H2.
    + destruct s as [|x s]; [done|]. unfold Str.lower in *. cbn [Str.map].
      intros [= Hx Hs]. change (String x s) with (String x "" +:+ s).
      constructor; [|by apply IH].
      constructor. rewrite eqc_eqb. apply Ascii.eqb_eq. done.
Qed.

Lemma lit_inv c s : Re.lang (Re.Lit c) s -> s = String c "".
Proof.
  intros H. inversion H as [|? x Hx| | | | |]; subst.
  rewrite eqc_eqb in Hx. by apply Ascii.eqb_eq in Hx as ->.
Qed.

Lemma first_directive env before line after :
  Forall (fun l => Re.matches_prefix crawl_delay_re l = false) before ->
  Re.matches_prefix crawl_delay_re line = true ->
  parse_crawl_delay_lines env (before ++ line :: after) = crawl_delay_value env line.
Proof.
  intros Hb Hl. induction Hb as [|l before Hl' _ IH]; cbn [app parse_crawl_delay_lines].
  - by rewrite Hl.
  - by rewrite Hl'.
Qed.

Lemma no_directive env lines :
  Forall (fun l => Re.matches_prefix crawl_delay_re l = false) lines ->
  parse_crawl_delay_lines env lines = None.
Proof.
  induction 1 as [|l lines Hl _ IH]; cbn [parse_crawl_delay_lines]; [done|].
  by rewrite Hl.
Qed.

End CrawlFacts.

(** X19: the pattern of [parse_crawl_delay] accepts exactly the lines
    that start with a crawl-delay directive: optional blanks, crawl,
    an optional hyphen, delay (letters in either case), a colon
    between optional blanks, and at least one digit or dot; what follows
    is free. *)
Theorem crawl_delay_pattern_accepts_directives (line : string) :
  Re.matches_prefix crawl_delay_re line = true <-> crawl_delay_directive line.
Proof.
  rewrite CrawlFacts.matches_prefix_lang. unfold crawl_delay_re, crawl_delay_directive.
  split.
  - intros (s1 & rest & -> & H).
    inversion H as [| |? ? ws1 r1 Hws1 H1| | | |]; subst.
    inversion H1 as [| |? ? w1 r2 Hw1 H2| | | |]; subst.
    inversion H2 as [| |? ? hy r3 Hhy H3| | | |]; subst.
    inversion H3 as [| |? ? w2 r4 Hw2 H4| | | |]; subst.
    inversion H4 as [| |? ? ws2 r5 Hws2 H5| | | |]; subst.
    inversion H5 as [| |? ? col r6 Hcol H6| | | |]; subst.
    inversion H6 as [| |? ? ws3 v Hws3 Hv| | | |]; subst.
    apply CrawlFacts.lit_inv in Hcol. subst col.
    exists ws1, w1, hy, w2, ws2, ws3, v, rest.
    split; [by rewrite !StrFacts.app_assoc|].
    apply CrawlFacts.class_star_all in Hws1, Hws2, Hws3.
    apply (CrawlFacts.lang_WordI "crawl") in Hw1. apply (CrawlFacts.lang_WordI "delay") in Hw2.
    repeat split; try done.
    + inversion Hhy as [| | |? ? ? He|? ? ? Hl| |]; subst.
      * left. by inversion He.
      * right. by apply CrawlFacts.lit_inv in Hl.
    + intros ->. inversion Hv as [| |? ? a b Ha Hb| | | |]; subst.
      inversion Ha; subst. discriminate.
    + inversion Hv as [| |? ? a b Ha Hb| | | |]; subst.
      inversion Ha as [|? x Hx| | | | |]; subst.
      rewrite StrFacts.app_cons. cbn [Str.all]. rewrite Hx. by apply CrawlFacts.class_star_all.
  - intros (ws1 & w1 & hy & w2 & ws2 & ws3 & v & rest & -> & Hws1 & Hw1 & Hhy
            & Hw2 & Hws2 & Hws3 & Hne & Hv).
    exists (ws1 +:+ w1 +:+ hy +:+ w2 +:+ ws2 +:+ ":" +:+ ws3 +:+ v), rest.
    split; [by rewrite !StrFacts.app_assoc|].
    constructor; [by apply CrawlFacts.class_star_intro|].
    constructor; [by apply CrawlFacts.lang_WordI|].
    constructor; [destruct Hhy as [->| ->];
                  [apply Re.lang_alt_l; constructor
                  |apply Re.lang_alt_r; apply ReFacts.lang_lit]|].
    constructor; [by apply CrawlFacts.lang_WordI|].
    constructor; [by apply CrawlFacts.class_star_intro|].
    constructor; [apply ReFacts.lang_lit|].
    constructor; [by apply CrawlFacts.class_star_intro|].
    destruct v as [|x v]; [done|]. cbn [Str.all] in Hv.
    apply andb_prop in Hv as [Hx Hv].
    change (String x v) with (String x "" +:+ v). unfold Re.Plus.
    constructor; [by constructor | by apply CrawlFacts.class_star_intro].
Qed.

(** X20: in a robots.txt made of lines that each end with a line feed,
    the first line the pattern accepts (one that starts with a crawl-delay
    directive) decides the result, also when its value does not parse:
    later directives are never read. The lines before it alone give
    [None]. *)
Theorem first_crawl_delay_directive_decides
    (env : Env) (before : list string) (line : string) (after : list string) :
  Forall (fun l => Str.any is_linebreak l = false) (before ++ line :: after) ->
  Forall (fun l => Re.matches_prefix crawl_delay_re l = false) before ->
  Re.matches_prefix crawl_delay_re line = true ->
  parse_crawl_delay env (output_text (before ++ line :: after))
  = crawl_delay_value env line /\
  parse_crawl_delay env (output_text before) = None.
Proof.
  intros Hlb Hb Hl. unfold parse_crawl_delay.
  rewrite (OutputFacts.splitlines_output _ Hlb).
  apply Forall_app in Hlb as [Hlb _].
  rewrite (OutputFacts.splitlines_output _ Hlb).
  split; [by apply CrawlFacts.first_directive | by apply CrawlFacts.no_directive].
Qed.

Lemma first_crawl_delay_directive_decides_witness :
  parse_crawl_delay throttled_env
    (output_text (["User-agent: *"; "# crawl-delay: 7"]
                    ++ "CRAWL-Delay : 2.5" :: ["Crawl-delay: 9"]))
  = crawl_delay_value throttled_env "CRAWL-Delay : 2.5" /\
  parse_crawl_delay throttled_env
    (output_text ["User-agent: *"; "# crawl-delay: 7"]) = None.
Proof.
  apply (first_crawl_delay_directive_decides throttled_env
           ["User-agent: *"; "# crawl-delay: 7"] "CRAWL-Delay : 2.5"
           ["Crawl-delay: 9"]).
  - repeat constructor.
  - repeat constructor.
  - reflexivity.
Defined.

(** ** The usage summary *)

Module SummaryFacts.
Import RunFacts.

Lemma total_insert (m : gmap string UsageEntry) k u :
  m !! k = None ->
  map_fold (fun (_ : string) u acc => usage_domains u + acc) 0 (<[k:=u]> m)
  = usage_domains u + map_fold (fun (_ : string) u acc => usage_domains u + acc) 0 m.
Proof.
  intros Hk.
  apply (map_fold_insert_L (fun (_ : string) u acc => usage_domains u + acc)); [|done].
  intros. lia.
Qed.

Lemma total_alter (m : gmap string UsageEntry) k u f :
  m !! k = Some u ->
  map_fold (fun (_ : string) u acc => usage_domains u + acc) 0 (alter f k m)
  = map_fold (fun (_ : string) u acc => usage_domains u + acc) 0 m
    - usage_domains u + usage_domains (f u).
Proof.
  intros Hk. rewrite <- (insert_delete_id m k u Hk) at 1 2.
  rewrite alter_insert. destruct (decide (k = k)); [|done].
  assert (delete k m !! k = None) as Hd by (apply lookup_delete_None; by left).
  rewrite !total_insert by done. lia.
Qed.

Lemma size_list_to_set_le (l : list string) :
  (size (list_to_set l : gset string) <= length l)%nat.
Proof.
  induction l as [|x l IH]; [done|]. cbn [list_to_set length].
  rewrite size_union_alt, size_singleton.
  assert (list_to_set l ∖ {[x]} ⊆ (list_to_set l : gset string)) as Hs
    by (intros y [Hy _]%elem_of_difference; exact Hy).
  apply subseteq_size in Hs. lia.
Qed.

Lemma size_update (s : gset string) (l : list string) :
  (size (s ∪ list_to_set l) <= size s + length l)%nat.
Proof.
  rewrite size_union_alt.
  assert (list_to_set l ∖ s ⊆ (list_to_set l : gset string)) as Hs
    by (intros y [Hy _]%elem_of_difference; exact Hy).
  apply subseteq_size in Hs.
  pose proof (size_list_to_set_le l). lia.
Qed.

Lemma name_counted p : name (base_of (counted p)) = name (base_of p).
Proof. by destruct p. Qed.

(** One keyword keeps the table in step with the counters, touches no
    entry but those of the providers it goes through, and counts every
    domain it adds. *)
Lemma query_providers_usage fuel env kw mr ps t w ps' t' w' :
  query_providers fuel env kw mr ps t w = Done (ps', t') w' ->
  NoDup (provider_names ps) ->
  Forall (usage_in_step t) ps ->
  Forall (usage_in_step t') ps' /\
  (forall n, n ∉ provider_names ps -> provider_usage t' !! n = provider_usage t !! n) /\
  provider_names ps' = provider_names ps /\
  Z.of_nat (size (all_domains t')) - total_found t'
  <= Z.of_nat (size (all_domains t)) - total_found t.
Proof.
  revert t w ps' t' w'. induction ps as [|p ps IH]; intros t w ps' t' w' H Hnd Hk.
  - injection H as <- <- <-. repeat split; done.
  - cbn [provider_names fmap list_fmap] in Hnd.
    apply NoDup_cons in Hnd as [Hp Hnd].
    apply Forall_cons in Hk as [Hkp Hk].
    cbn [query_providers] in H.
    destruct (can_continue (base_of p)) eqn:Hc; cbn [negb] in H.
    + rewrite bind_unfold in H.
      destruct (query fuel env p kw mr w) as [[res p1] w1|] eqn:Eq; [|done].
      apply QueryFacts.query_inv in Eq. rewrite Hc in Eq. subst p1.
      rewrite bind_unfold in H.
      destruct (query_providers _ _ _ _ ps _ w1) as [[ps1 t2] w2|] eqn:E; [|done].
      injection H as <- <- <-.
      destruct Hkp as (u & Hu & Hq).
      apply IH in E as (Hk2 & Hfr & Hn & Hsz); [|done|].
      2:{ apply Forall_forall. intros q Hq'.
          destruct (proj1 (Forall_forall _ _) Hk q Hq') as (v & Hv & Hvq).
          exists v. split; [|done].
          cbn [provider_usage]. rewrite lookup_alter_ne; [done|].
          rewrite name_counted. intros Heq. apply Hp. rewrite Heq.
          by apply (list_elem_of_fmap_2 (fun p => name (base_of p))). }
      cbn [provider_usage all_domains] in Hfr, Hsz.
      repeat split.
      * constructor; [|done]. unfold usage_in_step. rewrite name_counted in *.
        eexists. rewrite (Hfr _ Hp), lookup_alter, Hu.
        destruct (decide _); [|done]. split; [reflexivity|]. cbn. by destruct p.
      * intros n Hn'. cbn [provider_names fmap list_fmap] in Hn'.
        apply not_elem_of_cons in Hn' as [Hne Hn'].
        rewrite (Hfr _ Hn'), name_counted. by rewrite lookup_alter_ne.
      * cbn [provider_names fmap list_fmap]. rewrite name_counted. f_equal. exact Hn.
      * etrans; [exact Hsz|]. unfold total_found at 1. cbn [provider_usage].
        rewrite name_counted, (total_alter _ _ _ _ Hu). cbn [record_usage usage_domains].
        pose proof (size_update (all_domains t) (unique_sorted res)).
        unfold total_found, len. lia.
    + rewrite bind_unfold in H. unfold log_record at 1 in H.
      rewrite bind_unfold in H.
      destruct (query_providers _ _ _ _ ps t _) as [[ps1 t1] w1|] eqn:E; [|done].
      injection H as <- <- <-.
      apply IH in E as (Hk2 & Hfr & Hn & Hsz); [|done|done].
      repeat split; try done.
      * constructor; [|done]. destruct Hkp as (u & Hu & Hq).
        exists u. by rewrite (Hfr _ Hp).
      * intros n Hn'. cbn [provider_names fmap list_fmap] in Hn'.
        apply not_elem_of_cons in Hn' as [_ Hn']. by apply Hfr.
      * cbn [provider_names fmap list_fmap]. f_equal. exact Hn.
Qed.

Lemma orchestrate_usage fuel env kws mr ps t w ps' t' w' :
  orchestrate fuel env kws mr ps t w = Done (ps', t') w' ->
  NoDup (provider_names ps) ->
  Forall (usage_in_step t) ps ->
  Forall (usage_in_step t') ps' /\
  Z.of_nat (size (all_domains t')) - total_found t'
  <= Z.of_nat (size (all_domains t)) - total_found t.
Proof.
  revert ps t w. induction kws as [|kw kws IH]; intros ps t w H Hnd Hk.
  - injection H as <- <- <-. split; [done | lia].
  - cbn [orchestrate] in H. rewrite bind_unfold in H.
    destruct (query_providers fuel env kw mr ps t w) as [[ps1 t1] w1|] eqn:E; [|done].
    apply query_providers_usage in E as (Hk1 & _ & Hn & Hsz); [|done|done].
    apply IH in H as (Hk2 & Hsz2); [|by rewrite Hn|done].
    split; [done | lia].
Qed.

(** The table [main] starts from. *)
Lemma initial_usage ps :
  NoDup (provider_names ps) ->
  Forall (fun p => queries_made (base_of p) = 0) ps ->
  Forall (usage_in_step (initial_tally ps)) ps /\ total_found (initial_tally ps) = 0.
Proof.
  intros Hnd H0. split.
  - apply Forall_forall. intros p Hp.
    exists {| usage_queries_made := 0; usage_domains := 0 |}. split.
    + cbn [initial_tally provider_usage]. apply elem_of_list_to_map_1.
      * rewrite <- list_fmap_compose. exact Hnd.
      * by apply (list_elem_of_fmap_2
                    (fun p => (name (base_of p),
                               {| usage_queries_made := 0; usage_domains := 0 |}))).
    + cbn. symmetry. by apply (proj1 (Forall_forall _ _) H0).
  - clear H0. unfold total_found. cbn [initial_tally provider_usage].
    induction ps as [|p ps IH]; [done|].
    cbn [provider_names fmap list_fmap] in Hnd. apply NoDup_cons in Hnd as [Hp Hnd].
    rewrite fmap_cons. cbn [list_to_map foldr]. rewrite total_insert.
    + rewrite IH by done. reflexivity.
    + apply not_elem_of_list_to_map_1. by rewrite <- list_fmap_compose.
Qed.

End SummaryFacts.

(** X23: the usage summary of a run is consistent. Starting from the
    table [main] builds for providers with distinct names and counters at
    zero, when the loops return every provider has an entry whose
    [queries_made] is that provider's counter, and the [domains] counters
    add up to at least the number of unique domains written. *)
Theorem usage_summary_is_consistent
    (fuel : nat) (env : Env) (kws : list string) (mr : Z)
    (ps : list Provider) (w : World)
    (ps' : list Provider) (t' : Tally) (w' : World) :
  NoDup (provider_names ps) ->
  Forall (fun p => queries_made (base_of p) = 0) ps ->
  orchestrate fuel env kws mr ps (initial_tally ps) w = Done (ps', t') w' ->
  Forall (usage_in_step t') ps' /\
  len (py_sorted (all_domains t')) <= total_found t'.
Proof.
  intros Hnd H0 H.
  destruct (SummaryFacts.initial_usage ps Hnd H0) as [Hk Ht].
  apply SummaryFacts.orchestrate_usage in H as [Hk' Hsz]; [|done|done].
  split; [done|]. rewrite Ht in Hsz. cbn [initial_tally all_domains] in Hsz.
  rewrite size_empty in Hsz. unfold len, py_sorted.
  rewrite merge_sort_Permutation.
  change (length (elements (all_domains t'))) with (size (all_domains t')). lia.
Qed.

Lemma usage_summary_is_consistent_witness :
  exists ps' t' w',
    orchestrate 3 stub_env ["plumber austin"; "roofer dallas"] 100 [one_query_ddg]
      (initial_tally [one_query_ddg]) empty_world = Done (ps', t') w' /\
    Forall (usage_in_step t') ps' /\
    len (py_sorted (all_domains t')) <= total_found t'.
Proof.
  destruct (orchestrate 3 stub_env ["plumber austin"; "roofer dallas"] 100
              [one_query_ddg] (initial_tally [one_query_ddg]) empty_world)
    as [[ps' t'] w'|w'] eqn:E.
  - exists ps', t', w'. split; [reflexivity|].
    apply (usage_summary_is_consistent 3 stub_env
             ["plumber austin"; "roofer dallas"] 100 [one_query_ddg] empty_world
             ps' t' w'); [| |exact E].
    + apply NoDup_singleton.
    + repeat constructor.
  - vm_compute in E. discriminate E.
Defined.

(** ** Pacing and retries of the DuckDuckGo provider *)

Module PacingFacts.
Import RunFacts.

(** The limiter sleeps once at most, and only for a positive time. *)
Lemma limiter_paces env b w :
  limiter_accepted env b ->
  exists w', _sleep_limiter env b w = Done tt w' /\
             searches w' = searches w /\ log w' = log w /\
             (sleeps w' = sleeps w \/
              exists d, PrimFloat.ltb 0 d = true /\ sleeps w' = d :: sleeps w).
Proof.
  intros Hacc. unfold _sleep_limiter, RateLimiter_wait.
  destruct (PrimFloat.leb _ _) eqn:Hrps; [exists w; repeat split; by left|].
  rewrite bind_unfold. unfold random_uniform at 1.
  specialize (Hacc (draws w) Hrps). unfold limiter_delay in Hacc.
  match goal with |- context [PrimFloat.ltb 0 ?x] =>
    destruct (PrimFloat.ltb 0 x) eqn:E
  end.
  - rewrite sleep_returns by (by apply Hacc).
    eexists. split; [reflexivity|]. cbn. repeat split. right. eexists. by split.
  - eexists. split; [reflexivity|]. cbn. repeat split. by left.
Qed.

Lemma respect_paces env delay w :
  crawl_delay_accepted env delay ->
  exists w', _respect_ddg_delay env delay w = Done tt w' /\
             searches w' = searches w /\ log w' = log w /\
             (sleeps w' = sleeps w \/
              exists d, PrimFloat.ltb 0 d = true /\ sleeps w' = d :: sleeps w).
Proof.
  unfold _respect_ddg_delay, crawl_delay_accepted.
  destruct delay as [d|]; [|exists w; repeat split; by left].
  intros Hacc.
  destruct (negb _); cbn [andb] in *; [|exists w; repeat split; by left].
  destruct (PrimFloat.ltb 0 d) eqn:E; [|exists w; repeat split; by left].
  rewrite sleep_returns by (by apply Hacc).
  eexists. split; [reflexivity|]. cbn. repeat split. right. by exists d.
Qed.

(** When every call raises, the loop sleeps through the delays left, in
    order, and gives up with a warning. *)
Lemma ddg_attempts_all_raise fuel env kw mr delays attempt results w :
  0 <= attempt -> Z.max 0 (len delays - attempt) < Z.of_nat fuel ->
  Forall (fun d => sleep_accepts env d = true) delays ->
  (forall n, raised (ddgs_text env n kw mr) = true) ->
  exists res w',
    ddg_attempts fuel env kw mr delays attempt results w = Done res w' /\
    sleeps w' = rev (drop (Z.to_nat attempt) delays) ++ sleeps w /\
    log w' = {| level := WARNING; message := "ddg error" |} :: log w.
Proof.
  intros Ha Hfuel Hacc Hev. revert attempt results w Ha Hfuel.
  induction fuel as [|fuel IH]; intros attempt results w Ha Hfuel; [lia|].
  cbn [ddg_attempts]. rewrite bind_unfold. unfold ddg_search at 1. rewrite Hev.
  destruct (attempt + 1 <=? len delays) eqn:E.
  - apply Z.leb_le in E. rewrite bind_unfold.
    rewrite sleep_returns.
    2:{ apply RetryFacts.delay_index_accepted; [done|].
        apply andb_true_intro. split; [apply Z.leb_le | apply Z.ltb_lt]; lia. }
    edestruct (IH (attempt + 1)) as (res & w' & -> & Hsl & Hlog); [lia|lia|].
    exists res, w'. split; [done|]. split; [|done].
    rewrite Hsl. cbn [sleeps].
    replace (attempt + 1 - 1) with attempt by lia.
    assert (Z.to_nat attempt < length delays)%nat as Hlt by (unfold len in E; lia).
    destruct (lookup_lt_is_Some_2 delays _ Hlt) as [x Hx].
    rewrite (drop_S _ _ _ Hx). unfold delay_index. rewrite Hx. cbn [default].
    replace (Z.to_nat (attempt + 1)) with (S (Z.to_nat attempt)) by lia.
    cbn [rev]. by rewrite <- (assoc_L (++)).
  - apply Z.leb_gt in E. eexists _, _. split; [reflexivity|]. cbn.
    split; [|done]. by rewrite drop_ge by (unfold len in E; lia).
Qed.

End PacingFacts.

(** X24: when [time.sleep] takes the limiter, crawl and backoff delays, a
    [DuckDuckGoProvider.query] whose every search raises sleeps, after at
    most two pacing sleeps of positive length (rate limiter, crawl delay),
    exactly the delays of its backoff schedule, in order, then logs the
    error and returns, with [queries_made] one more than it was. *)
Theorem ddg_failures_sleep_through_the_schedule
    (fuel : nat) (env : Env) (b : BaseProvider) (allowed : bool)
    (delay : option float) (kw : string) (max_results : Z) (w : World) :
  can_continue b = true -> ddgs_available env = true ->
  (length (_delays b) < fuel)%nat ->
  limiter_accepted env b -> crawl_delay_accepted env delay ->
  delays_accepted env b ->
  (forall n, raised (ddgs_text env n kw max_results) = true) ->
  exists res p' w' pacing,
    ddg_query fuel env b allowed delay kw max_results w = Done (res, p') w' /\
    p' = DuckDuckGoProvider (count_query b) allowed delay /\
    queries_made (base_of p') = queries_made b + 1 /\
    sleeps w' = rev (_delays b) ++ pacing ++ sleeps w /\
    (length pacing <= 2)%nat /\
    Forall (fun d => PrimFloat.ltb 0 d = true) pacing /\
    log w' = {| level := WARNING; message := "ddg error" |} :: log w.
Proof.
  intros Hc Ha Hfuel Hlim Hcrawl Hdel Hev. unfold ddg_query. rewrite Hc, Ha. cbn [negb].
  rewrite RunFacts.bind_unfold.
  destruct (PacingFacts.limiter_paces env b w Hlim) as (w1 & -> & _ & Hl1 & Hp1).
  rewrite RunFacts.bind_unfold.
  destruct (PacingFacts.respect_paces env delay w1 Hcrawl) as (w2 & -> & _ & Hl2 & Hp2).
  rewrite RunFacts.bind_unfold.
  destruct (PacingFacts.ddg_attempts_all_raise fuel env kw max_results (_delays b)
              0 [] w2) as (res & w3 & -> & Hsl & Hlog);
    [done|unfold len; lia|exact Hdel|done|].
  change (drop (Z.to_nat 0) (_delays b)) with (_delays b) in Hsl.
  assert (log w3 = {| level := WARNING; message := "ddg error" |} :: log w) as Hlog'
    by (rewrite Hlog, Hl2, Hl1; reflexivity).
  destruct Hp1 as [E1|(d1 & Hd1 & E1)], Hp2 as [E2|(d2 & Hd2 & E2)];
    rewrite E2, E1 in Hsl.
  - exists (py_take max_results res),
      (DuckDuckGoProvider (count_query b) allowed delay), w3, []. split; [reflexivity|].
    repeat split; [done|cbn; lia|constructor|done].
  - exists (py_take max_results res),
      (DuckDuckGoProvider (count_query b) allowed delay), w3, [d2]. split; [reflexivity|].
    repeat split; [done|cbn; lia|by repeat constructor|done].
  - exists (py_take max_results res),
      (DuckDuckGoProvider (count_query b) allowed delay), w3, [d1]. split; [reflexivity|].
    repeat split; [done|cbn; lia|by repeat constructor|done].
  - exists (py_take max_results res),
      (DuckDuckGoProvider (count_query b) allowed delay), w3, [d2; d1]. split; [reflexivity|].
    repeat split; [done|cbn; lia|by repeat constructor|done].
Qed.

Lemma ddg_failures_sleep_through_the_schedule_witness :
  exists res p' w' pacing,
    ddg_query 3 throttled_env (default_provider "duckduckgo") true
      (Some 1.5%float) "plumber austin" 10 empty_world = Done (res, p') w' /\
    p' = DuckDuckGoProvider (count_query (default_provider "duckduckgo"))
           true (Some 1.5%float) /\
    queries_made (base_of p') = 0 + 1 /\
    sleeps w' = rev (_delays (default_provider "duckduckgo"))
                  ++ pacing ++ sleeps empty_world /\
    (length pacing <= 2)%nat /\
    Forall (fun d => PrimFloat.ltb 0 d = true) pacing /\
    log w' = {| level := WARNING; message := "ddg error" |} :: log empty_world.
Proof.
  apply (ddg_failures_sleep_through_the_schedule 3 throttled_env
           (default_provider "duckduckgo") true (Some 1.5%float)
           "plumber austin" 10 empty_world).
  - reflexivity.
  - reflexivity.
  - vm_compute. lia.
  - intros n _ _. vm_compute. reflexivity.
  - intros _. vm_compute. reflexivity.
  - unfold delays_accepted. vm_compute. repeat constructor.
  - intros n. reflexivity.
Defined.

(** X25: [results] is not reset between attempts: when [time.sleep]
    takes the limiter, crawl and backoff delays, the first search raises
    after yielding rows and the retry succeeds, the query returns the URLs
    of both attempts, first attempt first, cut to [max_results]; the rows
    of the retry may thus be cut off by repeats of the first attempt.
    [queries_made] is one more than it was. *)
Theorem ddg_retry_keeps_partial_results
    (fuel : nat) (env : Env) (b : BaseProvider) (allowed : bool)
    (delay : option float) (kw : string) (max_results : Z) (w : World) :
  can_continue b = true -> ddgs_available env = true ->
  2 <= retry_attempts b -> (2 <= fuel)%nat ->
  limiter_accepted env b -> crawl_delay_accepted env delay ->
  delays_accepted env b ->
  raised (ddgs_text env (length (searches w)) kw max_results) = true ->
  raised (ddgs_text env (S (length (searches w))) kw max_results) = false ->
  exists p' w',
    ddg_query fuel env b allowed delay kw max_results w
    = Done (py_take max_results
              (row_urls (rows (ddgs_text env (length (searches w)) kw max_results))
               ++ row_urls (rows (ddgs_text env (S (length (searches w))) kw
                                    max_results))), p') w' /\
    p' = DuckDuckGoProvider (count_query b) allowed delay /\
    queries_made (base_of p') = queries_made b + 1 /\
    length (searches w') = S (S (length (searches w))).
Proof.
  intros Hc Ha Hr Hfuel Hlim Hcrawl Hdel H1 H2.
  unfold ddg_query. rewrite Hc, Ha. cbn [negb].
  rewrite RunFacts.bind_unfold.
  destruct (PacingFacts.limiter_paces env b w Hlim) as (w1 & -> & Hs1 & _).
  rewrite RunFacts.bind_unfold.
  destruct (PacingFacts.respect_paces env delay w1 Hcrawl) as (w2 & -> & Hs2 & _).
  rewrite RunFacts.bind_unfold.
  destruct fuel as [|[|fuel]]; [lia|lia|].
  assert ((0 + 1 <=? len (_delays b)) = true) as Hd.
  { apply Z.leb_le. unfold _delays, len.
    rewrite BackoffFacts.backoff_delays_length. lia. }
  cbn [ddg_attempts]. rewrite RunFacts.bind_unfold. unfold ddg_search at 1.
  rewrite Hs2, Hs1, H1, Hd. rewrite RunFacts.bind_unfold.
  rewrite RunFacts.sleep_returns.
  2:{ apply RetryFacts.delay_index_accepted; [exact Hdel|].
      apply Z.leb_le in Hd. apply andb_true_intro.
      split; [apply Z.leb_le | apply Z.ltb_lt]; lia. }
  rewrite RunFacts.bind_unfold. unfold ddg_search at 1. cbn [searches length].
  rewrite H2. cbn [app].
  eexists _, _. split; [reflexivity|]. done.
Qed.

Lemma ddg_retry_keeps_partial_results_witness :
  exists p' w',
    ddg_query 2 flaky_env (default_provider "duckduckgo") true None
      "roofer dallas" 3 empty_world
    = Done (py_take 3
              (row_urls (rows (ddgs_text flaky_env (length (searches empty_world))
                                 "roofer dallas" 3))
               ++ row_urls (rows (ddgs_text flaky_env
                                    (S (length (searches empty_world)))
                                    "roofer dallas" 3))), p') w' /\
    p' = DuckDuckGoProvider (count_query (default_provider "duckduckgo"))
           true None /\
    queries_made (base_of p') = 0 + 1 /\
    length (searches w') = S (S (length (searches empty_world))).
Proof.
  apply (ddg_retry_keeps_partial_results 2 flaky_env
           (default_provider "duckduckgo") true None
           "roofer dallas" 3 empty_world).
  - reflexivity.
  - reflexivity.
  - vm_compute. discriminate.
  - lia.
  - intros n _ _. vm_compute. reflexivity.
  - exact I.
  - unfold delays_accepted. vm_compute. repeat constructor.
  - reflexivity.
  - reflexivity.
Defined.

(** The retry of the sample run repeats the two rows of the failed attempt
    and loses the third row of the answer. *)
Example ddg_retry_repeats_rows :
  exists p' w',
    ddg_query 2 flaky_env (default_provider "duckduckgo") true None
      "roofer dallas" 3 empty_world
    = Done (["https://alpha-roofing.com/"; "https://beta-roofing.com/";
             "https://alpha-roofing.com/"], p') w'.
Proof. eexists _, _. vm_compute. reflexivity. Qed.

(** ** Error sanitising *)

Module SanitizeFacts.
Import StrFacts ReFacts DomainFacts.

(** [longest_match] finds a prefix that is a word of the pattern, and
    the longest one. *)
Lemma longest_sound r s n :
  longest_match r s = Some n ->
  exists x rest, s = x +:+ rest /\ String.length x = n /\ Re.lang r x.
Proof.
  revert r n. induction s as [|c s IH]; intros r n; cbn [longest_match].
  - destruct (Re.nullable r) eqn:E; [|done]. intros [= <-].
    exists "", "". repeat split. by apply nullable_lang.
  - destruct (longest_match (Re.deriv c r) s) as [m|] eqn:E.
    + intros [= <-]. destruct (IH _ _ E) as (x & rest & -> & <- & H).
      exists (String c x), rest. repeat split. by apply deriv_lang.
    + destruct (Re.nullable r) eqn:En; [|done]. intros [= <-].
      exists "", (String c s). repeat split. by apply nullable_lang.
Qed.

Lemma longest_complete r x rest :
  Re.lang r x ->
  exists n, longest_match r (x +:+ rest) = Some n /\ (String.length x <= n)%nat.
Proof.
  revert r. induction x as [|c x IH]; intros r H.
  - apply lang_nil_nullable in H. change ("" +:+ rest) with rest.
    destruct rest as [|c s]; cbn [longest_match]; rewrite ?H.
    + exists 0%nat. by split.
    + destruct (longest_match (Re.deriv c r) s) as [m|].
      * exists (S m). split; [done | cbn; lia].
      * exists 0%nat. by split.
  - apply lang_deriv in H. destruct (IH _ H) as (n & E & Hn).
    rewrite app_cons. cbn [longest_match]. rewrite E.
    exists (S n). split; [done | cbn; lia].
Qed.

Lemma app_eq_app (a b c d : string) :
  a +:+ b = c +:+ d ->
  (exists k, a = c +:+ k /\ d = k +:+ b) \/ (exists k, c = a +:+ k /\ b = k +:+ d).
Proof.
  revert c. induction a as [|x a IH]; intros c H.
  - right. exists c. by split.
  - destruct c as [|y c].
    + left. exists (String x a). by split.
    + rewrite !app_cons in H. injection H as -> H.
      destruct (IH _ H) as [(k & -> & ->)|(k & -> & ->)].
      * left. by exists k.
      * right. by exists k.
Qed.

Lemma app_inv_head (a b c : string) : a +:+ b = a +:+ c -> b = c.
Proof.
  induction a as [|x a IH]; [done|]. rewrite !app_cons. intros [= H]. by apply IH.
Qed.

Lemma lower_app a b : Str.lower (a +:+ b) = Str.lower a +:+ Str.lower b.
Proof.
  unfold Str.lower. induction a as [|x a IH]; [done|].
  rewrite app_cons. cbn [Str.map]. by rewrite IH, app_cons.
Qed.

Lemma lower_length a : String.length (Str.lower a) = String.length a.
Proof. unfold Str.lower. induction a as [|x a IH]; [done|]. cbn. by rewrite IH. Qed.

Lemma space_not_secret c : Chars.isspace c = true -> is_secret_char c = false.
Proof. by_char c. Qed.

Lemma space_not_sep c : Chars.isspace c = true -> is_sep c = false.
Proof. by_char c. Qed.

Lemma secret_not_sep c : is_secret_char c = true -> is_sep c = false.
Proof. by_char c. Qed.

Lemma sep_lower c : is_sep (Chars.lower c) = is_sep c.
Proof. by_char c. Qed.

Lemma any_sep_lower s : Str.any is_sep (Str.lower s) = Str.any is_sep s.
Proof.
  unfold Str.lower. induction s as [|c s IH]; [done|].
  cbn [Str.map Str.any]. by rewrite sep_lower, IH.
Qed.

(** The words of [[=:]\s*[\w-]+]. *)
Lemma secret_re_inv y :
  Re.lang secret_re y ->
  exists c ws w,
    y = String c (ws +:+ w) /\ is_sep c = true /\
    Str.all Chars.isspace ws = true /\ w <> "" /\
    Str.all is_secret_char w = true.
Proof.
  unfold secret_re, Re.Plus. intros H.
  inversion H as [| |? ? s1 s2 H1 H2| | | |]; subst.
  inversion H1 as [|? c Hc| | | | |]; subst.
  inversion H2 as [| |? ? ws w Hws Hw| | | |]; subst.
  inversion Hw as [| |? ? a b Ha Hb| | | |]; subst.
  inversion Ha as [|? d Hd| | | | |]; subst.
  exists c, ws, (String d b). split; [done|]. split; [done|].
  split; [by apply CrawlFacts.class_star_all|]. split; [done|].
  cbn [Str.all]. rewrite Hd. by apply CrawlFacts.class_star_all.
Qed.

Lemma secret_re_intro c ws w :
  is_sep c = true -> Str.all Chars.isspace ws = true -> w <> "" ->
  Str.all is_secret_char w = true ->
  Re.lang secret_re (String c (ws +:+ w)).
Proof.
  intros Hc Hws Hne Hw. unfold secret_re, Re.Plus.
  change (String c (ws +:+ w)) with (String c "" +:+ (ws +:+ w)).
  constructor; [by constructor|].
  constructor; [by apply CrawlFacts.class_star_intro|].
  destruct w as [|d w]; [done|]. cbn [Str.all] in Hw.
  apply andb_prop in Hw as [Hd Hw].
  change (String d w) with (String d "" +:+ w).
  constructor; [by constructor | by apply CrawlFacts.class_star_intro].
Qed.

(** After the separator comes a blank or a character of the secret. *)
Lemma secret_re_exposed y :
  Re.lang secret_re y ->
  exists c d t, y = String c (String d t) /\ is_sep c = true /\
                Chars.isspace d || is_secret_char d = true.
Proof.
  intros (c & ws & w & -> & Hc & Hws & Hne & Hw)%secret_re_inv.
  destruct ws as [|d ws].
  - destruct w as [|d w]; [done|]. cbn [Str.all] in Hw.
    apply andb_prop in Hw as [Hd _].
    exists c, d, w. repeat split; [done|]. by rewrite Hd, orb_true_r.
  - cbn [Str.all] in Hws. apply andb_prop in Hws as [Hd _].
    exists c, d, (ws +:+ w). repeat split; [done|]. by rewrite Hd.
Qed.

(** The words of a labelled pattern. *)
Lemma labelled_inv lbl x :
  Re.lang (Re.Cat (WordI lbl) secret_re) x ->
  exists L y, x = L +:+ y /\ Str.lower L = Str.lower lbl /\ Re.lang secret_re y.
Proof.
  intros H. inversion H as [| |? ? L y HL Hy| | | |]; subst.
  exists L, y. split; [done|]. split; [by apply CrawlFacts.lang_WordI | done].
Qed.

Lemma labelled_exposed lbl x :
  Re.lang (Re.Cat (WordI lbl) secret_re) x -> exposed x.
Proof.
  intros (L & y & -> & _ & (c & d & t & -> & Hc & Hd)%secret_re_exposed)%labelled_inv.
  by exists L, c, d, t.
Qed.

Lemma api_key_exposed x : Re.lang api_key_re x -> exposed x.
Proof.
  unfold api_key_re. intros H.
  inversion H as [| |? ? a r1 Ha H1| | | |]; subst.
  inversion H1 as [| |? ? o r2 Ho H2| | | |]; subst.
  apply (labelled_exposed "key") in H2 as (L & c & d & t & -> & Hc & Hd).
  exists (a +:+ o +:+ L), c, d, t. split; [by rewrite !app_assoc | done].
Qed.

(** A guarded text holds no exposed separator. *)
Lemma guarded_suffix a b : guarded (a +:+ b) = true -> guarded b = true.
Proof.
  induction a as [|x a IH]; [done|]. rewrite app_cons. cbn [guarded].
  intros [_ H]%andb_prop. by apply IH.
Qed.

Lemma guarded_not_exposed x rest : exposed x -> guarded (x +:+ rest) = false.
Proof.
  intros (L & c & d & t & -> & Hc & Hd).
  destruct (guarded _) eqn:E; [|done]. exfalso.
  rewrite app_assoc in E. apply guarded_suffix in E.
  rewrite !app_cons in E. cbn [guarded] in E. rewrite Hc, Hd in E. done.
Qed.

Lemma guarded_app a b :
  Str.any is_sep a = false -> guarded b = true -> guarded (a +:+ b) = true.
Proof.
  intros Ha Hb. induction a as [|x a IH]; [done|].
  cbn [Str.any] in Ha. apply orb_false_elim in Ha as [Hx Ha].
  rewrite app_cons. cbn [guarded]. rewrite Hx. by apply IH.
Qed.

Lemma guarded_no_sep a : Str.any is_sep a = false -> guarded a = true.
Proof. intros H. rewrite <- (app_nil_r a). by apply guarded_app. Qed.

Lemma no_match_guarded r s :
  (forall x, Re.lang r x -> exposed x) ->
  guarded s = true -> longest_match r s = None.
Proof.
  intros Hr Hg. destruct (longest_match r s) as [n|] eqn:E; [exfalso|done].
  apply longest_sound in E as (x & rest & -> & _ & H%Hr).
  by rewrite (guarded_not_exposed _ rest H) in Hg.
Qed.

(** Where no match starts, the scan copies the text. *)
Lemma sub_no_match r repl s :
  (forall a b n, s = a +:+ b -> longest_match r b <> Some (S n)) ->
  sub_go r repl 0 s = s.
Proof.
  induction s as [|c s IH]; intros H; [done|].
  cbn [sub_go]. destruct (longest_match r (String c s)) as [[|n]|] eqn:E.
  - f_equal. apply IH. intros a b n ->. by apply (H (String c a) b n).
  - by destruct (H "" (String c s) n eq_refl).
  - f_equal. apply IH. intros a b n ->. by apply (H (String c a) b n).
Qed.

Lemma sub_guarded r repl s :
  (forall x, Re.lang r x -> exposed x) ->
  guarded s = true -> sub_go r repl 0 s = s.
Proof.
  intros Hr Hg. apply sub_no_match. intros a b n ->.
  apply guarded_suffix in Hg. by rewrite (no_match_guarded r b Hr Hg).
Qed.

Lemma sub_skip r repl m post :
  sub_go r repl (String.length m) (m +:+ post) = sub_go r repl 0 post.
Proof.
  induction m as [|c m IH]; [by destruct post|]. rewrite app_cons. cbn. apply IH.
Qed.

(** The leftmost match is replaced; the text before it is copied. *)
Lemma sub_first_match r repl pre m post :
  (forall a b n, pre = a +:+ b -> b <> "" ->
                 longest_match r (b +:+ m +:+ post) <> Some (S n)) ->
  m <> "" -> longest_match r (m +:+ post) = Some (String.length m) ->
  sub_go r repl 0 (pre +:+ m +:+ post) = pre +:+ repl +:+ sub_go r repl 0 post.
Proof.
  intros Hpre Hm Hmatch. induction pre as [|c pre IH].
  - change ("" +:+ m +:+ post) with (m +:+ post).
    change ("" +:+ repl +:+ sub_go r repl 0 post) with (repl +:+ sub_go r repl 0 post).
    destruct m as [|c m]; [done|]. rewrite app_cons in *. cbn [sub_go].
    rewrite Hmatch. cbn [String.length]. by rewrite sub_skip.
  - rewrite !app_cons. cbn [sub_go].
    destruct (longest_match r (String c (pre +:+ m +:+ post))) as [[|n]|] eqn:E.
    + f_equal. apply IH. intros a b n -> Hb. by apply (Hpre (String c a) b n).
    + by destruct (Hpre "" (String c pre) n eq_refl ltac:(done)).
    + f_equal. apply IH. intros a b n -> Hb. by apply (Hpre (String c a) b n).
Qed.


Ltac unapp H := repeat (rewrite app_cons in H || rewrite ValidatorFacts.app_nil_l in H).

(** Two splits of a text at its first separator agree. *)
Lemma first_sep b c tl L c' y :
  Str.any is_sep b = false -> Str.any is_sep L = false ->
  is_sep c = true -> is_sep c' = true ->
  b +:+ String c tl = L +:+ String c' y -> b = L /\ c = c' /\ tl = y.
Proof.
  revert L. induction b as [|x b IH]; intros [|a L] Hb HL Hc Hc' H; unapp H.
  - by injection H as -> ->.
  - injection H as -> _. cbn [Str.any] in HL. by rewrite Hc in HL.
  - injection H as -> _. cbn [Str.any] in Hb. by rewrite Hc' in Hb.
  - injection H as -> H. cbn [Str.any] in Hb, HL.
    apply orb_false_elim in Hb as [_ Hb]. apply orb_false_elim in HL as [_ HL].
    destruct (IH L Hb HL Hc Hc' H) as (-> & -> & ->). done.
Qed.

Lemma label_no_sep L lbl :
  Str.any is_sep lbl = false -> Str.lower L = Str.lower lbl -> Str.any is_sep L = false.
Proof. intros Hl E. by rewrite <- any_sep_lower, E, any_sep_lower. Qed.

(** Behind the blanks of a word of the pattern there are only
    characters of the secret. *)
Lemma tail_secret ws w a s0 t :
  Str.all Chars.isspace ws = true -> Str.all is_secret_char w = true ->
  is_secret_char s0 = true -> ws +:+ w = a +:+ String s0 t ->
  Str.all is_secret_char t = true.
Proof.
  revert a. induction ws as [|x ws IH]; intros a Hws Hw Hs H.
  - unapp H. subst w. rewrite all_app in Hw. apply andb_prop in Hw as [_ Hw].
    cbn [Str.all] in Hw. by apply andb_prop in Hw as [_ Hw].
  - cbn [Str.all] in Hws. apply andb_prop in Hws as [Hx Hws].
    destruct a as [|z a]; unapp H.
    + injection H as -> _. by rewrite (space_not_secret _ Hx) in Hs.
    + injection H as _ H. by apply (IH a).
Qed.

(** The words of a labelled pattern, taken apart. *)
Lemma labelled_word lbl0 x :
  Str.any is_sep lbl0 = false ->
  Re.lang (Re.Cat (WordI lbl0) secret_re) x ->
  exists L c ws w,
    x = L +:+ String c (ws +:+ w) /\ Str.lower L = Str.lower lbl0 /\
    Str.any is_sep L = false /\ is_sep c = true /\
    Str.all Chars.isspace ws = true /\ w <> "" /\ Str.all is_secret_char w = true.
Proof.
  intros H0 (L & y & -> & HL & (c & ws & w & -> & Hc & Hws & Hne & Hw)%secret_re_inv)%labelled_inv.
  exists L, c, ws, w. repeat split; try done. by apply (label_no_sep L lbl0).
Qed.

(** At a labelled secret the match takes the label, the separator, the
    blanks and the whole secret. *)
Lemma labelled_longest lbl0 L c ws secret post :
  Str.any is_sep lbl0 = false -> Str.lower L = Str.lower lbl0 ->
  is_sep c = true -> Str.all Chars.isspace ws = true ->
  secret <> "" -> Str.all is_secret_char secret = true ->
  clear_head post = true ->
  longest_match (Re.Cat (WordI lbl0) secret_re)
    ((L +:+ String c (ws +:+ secret)) +:+ post)
  = Some (String.length (L +:+ String c (ws +:+ secret))).
Proof.
  intros H0 HL Hc Hws Hne Hsec Hpost.
  set (m := L +:+ String c (ws +:+ secret)).
  assert (Re.lang (Re.Cat (WordI lbl0) secret_re) m) as Hm.
  { constructor; [by apply CrawlFacts.lang_WordI | by apply secret_re_intro]. }
  destruct (longest_complete _ _ post Hm) as (n & E & Hn). rewrite E. f_equal.
  destruct (longest_sound _ _ _ E) as (x & rest & Hx & Hlen & Hlang).
  apply app_eq_app in Hx as [(k & Hk & _)|(k & Hk & Hpk)].
  - apply (f_equal String.length) in Hk. rewrite length_app in Hk. lia.
  - destruct k as [|p0 k].
    { by rewrite <- Hlen, Hk, app_nil_r. }
    exfalso. destruct (labelled_word _ _ H0 Hlang)
      as (L' & c' & ws' & w' & Hx' & HL' & HsL' & Hc' & Hws' & Hne' & Hw').
    rewrite Hk in Hx'. unfold m in Hx'. rewrite app_assoc, app_cons in Hx'.
    apply first_sep in Hx' as (_ & _ & Ht); [|by apply (label_no_sep L lbl0)|done..].
    destruct secret as [|s0 secret]; [done|]. cbn [Str.all] in Hsec.
    apply andb_prop in Hsec as [Hs0 _].
    rewrite app_assoc, app_cons in Ht. symmetry in Ht.
    pose proof (tail_secret _ _ _ _ _ Hws' Hw' Hs0 Ht) as Hall.
    rewrite all_app in Hall. apply andb_prop in Hall as [_ Hall].
    cbn [Str.all] in Hall. apply andb_prop in Hall as [Hp0 _].
    subst post. rewrite app_cons in Hpost. cbn [clear_head] in Hpost.
    by rewrite Hp0 in Hpost.
Qed.

(** The pass of the label's own pattern replaces the labelled secret and
    nothing else. *)
Lemma own_pass lbl0 repl pre lbl c ws secret post :
  Str.any is_sep lbl0 = false -> Str.lower lbl = Str.lower lbl0 ->
  Str.any is_sep pre = false ->
  is_sep c = true -> Str.all Chars.isspace ws = true ->
  secret <> "" -> Str.all is_secret_char secret = true ->
  clear_head post = true -> guarded post = true ->
  re_sub (Re.Cat (WordI lbl0) secret_re) repl
    (pre +:+ lbl +:+ String c (ws +:+ secret +:+ post))
  = pre +:+ repl +:+ post.
Proof.
  intros H0 Hl Hpre Hc Hws Hne Hsec Hhead Hpost. unfold re_sub.
  pose proof (label_no_sep _ _ H0 Hl) as Hlbl.
  replace (lbl +:+ String c (ws +:+ secret +:+ post))
    with ((lbl +:+ String c (ws +:+ secret)) +:+ post)
    by (by rewrite app_assoc, app_cons, app_assoc).
  rewrite sub_first_match.
  - by rewrite (sub_guarded _ _ _ (labelled_exposed lbl0) Hpost).
  - intros a b n -> Hb E.
    apply longest_sound in E as (x & rest & Hx & _ & Hlang).
    destruct (labelled_word _ _ H0 Hlang)
      as (L' & c' & ws' & w' & -> & HL' & HsL' & Hc' & _).
    rewrite any_app in Hpre. apply orb_false_elim in Hpre as [_ Hb'].
    rewrite (app_assoc lbl), app_cons, <- (app_assoc b lbl) in Hx.
    rewrite (app_assoc L'), app_cons in Hx.
    apply first_sep in Hx as (HbL & _ & _); [| |done..].
    + assert (String.length (b +:+ lbl) = String.length lbl) as Hlen.
      { rewrite HbL, <- (lower_length L'), HL', <- Hl. apply lower_length. }
      rewrite length_app in Hlen. destruct b; [done | cbn in Hlen; lia].
    + by rewrite any_app, Hb', Hlbl.
  - by destruct lbl.
  - by apply labelled_longest.
Qed.

(** The pass of another label's pattern finds nothing. *)
Lemma foreign_pass lbl0 repl pre lbl c ws secret post :
  Str.any is_sep lbl0 = false ->
  (forall a k, a +:+ k = pre +:+ lbl -> Str.lower k <> Str.lower lbl0) ->
  Str.any is_sep pre = false -> Str.any is_sep lbl = false ->
  is_sep c = true -> Str.all Chars.isspace ws = true ->
  Str.all is_secret_char secret = true -> guarded post = true ->
  re_sub (Re.Cat (WordI lbl0) secret_re) repl
    (pre +:+ lbl +:+ String c (ws +:+ secret +:+ post))
  = pre +:+ lbl +:+ String c (ws +:+ secret +:+ post).
Proof.
  intros H0 Hfor Hpre Hlbl Hc Hws Hsec Hpost. unfold re_sub.
  apply sub_no_match. intros a b n Hab E.
  apply longest_sound in E as (x & rest & -> & _ & Hlang).
  destruct (labelled_word _ _ H0 Hlang)
    as (L' & c' & ws' & w' & -> & HL' & HsL' & Hc' & Hws' & Hne' & Hw').
  rewrite <- app_assoc in Hab. symmetry in Hab.
  apply app_eq_app in Hab as [(k & _ & Hk)|(k & Hk & Hb)].
  - destruct k as [|z k]; unapp Hk.
    + rewrite app_assoc, app_cons in Hk.
      apply (first_sep "" c _ L' c') in Hk as (HL & _); [|done..].
      apply (Hfor (pre +:+ lbl) ""); [by rewrite app_nil_r|]. by rewrite HL.
    + injection Hk as _ Hk.
      assert (guarded (ws +:+ secret +:+ post) = true) as Hg.
      { apply guarded_app; [|apply guarded_app; [|done]].
        - eapply all_not_any; [apply space_not_sep | done].
        - eapply all_not_any; [apply secret_not_sep | done]. }
      rewrite Hk in Hg. apply guarded_suffix in Hg.
      rewrite (guarded_not_exposed _ rest (labelled_exposed lbl0 _ Hlang)) in Hg. done.
  - rewrite (app_assoc L'), app_cons in Hb.
    assert (Str.any is_sep k = false) as Hk'.
    { assert (Str.any is_sep (a +:+ k) = false) as Hak
        by (by rewrite <- Hk, any_app, Hpre, Hlbl).
      rewrite any_app in Hak. by apply orb_false_elim in Hak as [_ ?]. }
    symmetry in Hb. apply first_sep in Hb as (HkL & _); [|done..].
    apply (Hfor a k); [done|]. by rewrite HkL.
Qed.

Lemma drop_app u s : Str.drop (String.length u) (u +:+ s) = s.
Proof. induction u as [|c u IH]; [done|]. rewrite app_cons. cbn. apply IH. Qed.

Ltac clash u Hu :=
  let Hlen := fresh "Hlen" in
  let Hd := fresh "Hd" in
  pose proof (f_equal String.length Hu) as Hlen;
  rewrite length_app in Hlen; cbn in Hlen;
  pose proof (f_equal (Str.drop (String.length u)) Hu) as Hd;
  rewrite drop_app in Hd;
  destruct (String.length u) as [|[|[|[|[|[|?]]]]]]; try lia;
  vm_compute in Hd; discriminate Hd.

(** No text that ends with one label ends with another. *)
Lemma labels_differ pre lbl l1 l2 a k :
  (l1 = "token" /\ l2 = "key") \/ (l1 = "cx" /\ l2 = "key") \/
  (l1 = "cx" /\ l2 = "token") ->
  Str.lower lbl = l1 -> a +:+ k = pre +:+ lbl -> Str.lower k <> l2.
Proof.
  intros Hp Hl Hak Hk.
  apply app_eq_app in Hak as [(j & _ & Hj)|(j & _ & Hj)].
  - apply (f_equal Str.lower) in Hj. rewrite lower_app, Hl, Hk in Hj.
    generalize dependent (Str.lower j). intros u Hu.
    destruct Hp as [[-> ->]|[[-> ->]|[-> ->]]]; clash u Hu.
  - apply (f_equal Str.lower) in Hj. rewrite lower_app, Hl, Hk in Hj.
    generalize dependent (Str.lower j). intros u Hu.
    destruct Hp as [[-> ->]|[[-> ->]|[-> ->]]]; clash u Hu.
Qed.

Lemma guarded_replaced pre lbl0 post :
  Str.any is_sep pre = false -> Str.any is_sep lbl0 = false ->
  guarded post = true -> guarded (pre +:+ lbl0 +:+ "=***" +:+ post) = true.
Proof.
  intros Hpre Hl Hpost. apply guarded_app; [done|]. apply guarded_app; [done|].
  unfold guarded; fold guarded. rewrite !app_cons. cbn [guarded].
  change ("" +:+ post) with post. rewrite Hpost. reflexivity.
Qed.

End SanitizeFacts.

(** X26: [sanitize_error] changes nothing in a text where no [=] or [:]
    is followed by a blank or by a character of a secret (a letter, a
    digit, [_] or [-]); in particular in a text without [=] and [:], and
    in its own masks such as [key=***]. *)
Theorem sanitize_error_keeps_guarded_text (msg : string) :
  guarded msg = true -> sanitize_error msg = msg.
Proof.
  intros Hg. unfold sanitize_error, re_sub, key_re, token_re, cx_re.
  rewrite (SanitizeFacts.sub_guarded _ _ msg (SanitizeFacts.labelled_exposed "key") Hg).
  rewrite (SanitizeFacts.sub_guarded _ _ msg (SanitizeFacts.labelled_exposed "token") Hg).
  rewrite (SanitizeFacts.sub_guarded _ _ msg (SanitizeFacts.labelled_exposed "cx") Hg).
  exact (SanitizeFacts.sub_guarded _ _ msg SanitizeFacts.api_key_exposed Hg).
Qed.

Lemma sanitize_error_keeps_guarded_text_witness :
  sanitize_error "HTTP 403 (key=***) quota exceeded"
  = "HTTP 403 (key=***) quota exceeded".
Proof.
  apply (sanitize_error_keeps_guarded_text "HTTP 403 (key=***) quota exceeded").
  reflexivity.
Defined.

(** X27: a secret behind one of the labels [key], [token] and [cx] (in
    any case, after any text without [=] and [:], so also behind
    [api_key] or [apikey]) is masked: the label is put in lower case, the
    separator and the blanks become [=] and the secret [***], while the
    text before and after stays, provided the text after does not go on
    with a character of a secret and is guarded. The result is a fixed
    point of [sanitize_error]. The pattern for [api_key] plays no part:
    the one for [key] has replaced the value before it is tried. *)
Theorem sanitize_error_masks_labelled_secret
    (pre lbl : string) (c : ascii) (ws secret post : string) :
  Str.any is_sep pre = false ->
  Str.lower lbl = "key" \/ Str.lower lbl = "token" \/ Str.lower lbl = "cx" ->
  is_sep c = true -> Str.all Chars.isspace ws = true ->
  secret <> "" -> Str.all is_secret_char secret = true ->
  clear_head post = true -> guarded post = true ->
  sanitize_error (pre +:+ lbl +:+ String c (ws +:+ secret +:+ post))
  = pre +:+ Str.lower lbl +:+ "=***" +:+ post /\
  sanitize_error (pre +:+ Str.lower lbl +:+ "=***" +:+ post)
  = pre +:+ Str.lower lbl +:+ "=***" +:+ post.
Proof.
  intros Hpre Hl Hc Hws Hne Hsec Hhead Hpost.
  assert (Str.any is_sep (Str.lower lbl) = false) as Hlow
    by (by destruct Hl as [->|[->| ->]]).
  assert (Str.any is_sep lbl = false) as Hlbl
    by (by rewrite <- SanitizeFacts.any_sep_lower).
  pose proof (SanitizeFacts.guarded_replaced pre _ post Hpre Hlow Hpost) as Hg.
  pose proof (SanitizeFacts.sub_guarded _ "key=***" _
                (SanitizeFacts.labelled_exposed "key") Hg) as G1.
  pose proof (SanitizeFacts.sub_guarded _ "token=***" _
                (SanitizeFacts.labelled_exposed "token") Hg) as G2.
  pose proof (SanitizeFacts.sub_guarded _ "cx=***" _
                (SanitizeFacts.labelled_exposed "cx") Hg) as G3.
  pose proof (SanitizeFacts.sub_guarded _ "api_key=***" _
                SanitizeFacts.api_key_exposed Hg) as G4.
  unfold sanitize_error, key_re, token_re, cx_re.
  split; [|unfold re_sub; by rewrite G1, G2, G3, G4].
  destruct Hl as [Hl|[Hl|Hl]]; rewrite Hl in *.
  - rewrite (SanitizeFacts.own_pass "key" "key=***" pre lbl c ws secret post);
      try done.
    unfold re_sub. change ("key=***" +:+ post) with ("key" +:+ "=***" +:+ post).
    by rewrite G2, G3, G4.
  - rewrite (SanitizeFacts.foreign_pass "key" "key=***" pre lbl c ws secret post);
      try done;
      [|intros a k; apply (SanitizeFacts.labels_differ pre lbl "token" "key"); auto].
    rewrite (SanitizeFacts.own_pass "token" "token=***" pre lbl c ws secret post);
      try done.
    unfold re_sub. change ("token=***" +:+ post) with ("token" +:+ "=***" +:+ post).
    by rewrite G3, G4.
  - rewrite (SanitizeFacts.foreign_pass "key" "key=***" pre lbl c ws secret post);
      try done;
      [|intros a k; apply (SanitizeFacts.labels_differ pre lbl "cx" "key"); auto].
    rewrite (SanitizeFacts.foreign_pass "token" "token=***" pre lbl c ws secret post);
      try done;
      [|intros a k; apply (SanitizeFacts.labels_differ pre lbl "cx" "token"); auto].
    by rewrite (SanitizeFacts.own_pass "cx" "cx=***" pre lbl c ws secret post).
Qed.

Lemma sanitize_error_masks_labelled_secret_witness :
  sanitize_error ("bad request, API_" +:+ "KEY" +:+ String "=" (" " +:+ "AIza-9_x" +:+ ", retry"))
  = "bad request, API_" +:+ Str.lower "KEY" +:+ "=***" +:+ ", retry" /\
  sanitize_error ("bad request, API_" +:+ Str.lower "KEY" +:+ "=***" +:+ ", retry")
  = "bad request, API_" +:+ Str.lower "KEY" +:+ "=***" +:+ ", retry".
Proof.
  apply (sanitize_error_masks_labelled_secret "bad request, API_" "KEY" "="
           " " "AIza-9_x" ", retry"); try reflexivity.
  - by left.
  - discriminate.
Defined.

(** A value that itself holds a separator is masked up to that separator
    only: what follows stays in clear. *)
Example sanitize_error_stops_at_separator :
  sanitize_error "key=key=abc" = "key=***=abc" /\
  sanitize_error "token=abc=def" = "token=***=def".
Proof. split; reflexivity. Qed.

(** ** Preflight and state machine *)

Module PreflightFacts.
Import Preflight.

Lemma pm_bind_unfold {A B} (m : PM A) (f : A -> PM B) s :
  (m ≫= f) s = match m s with
               | Returned a s' => f a s'
               | Raised s' => Raised s'
               end.
Proof. reflexivity. Qed.

Lemma python_verdict env matrix ok issues :
  _check_python_version env matrix = Some (ok, issues) -> ok = no_issue issues.
Proof.
  unfold _check_python_version. destruct (python_min matrix); [|by intros [= <- <-]].
  destruct (mapM _ _); [|done]. cbn.
  destruct (version_info_lt _ _); [|done]. by intros [= <- <-].
Qed.

Lemma deps_verdict env matrix ok issues :
  _check_dependencies env matrix = Some (ok, issues) -> ok = no_issue issues.
Proof.
  unfold _check_dependencies. destruct (check_deps _ _ _); [|done].
  by intros [= <- <-].
Qed.

Lemma no_issue_nil {A} (l : list A) : no_issue l = true <-> l = [].
Proof. by destruct l. Qed.

Lemma path_exists_mono s s' d :
  dirs s ⊆ dirs s' -> path_exists s d = true -> path_exists s' d = true.
Proof.
  unfold path_exists. intros Hs [H|H]%orb_prop; [by rewrite H|].
  apply bool_decide_eq_true in H. apply orb_true_intro. right.
  apply bool_decide_eq_true. by apply Hs.
Qed.

Lemma with_parents_self d : d <> [] -> d ∈ with_parents d.
Proof.
  intros Hd. unfold with_parents. apply list_elem_of_fmap.
  exists (length d - 1)%nat. split.
  - replace (S (length d - 1)) with (length d) by (destruct d; [done | cbn; lia]).
    by rewrite firstn_all.
  - apply elem_of_seq. destruct d; [done | cbn; lia].
Qed.

(** The loop of [_ensure_directories]: directories are only added, every
    one asked for exists in the end, and the ones reported were missing. *)
Lemma ensure_loop_spec env ds created s c s' :
  ensure_loop env ds created s = Returned c s' ->
  dirs s ⊆ dirs s' /\ printed s' = printed s /\
  (forall d, d ∈ ds -> path_exists s' d = true) /\
  exists new, c = created ++ new /\
              forall d, d ∈ new -> d ∈ ds /\ path_exists s d = false.
Proof.
  revert created s. induction ds as [|d ds IH]; intros created s; cbn [ensure_loop].
  - intros [= <- <-]. split; [done|]. split; [done|].
    split; [by intros ? ?%elem_of_nil|].
    exists []. split; [by rewrite app_nil_r | by intros ? ?%elem_of_nil].
  - rewrite pm_bind_unfold. destruct (path_exists s d) eqn:Hd; cbn [negb].
    + intros (Hs & Hp & Hall & new & -> & Hnew)%IH.
      split; [done|]. split; [done|]. split.
      * intros x [->|Hx]%elem_of_cons; [by apply (path_exists_mono s) | by apply Hall].
      * exists new. split; [done|]. intros x Hx. destruct (Hnew x Hx).
        split; [by apply elem_of_cons; right | done].
    + rewrite pm_bind_unfold. unfold mkdir at 1. destruct (mkdir_ok env d); [|done].
      intros (Hs & Hp & Hall & new & -> & Hnew)%IH. cbn [dirs printed] in *.
      assert (d <> []) as Hne by (intros ->; by cbn in Hd).
      split; [|split; [done|split]].
      * etrans; [|exact Hs]. apply union_subseteq_l.
      * intros x [->|Hx]%elem_of_cons; [|by apply Hall].
        unfold path_exists. apply orb_true_intro. right.
        apply bool_decide_eq_true, Hs, elem_of_union. right.
        apply elem_of_list_to_set. by apply with_parents_self.
      * exists (d :: new). split; [by rewrite <- (assoc_L (++))|].
        intros x [->|Hx]%elem_of_cons.
        -- split; [by apply elem_of_cons; left | done].
        -- destruct (Hnew x Hx) as [H1 H2]. split; [by apply elem_of_cons; right|].
           destruct (path_exists s x) eqn:E; [|done].
           rewrite (path_exists_mono s _ x) in H2; [done| |done].
           cbn. apply union_subseteq_l.
Qed.

Lemma ensure_loop_exists env ds created s :
  (forall d, d ∈ ds -> path_exists s d = true) ->
  ensure_loop env ds created s = Returned created s.
Proof.
  induction ds as [|d ds IH]; intros H; cbn [ensure_loop]; [done|].
  rewrite pm_bind_unfold, (H d) by (by apply elem_of_cons; left). cbn [negb].
  apply IH. intros x Hx. apply H. by apply elem_of_cons; right.
Qed.

Lemma emit_spec a b c d e f g h s :
  exists s', emit a b c d e f g h s = Returned tt s' /\ dirs s' = dirs s.
Proof.
  unfold emit. repeat (rewrite pm_bind_unfold; unfold print at 1).
  destruct (negb _); by eexists.
Qed.

(** [run_preflight], taken apart. *)
Lemma run_preflight_inv env logs s r s' :
  run_preflight env logs s = Returned r s' ->
  exists matrix py_issues deps_issues created s1,
    load_matrix env = Some matrix /\
    _check_python_version env matrix = Some (no_issue py_issues, py_issues) /\
    _check_dependencies env matrix = Some (no_issue deps_issues, deps_issues) /\
    _ensure_directories env dirs_to_create s = Returned created s1 /\
    dirs s' = dirs s1 /\
    r = {| passed := no_issue py_issues && no_issue deps_issues
                     && no_issue (List.filter (unset env) required_env);
           errors := [];
           missing_env := List.filter (unset env) required_env;
           version_issues := py_issues ++ deps_issues;
           created_dirs := created |}.
Proof.
  unfold run_preflight. rewrite pm_bind_unfold. unfold lift at 1.
  destruct (load_matrix env) as [matrix|]; [|done].
  rewrite pm_bind_unfold. unfold lift at 1.
  destruct (_check_python_version env matrix) as [[ok_py py_issues]|] eqn:Epy; [|done].
  rewrite pm_bind_unfold. unfold lift at 1.
  destruct (_check_dependencies env matrix) as [[ok_deps deps_issues]|] eqn:Ed; [|done].
  pose proof (python_verdict _ _ _ _ Epy) as ->.
  pose proof (deps_verdict _ _ _ _ Ed) as ->.
  cbn [_check_environment_vars]. rewrite pm_bind_unfold.
  destruct (_ensure_directories env dirs_to_create s) as [created s1|] eqn:Edir; [|done].
  rewrite pm_bind_unfold. intros H.
  exists matrix, py_issues, deps_issues, created, s1. repeat split; try done.
  - destruct logs.
    + match type of H with context [emit ?a ?b ?c ?d ?e ?f ?g ?h s1] =>
        destruct (emit_spec a b c d e f g h s1) as (s2 & E2 & Hd2); rewrite E2 in H
      end.
      by injection H as _ <-.
    + by injection H as _ <-.
  - destruct logs.
    + match type of H with context [emit ?a ?b ?c ?d ?e ?f ?g ?h s1] =>
        destruct (emit_spec a b c d e f g h s1) as (s2 & E2 & Hd2); rewrite E2 in H
      end.
      by injection H as <- _.
    + by injection H as <- _.
Qed.

End PreflightFacts.

(** X28: the verdict of [run_preflight]. When it returns, [passed] holds
    exactly when there is no version issue and no missing variable;
    [errors] is empty; [missing_env] lists, in order, the required
    variables that are unset or empty; directories are only added, each of
    the three working directories exists, and the ones reported as created
    are among the three and did not exist before. *)
Theorem run_preflight_verdict
    (env : Preflight.Env) (emit_logs : bool) (s : Preflight.Site)
    (r : Preflight.PreflightResult) (s' : Preflight.Site) :
  Preflight.run_preflight env emit_logs s = Preflight.Returned r s' ->
  (Preflight.passed r = true <->
   Preflight.version_issues r = [] /\ Preflight.missing_env r = []) /\
  Preflight.errors r = [] /\
  Preflight.missing_env r
  = List.filter (Preflight.unset env) Preflight.required_env /\
  Preflight.dirs s ⊆ Preflight.dirs s' /\
  (forall d, d ∈ Preflight.dirs_to_create -> Preflight.path_exists s' d = true) /\
  (forall d, d ∈ Preflight.created_dirs r ->
             d ∈ Preflight.dirs_to_create /\ Preflight.path_exists s d = false).
Proof.
  intros (matrix & py & dp & created & s1 & _ & _ & _ & Hdir & Hd & ->)
    %PreflightFacts.run_preflight_inv.
  apply PreflightFacts.ensure_loop_spec in Hdir
    as (Hsub & _ & Hall & new & Hc & Hnew). cbn [app] in Hc. subst created.
  cbn [Preflight.passed Preflight.errors Preflight.missing_env
       Preflight.version_issues Preflight.created_dirs].
  split; [|repeat split].
  - rewrite !andb_true_iff, !PreflightFacts.no_issue_nil. split.
    + intros [[-> ->] ->]. by split.
    + intros [[-> ->]%app_eq_nil ->]. by split.
  - by rewrite Hd.
  - intros d Hin. apply (PreflightFacts.path_exists_mono s1); [by rewrite Hd|].
    by apply Hall.
  - by apply Hnew.
  - by apply Hnew.
Qed.

Lemma run_preflight_verdict_witness :
  exists r s',
    Preflight.run_preflight sample_preflight_env true sample_site
    = Preflight.Returned r s' /\
    (Preflight.passed r = true <->
     Preflight.version_issues r = [] /\ Preflight.missing_env r = []) /\
    Preflight.errors r = [] /\
    Preflight.missing_env r
    = List.filter (Preflight.unset sample_preflight_env) Preflight.required_env /\
    Preflight.dirs sample_site ⊆ Preflight.dirs s' /\
    (forall d, d ∈ Preflight.dirs_to_create -> Preflight.path_exists s' d = true) /\
    (forall d, d ∈ Preflight.created_dirs r ->
               d ∈ Preflight.dirs_to_create /\
               Preflight.path_exists sample_site d = false).
Proof.
  destruct (Preflight.run_preflight sample_preflight_env true sample_site)
    as [r s'|s'] eqn:E.
  - exists r, s'. split; [reflexivity|].
    exact (run_preflight_verdict _ _ _ _ _ E).
  - vm_compute in E. discriminate E.
Defined.

(** X29: a second [run_preflight] right after one that returned gives
    the same verdict and the same lists of issues and missing variables,
    creates no directory and reports none as created. *)
Theorem run_preflight_again
    (env : Preflight.Env) (emit_logs emit_logs' : bool) (s : Preflight.Site)
    (r : Preflight.PreflightResult) (s' : Preflight.Site) :
  Preflight.run_preflight env emit_logs s = Preflight.Returned r s' ->
  exists s'',
    Preflight.run_preflight env emit_logs' s'
    = Preflight.Returned
        {| Preflight.passed := Preflight.passed r;
           Preflight.errors := Preflight.errors r;
           Preflight.missing_env := Preflight.missing_env r;
           Preflight.version_issues := Preflight.version_issues r;
           Preflight.created_dirs := [] |} s'' /\
    Preflight.dirs s'' = Preflight.dirs s'.
Proof.
  intros (matrix & py & dp & created & s1 & Hm & Hpy & Hdp & Hdir & Hd & ->)
    %PreflightFacts.run_preflight_inv.
  apply PreflightFacts.ensure_loop_spec in Hdir as (_ & _ & Hall & _).
  assert (forall d, d ∈ Preflight.dirs_to_create -> Preflight.path_exists s' d = true)
    as Hall'.
  { intros d Hin. apply (PreflightFacts.path_exists_mono s1); [by rewrite Hd|].
    by apply Hall. }
  unfold Preflight.run_preflight.
  rewrite PreflightFacts.pm_bind_unfold, Hm. cbn [Preflight.lift].
  rewrite PreflightFacts.pm_bind_unfold, Hpy. cbn [Preflight.lift].
  rewrite PreflightFacts.pm_bind_unfold, Hdp. cbn [Preflight.lift].
  cbn [Preflight._check_environment_vars].
  rewrite PreflightFacts.pm_bind_unfold. unfold Preflight._ensure_directories.
  rewrite (PreflightFacts.ensure_loop_exists env _ [] s' Hall').
  rewrite PreflightFacts.pm_bind_unfold.
  cbn [Preflight.passed Preflight.errors Preflight.missing_env
       Preflight.version_issues].
  destruct emit_logs'.
  - match goal with |- context [Preflight.emit ?a ?b ?c ?d ?e ?f ?g ?h s'] =>
      destruct (PreflightFacts.emit_spec a b c d e f g h s') as (s2 & -> & Hd2)
    end.
    by exists s2.
  - by exists s'.
Qed.

Lemma run_preflight_again_witness :
  exists r s' s'',
    Preflight.run_preflight sample_preflight_env true sample_site
    = Preflight.Returned r s' /\
    Preflight.run_preflight sample_preflight_env false s'
    = Preflight.Returned
        {| Preflight.passed := Preflight.passed r;
           Preflight.errors := Preflight.errors r;
           Preflight.missing_env := Preflight.missing_env r;
           Preflight.version_issues := Preflight.version_issues r;
           Preflight.created_dirs := [] |} s'' /\
    Preflight.dirs s'' = Preflight.dirs s'.
Proof.
  destruct (Preflight.run_preflight sample_preflight_env true sample_site)
    as [r s'|s'] eqn:E.
  - destruct (run_preflight_again _ true false _ _ _ E) as (s'' & H).
    by exists r, s', s''.
  - vm_compute in E. discriminate E.
Defined.

Module MachineFacts.
Import Preflight StateMachine.

Lemma sm_bind_unfold {A B} (m : SM A) (f : A -> SM B) w :
  (m ≫= f) w = match m w with
               | StateMachine.Returned a w' => f a w'
               | StateMachine.Raised w' => StateMachine.Raised w'
               end.
Proof. reflexivity. Qed.

Lemma phase_two (state : State) :
  is_one (current_phase (<["current_phase" := VInt 2]> state)) = false.
Proof. unfold current_phase. by rewrite lookup_insert_eq. Qed.

(** A state that is not in phase 1 is written back as it is. *)
Lemma later_phase env state w :
  is_one (current_phase state) = false -> state_writable env = true ->
  run_next_phase env (Some state) w
  = StateMachine.Returned state {| site := site w; saved := state :: saved w |}.
Proof.
  intros Hp Hw. unfold run_next_phase. rewrite Hp, sm_bind_unfold.
  change ((mret state : SM State) w) with (StateMachine.Returned state w).
  cbn beta iota. rewrite sm_bind_unfold. unfold _save_state at 1. by rewrite Hw.
Qed.

End MachineFacts.

(** X30: [run_next_phase] on a dictionary. When it returns, the state is
    no longer in phase 1. A state in phase 1 (also [1.0] or [true], or
    without [current_phase]) has had the preflight run once: [status] and
    [phase1] are set from its result and the state is written, then
    [current_phase] becomes 2, whether the checks passed or not, and the
    state is written again. Any other state comes back as it was, written
    once. Running the returned state again runs no preflight and changes
    nothing but the file, which is written once more. *)
Theorem run_next_phase_runs_preflight_once
    (env : StateMachine.Env) (state : StateMachine.State) (w : StateMachine.World)
    (state' : StateMachine.State) (w' : StateMachine.World) :
  StateMachine.run_next_phase env (Some state) w = StateMachine.Returned state' w' ->
  StateMachine.is_one (StateMachine.current_phase state') = false /\
  (if StateMachine.is_one (StateMachine.current_phase state)
   then exists r s1,
       Preflight.run_preflight (StateMachine.preflight env) true (StateMachine.site w)
       = Preflight.Returned r s1 /\
       let handled :=
         <["phase1" := StateMachine.VResult r]>
           (<["status" := StateMachine.VStr
                            (if Preflight.passed r then "passed" else "failed")]>
              state) in
       state' = <["current_phase" := StateMachine.VInt 2]> handled /\
       w' = {| StateMachine.site := s1;
               StateMachine.saved := state' :: handled :: StateMachine.saved w |}
   else state' = state /\
        w' = {| StateMachine.site := StateMachine.site w;
                StateMachine.saved := state :: StateMachine.saved w |}) /\
  StateMachine.run_next_phase env (Some state') w'
  = StateMachine.Returned state'
      {| StateMachine.site := StateMachine.site w';
         StateMachine.saved := state' :: StateMachine.saved w' |}.
Proof.
  intros H.
  assert (StateMachine.state_writable env = true) as Hw.
  { unfold StateMachine.run_next_phase in H. rewrite MachineFacts.sm_bind_unfold in H.
    destruct (StateMachine.state_writable env) eqn:E; [done|]. exfalso.
    destruct (StateMachine.is_one _).
    - rewrite MachineFacts.sm_bind_unfold in H.
      unfold StateMachine._handle_phase1 in H. rewrite MachineFacts.sm_bind_unfold in H.
      destruct (StateMachine.preflight_step env w); [|done].
      rewrite MachineFacts.sm_bind_unfold in H. unfold StateMachine._save_state at 1 in H.
      by rewrite E in H.
    - change ((mret state : StateMachine.SM StateMachine.State) w)
        with (StateMachine.Returned state w) in H.
      cbn beta iota in H. rewrite MachineFacts.sm_bind_unfold in H.
      unfold StateMachine._save_state at 1 in H. by rewrite E in H. }
  destruct (StateMachine.is_one (StateMachine.current_phase state)) eqn:Hp.
  - unfold StateMachine.run_next_phase in H. rewrite Hp in H.
    rewrite !MachineFacts.sm_bind_unfold in H.
    unfold StateMachine._handle_phase1 in H. rewrite MachineFacts.sm_bind_unfold in H.
    unfold StateMachine.preflight_step at 1 in H.
    destruct (Preflight.run_preflight _ true _) as [r s1|s1] eqn:Er; [|done].
    rewrite MachineFacts.sm_bind_unfold in H. unfold StateMachine._save_state at 1 in H.
    rewrite Hw in H. cbn in H. unfold StateMachine._save_state in H.
    rewrite Hw in H. cbn in H. injection H as <- <-.
    split; [apply MachineFacts.phase_two|]. split.
    + exists r, s1. by repeat split.
    + apply MachineFacts.later_phase; [apply MachineFacts.phase_two | done].
  - rewrite (MachineFacts.later_phase env state w Hp Hw) in H. injection H as <- <-.
    split; [done|]. split; [done|]. by apply MachineFacts.later_phase.
Qed.

Lemma run_next_phase_runs_preflight_once_witness :
  exists state' w',
    StateMachine.run_next_phase sample_machine_env (Some StateMachine.default_state)
      sample_world = StateMachine.Returned state' w' /\
    StateMachine.is_one (StateMachine.current_phase state') = false /\
    StateMachine.run_next_phase sample_machine_env (Some state') w'
    = StateMachine.Returned state'
        {| StateMachine.site := StateMachine.site w';
           StateMachine.saved := state' :: StateMachine.saved w' |}.
Proof.
  destruct (StateMachine.run_next_phase sample_machine_env
              (Some StateMachine.default_state) sample_world)
    as [state' w'|w'] eqn:E.
  - exists state', w'. split; [reflexivity|].
    destruct (run_next_phase_runs_preflight_once _ _ _ _ _ E) as (H1 & _ & H3).
    by split.
  - vm_compute in E. discriminate E.
Defined.
